(** * Record ingestion and bank classification of [app.py]

    A shallow embedding of the core of [app.py]: phone normalisation
    ([normalize_phone]), the IBAN detector ([IBANDetector]), the in-memory
    client store ([clients_database], [clients_by_bank], [upload_stats]),
    the two loaders, the lookup and the text export, followed by the
    properties of the specification that concern them.

    Modelling conventions.
    - A Python [str] is the list of its code points: [len] and slices
      count code points, not bytes.  A literal is read from its UTF-8
      encoding.
    - The character classes and case mappings of the source ([\d], [\s],
      [str.strip], [str.upper], [str.lower]) are those of the Unicode
      database of the interpreter.  The database is a parameter
      ([Unicode]) with the laws the proofs rely on, so the properties hold
      for every version of it; [unicode_14] is the database of CPython
      3.11, at which the properties are instantiated in Part IV.
    - A Python [dict] is an association list in insertion order with unique
      keys: assigning to a present key replaces the value in place,
      assigning to an absent key appends.
    - Module globals are the fields of an explicit [State]; every function
      that declares them [global] takes the state and returns the new one.
    - [datetime.now().strftime(...)] is a parameter [now] of the operation
      that reads the clock. *)

From Stdlib Require Import NArith List Bool Arith PeanoNat Lia.
From Stdlib Require Import Strings.Byte.
From Stdlib Require Import Permutation Sorted.
Import ListNotations.

Open Scope list_scope.
Open Scope nat_scope.

(* ================================================================== *)
(** * Part I: the embedding                                            *)
(* ================================================================== *)

(** ** Python strings *)

(** A character is its code point. *)
Abbreviation char := N (only parsing).

Definition str := list char.

(** The code points that a UTF-8 byte sequence encodes: this is how the
    literals of this file, and those of the source, are read. *)
Fixpoint utf8 (bytes : list byte) : list N :=
  match bytes with
  | [] => []
  | b :: bytes1 =>
      let n := Byte.to_N b in
      if (n <? 128)%N then n :: utf8 bytes1
      else if (n <? 224)%N then
        match bytes1 with
        | b2 :: bytes2 =>
            ((n - 192) * 64 + (Byte.to_N b2 - 128))%N :: utf8 bytes2
        | _ => [n]
        end
      else if (n <? 240)%N then
        match bytes1 with
        | b2 :: b3 :: bytes3 =>
            ((n - 224) * 4096 + (Byte.to_N b2 - 128) * 64
             + (Byte.to_N b3 - 128))%N :: utf8 bytes3
        | _ => [n]
        end
      else
        match bytes1 with
        | b2 :: b3 :: b4 :: bytes4 =>
            ((n - 240) * 262144 + (Byte.to_N b2 - 128) * 4096
             + (Byte.to_N b3 - 128) * 64 + (Byte.to_N b4 - 128))%N
              :: utf8 bytes4
        | _ => [n]
        end
  end.

(** The UTF-8 encoding of one code point, to print literals. *)
Definition utf8_encode (c : N) : list byte :=
  let b n := match Byte.of_N n with Some x => x | None => x00 end in
  (if c <? 128 then [b c]
   else if c <? 2048 then [b (192 + c / 64); b (128 + c mod 64)]
   else if c <? 65536 then
     [b (224 + c / 4096); b (128 + (c / 64) mod 64); b (128 + c mod 64)]
   else [b (240 + c / 262144); b (128 + (c / 4096) mod 64);
         b (128 + (c / 64) mod 64); b (128 + c mod 64)])%N.

Inductive literal := lit_nil | lit_cons (c : N) (l : literal).

Fixpoint literal_of (l : list N) : literal :=
  match l with [] => lit_nil | c :: l' => lit_cons c (literal_of l') end.

Fixpoint of_literal (l : literal) : list N :=
  match l with lit_nil => [] | lit_cons c l' => c :: of_literal l' end.

Definition parse_str (bytes : list byte) : literal := literal_of (utf8 bytes).

Definition print_str (l : literal) : list byte :=
  flat_map utf8_encode (of_literal l).

Definition parse_char (bytes : list byte) : option N :=
  match utf8 bytes with [c] => Some c | _ => None end.

Definition print_char (c : N) : option (list byte) :=
  if (c <? 1114112)%N then Some (utf8_encode c) else None.

Declare Scope str_scope.
Delimit Scope str_scope with str.
Declare Scope chr_scope.
Delimit Scope chr_scope with char.

(** A string literal is the list of its code points, a character literal
    its code point. *)
#[warnings="-via-type-mismatch"]
String Notation list parse_str print_str
  (via literal mapping [[nil] => lit_nil, [cons] => lit_cons]) : str_scope.
String Notation N parse_char print_char : chr_scope.
Open Scope str_scope.

(** ** The Unicode database of the interpreter *)

Definition in_range (lo hi : N) (c : char) : bool :=
  ((lo <=? c) && (c <=? hi))%N.

Definition is_ascii (c : char) : bool := (c <? 128)%N.

(** The ASCII part of the case mappings. *)
Definition ascii_upper (c : char) : char :=
  if in_range 97 122 c then (c - 32)%N else c.

Definition ascii_lower (c : char) : char :=
  if in_range 65 90 c then (c + 32)%N else c.

(** What the code takes from the Unicode database of the interpreter.
    The tables differ from one version of Python to the next; the laws
    are those this development relies on, and they hold of every code
    point in CPython. *)
Class Unicode := {
  (** [\d] of [re] on a [str] pattern: the decimal digits *)
  is_digit : char -> bool;
  (** [\s] of [re], and the characters [str.strip()] removes *)
  is_space : char -> bool;
  (** [c.upper()] for one character: [s.upper()] maps every character
      by itself, to one character or to several *)
  upper_of : char -> list char;
  (** [s.lower()]; it is not character by character (a capital sigma is
      lower-cased by what stands around it) *)
  lower : str -> str;
  is_digit_ascii : forall c, is_ascii c = true -> is_digit c = in_range 48 57 c;
  is_space_ascii :
    forall c, is_ascii c = true ->
              is_space c = in_range 9 13 c || in_range 28 32 c;
  is_digit_not_space : forall c, is_digit c = true -> is_space c = false;
  upper_of_ascii : forall c, is_ascii c = true -> upper_of c = [ascii_upper c];
  (** upper-casing leaves the characters it produces as they are *)
  upper_of_fixed : forall c d, In d (upper_of c) -> upper_of d = [d];
  (** an ASCII character it produces from another character is a capital
      letter *)
  upper_of_source :
    forall c d, In d (upper_of c) -> is_ascii d = true ->
                d = c \/ in_range 65 90 d = true;
  lower_ascii :
    forall s, forallb is_ascii s = true -> lower s = map ascii_lower s
}.

(** *** The database of Unicode 14.0, that of CPython 3.11 *)

(** The ASCII range is given by rule, the rest by table. *)

(** The zeros of the scripts above ASCII, each with ten consecutive
    digits. *)
Definition digit_zeros : list N :=
  [ 1632; 1776; 1984; 2406; 2534; 2662; 2790; 2918; 3046; 3174; 3302; 3430;
    3558; 3664; 3792; 3872; 4160; 4240; 6112; 6160; 6470; 6608; 6784; 6800;
    6992; 7088; 7232; 7248; 42528; 43216; 43264; 43472; 43504; 43600; 44016;
    65296; 66720; 68912; 69734; 69872; 69942; 70096; 70384; 70736; 70864;
    71248; 71360; 71472; 71904; 72016; 72784; 73040; 73120; 92768; 92864;
    93008; 123200; 123632; 125264; 130032 ]%N.

(** [\d]: the digits of those scripts, and the five sets of mathematical
    digits. *)
Definition is_digit_14 (c : char) : bool :=
  if is_ascii c then in_range 48 57 c
  else existsb (fun zero => in_range zero (zero + 9) c) digit_zeros
       || in_range 120782 120831 c.

(** White space above ASCII. *)
Definition spaces : list N :=
  [ 133; 160; 5760; 8192; 8193; 8194; 8195; 8196; 8197; 8198; 8199; 8200;
    8201; 8202; 8232; 8233; 8239; 8287; 12288 ]%N.

Definition is_space_14 (c : char) : bool :=
  if is_ascii c then in_range 9 13 c || in_range 28 32 c
  else existsb (N.eqb c) spaces.

(** A run of a case mapping: the characters [lo], [lo + step], ... up to
    [hi] map to [target], [target + step], ... *)
Definition case_run := (N * N * N * N)%type.

Definition expand (run : case_run) : list (char * list char) :=
  let '(lo, hi, step, target) := run in
  map (fun k => let d := (step * N.of_nat k)%N in
                ((lo + d)%N, [(target + d)%N]))
      (seq 0 (S (N.to_nat ((hi - lo) / step)))).

(** The characters that [upper()] maps to one other character. *)
Definition upper_runs : list case_run :=
  [ (181, 181, 1, 924); (224, 246, 1, 192); (248, 254, 1, 216);
    (255, 255, 1, 376); (257, 303, 2, 256); (305, 305, 1, 73);
    (307, 311, 2, 306); (314, 328, 2, 313); (331, 375, 2, 330);
    (378, 382, 2, 377); (383, 383, 1, 83); (384, 384, 1, 579);
    (387, 389, 2, 386); (392, 392, 1, 391); (396, 396, 1, 395);
    (402, 402, 1, 401); (405, 405, 1, 502); (409, 409, 1, 408);
    (410, 410, 1, 573); (414, 414, 1, 544); (417, 421, 2, 416);
    (424, 424, 1, 423); (429, 429, 1, 428); (432, 432, 1, 431);
    (436, 438, 2, 435); (441, 441, 1, 440); (445, 445, 1, 444);
    (447, 447, 1, 503); (453, 453, 1, 452); (454, 454, 1, 452);
    (456, 456, 1, 455); (457, 457, 1, 455); (459, 459, 1, 458);
    (460, 460, 1, 458); (462, 476, 2, 461); (477, 477, 1, 398);
    (479, 495, 2, 478); (498, 498, 1, 497); (499, 499, 1, 497);
    (501, 501, 1, 500); (505, 543, 2, 504); (547, 563, 2, 546);
    (572, 572, 1, 571); (575, 576, 1, 11390); (578, 578, 1, 577);
    (583, 591, 2, 582); (592, 592, 1, 11375); (593, 593, 1, 11373);
    (594, 594, 1, 11376); (595, 595, 1, 385); (596, 596, 1, 390);
    (598, 599, 1, 393); (601, 601, 1, 399); (603, 603, 1, 400);
    (604, 604, 1, 42923); (608, 608, 1, 403); (609, 609, 1, 42924);
    (611, 611, 1, 404); (613, 613, 1, 42893); (614, 614, 1, 42922);
    (616, 616, 1, 407); (617, 617, 1, 406); (618, 618, 1, 42926);
    (619, 619, 1, 11362); (620, 620, 1, 42925); (623, 623, 1, 412);
    (625, 625, 1, 11374); (626, 626, 1, 413); (629, 629, 1, 415);
    (637, 637, 1, 11364); (640, 640, 1, 422); (642, 642, 1, 42949);
    (643, 643, 1, 425); (647, 647, 1, 42929); (648, 648, 1, 430);
    (649, 649, 1, 580); (650, 651, 1, 433); (652, 652, 1, 581);
    (658, 658, 1, 439); (669, 669, 1, 42930); (670, 670, 1, 42928);
    (837, 837, 1, 921); (881, 883, 2, 880); (887, 887, 1, 886);
    (891, 893, 1, 1021); (940, 940, 1, 902); (941, 943, 1, 904);
    (945, 961, 1, 913); (962, 962, 1, 931); (963, 971, 1, 931);
    (972, 972, 1, 908); (973, 974, 1, 910); (976, 976, 1, 914);
    (977, 977, 1, 920); (981, 981, 1, 934); (982, 982, 1, 928);
    (983, 983, 1, 975); (985, 1007, 2, 984); (1008, 1008, 1, 922);
    (1009, 1009, 1, 929); (1010, 1010, 1, 1017); (1011, 1011, 1, 895);
    (1013, 1013, 1, 917); (1016, 1016, 1, 1015); (1019, 1019, 1, 1018);
    (1072, 1103, 1, 1040); (1104, 1119, 1, 1024); (1121, 1153, 2, 1120);
    (1163, 1215, 2, 1162); (1218, 1230, 2, 1217); (1231, 1231, 1, 1216);
    (1233, 1327, 2, 1232); (1377, 1414, 1, 1329); (4304, 4346, 1, 7312);
    (4349, 4351, 1, 7357); (5112, 5117, 1, 5104); (7296, 7296, 1, 1042);
    (7297, 7297, 1, 1044); (7298, 7298, 1, 1054); (7299, 7300, 1, 1057);
    (7301, 7301, 1, 1058); (7302, 7302, 1, 1066); (7303, 7303, 1, 1122);
    (7304, 7304, 1, 42570); (7545, 7545, 1, 42877); (7549, 7549, 1, 11363);
    (7566, 7566, 1, 42950); (7681, 7829, 2, 7680); (7835, 7835, 1, 7776);
    (7841, 7935, 2, 7840); (7936, 7943, 1, 7944); (7952, 7957, 1, 7960);
    (7968, 7975, 1, 7976); (7984, 7991, 1, 7992); (8000, 8005, 1, 8008);
    (8017, 8023, 2, 8025); (8032, 8039, 1, 8040); (8048, 8049, 1, 8122);
    (8050, 8053, 1, 8136); (8054, 8055, 1, 8154); (8056, 8057, 1, 8184);
    (8058, 8059, 1, 8170); (8060, 8061, 1, 8186); (8112, 8113, 1, 8120);
    (8126, 8126, 1, 921); (8144, 8145, 1, 8152); (8160, 8161, 1, 8168);
    (8165, 8165, 1, 8172); (8526, 8526, 1, 8498); (8560, 8575, 1, 8544);
    (8580, 8580, 1, 8579); (9424, 9449, 1, 9398); (11312, 11359, 1, 11264);
    (11361, 11361, 1, 11360); (11365, 11365, 1, 570); (11366, 11366, 1, 574);
    (11368, 11372, 2, 11367); (11379, 11379, 1, 11378);
    (11382, 11382, 1, 11381); (11393, 11491, 2, 11392);
    (11500, 11502, 2, 11499); (11507, 11507, 1, 11506);
    (11520, 11557, 1, 4256); (11559, 11559, 1, 4295); (11565, 11565, 1, 4301);
    (42561, 42605, 2, 42560); (42625, 42651, 2, 42624);
    (42787, 42799, 2, 42786); (42803, 42863, 2, 42802);
    (42874, 42876, 2, 42873); (42879, 42887, 2, 42878);
    (42892, 42892, 1, 42891); (42897, 42899, 2, 42896);
    (42900, 42900, 1, 42948); (42903, 42921, 2, 42902);
    (42933, 42947, 2, 42932); (42952, 42954, 2, 42951);
    (42961, 42961, 1, 42960); (42967, 42969, 2, 42966);
    (42998, 42998, 1, 42997); (43859, 43859, 1, 42931);
    (43888, 43967, 1, 5024); (65345, 65370, 1, 65313);
    (66600, 66639, 1, 66560); (66776, 66811, 1, 66736);
    (66967, 67003, 2, 66928); (66968, 66977, 1, 66929);
    (66980, 66993, 1, 66941); (66996, 67001, 1, 66957);
    (67004, 67004, 1, 66965); (68800, 68850, 1, 68736);
    (71872, 71903, 1, 71840); (93792, 93823, 1, 93760);
    (125218, 125251, 1, 125184) ]%N.

(** The characters that [upper()] maps to several. *)
Definition upper_several : list (char * list char) :=
  [ (223, [83; 83]); (329, [700; 78]); (496, [74; 780]);
    (912, [921; 776; 769]); (944, [933; 776; 769]); (1415, [1333; 1362]);
    (7830, [72; 817]); (7831, [84; 776]); (7832, [87; 778]);
    (7833, [89; 778]); (7834, [65; 702]); (8016, [933; 787]);
    (8018, [933; 787; 768]); (8020, [933; 787; 769]); (8022, [933; 787; 834]);
    (8064, [7944; 921]); (8065, [7945; 921]); (8066, [7946; 921]);
    (8067, [7947; 921]); (8068, [7948; 921]); (8069, [7949; 921]);
    (8070, [7950; 921]); (8071, [7951; 921]); (8072, [7944; 921]);
    (8073, [7945; 921]); (8074, [7946; 921]); (8075, [7947; 921]);
    (8076, [7948; 921]); (8077, [7949; 921]); (8078, [7950; 921]);
    (8079, [7951; 921]); (8080, [7976; 921]); (8081, [7977; 921]);
    (8082, [7978; 921]); (8083, [7979; 921]); (8084, [7980; 921]);
    (8085, [7981; 921]); (8086, [7982; 921]); (8087, [7983; 921]);
    (8088, [7976; 921]); (8089, [7977; 921]); (8090, [7978; 921]);
    (8091, [7979; 921]); (8092, [7980; 921]); (8093, [7981; 921]);
    (8094, [7982; 921]); (8095, [7983; 921]); (8096, [8040; 921]);
    (8097, [8041; 921]); (8098, [8042; 921]); (8099, [8043; 921]);
    (8100, [8044; 921]); (8101, [8045; 921]); (8102, [8046; 921]);
    (8103, [8047; 921]); (8104, [8040; 921]); (8105, [8041; 921]);
    (8106, [8042; 921]); (8107, [8043; 921]); (8108, [8044; 921]);
    (8109, [8045; 921]); (8110, [8046; 921]); (8111, [8047; 921]);
    (8114, [8122; 921]); (8115, [913; 921]); (8116, [902; 921]);
    (8118, [913; 834]); (8119, [913; 834; 921]); (8124, [913; 921]);
    (8130, [8138; 921]); (8131, [919; 921]); (8132, [905; 921]);
    (8134, [919; 834]); (8135, [919; 834; 921]); (8140, [919; 921]);
    (8146, [921; 776; 768]); (8147, [921; 776; 769]); (8150, [921; 834]);
    (8151, [921; 776; 834]); (8162, [933; 776; 768]); (8163, [933; 776; 769]);
    (8164, [929; 787]); (8166, [933; 834]); (8167, [933; 776; 834]);
    (8178, [8186; 921]); (8179, [937; 921]); (8180, [911; 921]);
    (8182, [937; 834]); (8183, [937; 834; 921]); (8188, [937; 921]);
    (64256, [70; 70]); (64257, [70; 73]); (64258, [70; 76]);
    (64259, [70; 70; 73]); (64260, [70; 70; 76]); (64261, [83; 84]);
    (64262, [83; 84]); (64275, [1348; 1350]); (64276, [1348; 1333]);
    (64277, [1348; 1339]); (64278, [1358; 1350]); (64279, [1348; 1341]) ]%N.

(** The same for [lower()]. *)
Definition lower_runs : list case_run :=
  [ (192, 214, 1, 224); (216, 222, 1, 248); (256, 302, 2, 257);
    (306, 310, 2, 307); (313, 327, 2, 314); (330, 374, 2, 331);
    (376, 376, 1, 255); (377, 381, 2, 378); (385, 385, 1, 595);
    (386, 388, 2, 387); (390, 390, 1, 596); (391, 391, 1, 392);
    (393, 394, 1, 598); (395, 395, 1, 396); (398, 398, 1, 477);
    (399, 399, 1, 601); (400, 400, 1, 603); (401, 401, 1, 402);
    (403, 403, 1, 608); (404, 404, 1, 611); (406, 406, 1, 617);
    (407, 407, 1, 616); (408, 408, 1, 409); (412, 412, 1, 623);
    (413, 413, 1, 626); (415, 415, 1, 629); (416, 420, 2, 417);
    (422, 422, 1, 640); (423, 423, 1, 424); (425, 425, 1, 643);
    (428, 428, 1, 429); (430, 430, 1, 648); (431, 431, 1, 432);
    (433, 434, 1, 650); (435, 437, 2, 436); (439, 439, 1, 658);
    (440, 440, 1, 441); (444, 444, 1, 445); (452, 452, 1, 454);
    (453, 453, 1, 454); (455, 455, 1, 457); (456, 456, 1, 457);
    (458, 458, 1, 460); (459, 475, 2, 460); (478, 494, 2, 479);
    (497, 497, 1, 499); (498, 500, 2, 499); (502, 502, 1, 405);
    (503, 503, 1, 447); (504, 542, 2, 505); (544, 544, 1, 414);
    (546, 562, 2, 547); (570, 570, 1, 11365); (571, 571, 1, 572);
    (573, 573, 1, 410); (574, 574, 1, 11366); (577, 577, 1, 578);
    (579, 579, 1, 384); (580, 580, 1, 649); (581, 581, 1, 652);
    (582, 590, 2, 583); (880, 882, 2, 881); (886, 886, 1, 887);
    (895, 895, 1, 1011); (902, 902, 1, 940); (904, 906, 1, 941);
    (908, 908, 1, 972); (910, 911, 1, 973); (913, 929, 1, 945);
    (931, 939, 1, 963); (975, 975, 1, 983); (984, 1006, 2, 985);
    (1012, 1012, 1, 952); (1015, 1015, 1, 1016); (1017, 1017, 1, 1010);
    (1018, 1018, 1, 1019); (1021, 1023, 1, 891); (1024, 1039, 1, 1104);
    (1040, 1071, 1, 1072); (1120, 1152, 2, 1121); (1162, 1214, 2, 1163);
    (1216, 1216, 1, 1231); (1217, 1229, 2, 1218); (1232, 1326, 2, 1233);
    (1329, 1366, 1, 1377); (4256, 4293, 1, 11520); (4295, 4295, 1, 11559);
    (4301, 4301, 1, 11565); (5024, 5103, 1, 43888); (5104, 5109, 1, 5112);
    (7312, 7354, 1, 4304); (7357, 7359, 1, 4349); (7680, 7828, 2, 7681);
    (7838, 7838, 1, 223); (7840, 7934, 2, 7841); (7944, 7951, 1, 7936);
    (7960, 7965, 1, 7952); (7976, 7983, 1, 7968); (7992, 7999, 1, 7984);
    (8008, 8013, 1, 8000); (8025, 8031, 2, 8017); (8040, 8047, 1, 8032);
    (8072, 8079, 1, 8064); (8088, 8095, 1, 8080); (8104, 8111, 1, 8096);
    (8120, 8121, 1, 8112); (8122, 8123, 1, 8048); (8124, 8124, 1, 8115);
    (8136, 8139, 1, 8050); (8140, 8140, 1, 8131); (8152, 8153, 1, 8144);
    (8154, 8155, 1, 8054); (8168, 8169, 1, 8160); (8170, 8171, 1, 8058);
    (8172, 8172, 1, 8165); (8184, 8185, 1, 8056); (8186, 8187, 1, 8060);
    (8188, 8188, 1, 8179); (8486, 8486, 1, 969); (8490, 8490, 1, 107);
    (8491, 8491, 1, 229); (8498, 8498, 1, 8526); (8544, 8559, 1, 8560);
    (8579, 8579, 1, 8580); (9398, 9423, 1, 9424); (11264, 11311, 1, 11312);
    (11360, 11360, 1, 11361); (11362, 11362, 1, 619); (11363, 11363, 1, 7549);
    (11364, 11364, 1, 637); (11367, 11371, 2, 11368); (11373, 11373, 1, 593);
    (11374, 11374, 1, 625); (11375, 11375, 1, 592); (11376, 11376, 1, 594);
    (11378, 11378, 1, 11379); (11381, 11381, 1, 11382);
    (11390, 11391, 1, 575); (11392, 11490, 2, 11393);
    (11499, 11501, 2, 11500); (11506, 11506, 1, 11507);
    (42560, 42604, 2, 42561); (42624, 42650, 2, 42625);
    (42786, 42798, 2, 42787); (42802, 42862, 2, 42803);
    (42873, 42875, 2, 42874); (42877, 42877, 1, 7545);
    (42878, 42886, 2, 42879); (42891, 42891, 1, 42892);
    (42893, 42893, 1, 613); (42896, 42898, 2, 42897);
    (42902, 42920, 2, 42903); (42922, 42922, 1, 614); (42923, 42923, 1, 604);
    (42924, 42924, 1, 609); (42925, 42925, 1, 620); (42926, 42926, 1, 618);
    (42928, 42928, 1, 670); (42929, 42929, 1, 647); (42930, 42930, 1, 669);
    (42931, 42931, 1, 43859); (42932, 42946, 2, 42933);
    (42948, 42948, 1, 42900); (42949, 42949, 1, 642); (42950, 42950, 1, 7566);
    (42951, 42953, 2, 42952); (42960, 42960, 1, 42961);
    (42966, 42968, 2, 42967); (42997, 42997, 1, 42998);
    (65313, 65338, 1, 65345); (66560, 66599, 1, 66600);
    (66736, 66771, 1, 66776); (66928, 66964, 2, 66967);
    (66929, 66938, 1, 66968); (66941, 66954, 1, 66980);
    (66957, 66962, 1, 66996); (66965, 66965, 1, 67004);
    (68736, 68786, 1, 68800); (71840, 71871, 1, 71872);
    (93760, 93791, 1, 93792); (125184, 125217, 1, 125218) ]%N.

Definition lower_several : list (char * list char) :=
  [ (304, [105; 775]) ]%N.

Definition upper_table : list (char * list char) :=
  Eval vm_compute in upper_several ++ flat_map expand upper_runs.

Definition lower_table : list (char * list char) :=
  Eval vm_compute in lower_several ++ flat_map expand lower_runs.

Definition table_get (table : list (char * list char)) (c : char)
  : list char :=
  match find (fun kv => N.eqb (fst kv) c) table with
  | Some kv => snd kv
  | None => [c]
  end.

Definition upper_of_14 (c : char) : list char :=
  if is_ascii c then [ascii_upper c] else table_get upper_table c.

(** Character by character; CPython differs on a capital sigma (U+03A3)
    at the end of a word, which it maps to the final form. *)
Definition lower_14 (s : str) : str :=
  flat_map (fun c => if is_ascii c then [ascii_lower c]
                     else table_get lower_table c) s.

(** [l = [d]] as a test *)
Definition is_single (d : char) (l : list char) : bool :=
  match l with [x] => N.eqb x d | _ => false end.

(** The laws hold of these tables. *)
Definition unicode_14 : Unicode.
Proof.
  assert (forall P : char -> bool,
            forallb P (map N.of_nat (seq 0 128)) = true ->
            forall c, is_ascii c = true -> P c = true) as ascii_cases.
  { intros P F c A. rewrite forallb_forall in F. apply F.
    unfold is_ascii in A. apply N.ltb_lt in A.
    rewrite <- (N2Nat.id c). apply in_map. apply in_seq. lia. }
  assert (forall d l, is_single d l = true -> l = [d]) as single.
  { intros d [|x [|y l]]; try discriminate. simpl.
    now intros ->%N.eqb_eq. }
  assert (forall table c,
            table_get table c = [c] \/ In (c, table_get table c) table)
    as get_cases.
  { intros table c. unfold table_get.
    destruct (find (fun kv => N.eqb (fst kv) c) table) as [[k v]|] eqn:E;
      [|now left].
    apply find_some in E as [I E]. apply N.eqb_eq in E. simpl in E.
    subst k. now right. }
  refine {| is_digit := is_digit_14; is_space := is_space_14;
            upper_of := upper_of_14; lower := lower_14 |}.
  - (* is_digit_ascii *)
    intros c A. unfold is_digit_14. now rewrite A.
  - (* is_space_ascii *)
    intros c A. unfold is_space_14. now rewrite A.
  - (* is_digit_not_space *)
    intros c. unfold is_digit_14, is_space_14.
    destruct (is_ascii c) eqn:A.
    + revert c A.
      assert (forall c, is_ascii c = true ->
                negb (in_range 48 57 c)
                || negb (in_range 9 13 c || in_range 28 32 c) = true) as K
          by (apply ascii_cases; vm_compute; reflexivity).
      intros c A D. specialize (K c A). rewrite D in K.
      now apply negb_true_iff in K.
    + intros D. apply not_true_is_false. intros S.
      apply existsb_exists in S as (w & I & E). apply N.eqb_eq in E. subst w.
      assert (forallb (fun w => negb (is_digit_14 w)) spaces = true) as F
          by (vm_compute; reflexivity).
      rewrite forallb_forall in F. specialize (F c I).
      unfold is_digit_14 in F. rewrite A, D in F. discriminate F.
  - (* upper_of_ascii *)
    intros c A. unfold upper_of_14. now rewrite A.
  - (* upper_of_fixed *)
    assert (forall d, is_ascii d = true ->
              is_single (ascii_upper d) (upper_of_14 (ascii_upper d)) = true)
      as K by (apply ascii_cases; vm_compute; reflexivity).
    assert (forallb (fun kv => forallb (fun d => is_single d (upper_of_14 d))
                                       (snd kv)) upper_table = true) as F
        by (vm_compute; reflexivity).
    rewrite forallb_forall in F.
    intros c d. unfold upper_of_14 at 1. destruct (is_ascii c) eqn:A.
    + intros [<-|[]]. apply single, K, A.
    + destruct (get_cases upper_table c) as [E|I].
      * rewrite E. intros [<-|[]]. unfold upper_of_14. now rewrite A.
      * intros H. specialize (F _ I). cbn [snd] in F.
        rewrite forallb_forall in F. apply single, F, H.
  - (* upper_of_source *)
    assert (forall c, is_ascii c = true ->
              N.eqb (ascii_upper c) c || in_range 65 90 (ascii_upper c) = true)
      as K by (apply ascii_cases; vm_compute; reflexivity).
    assert (forallb (fun kv => forallb (fun d => negb (is_ascii d)
                                                 || in_range 65 90 d)
                                       (snd kv)) upper_table = true) as F
        by (vm_compute; reflexivity).
    rewrite forallb_forall in F.
    intros c d. unfold upper_of_14. destruct (is_ascii c) eqn:A.
    + intros [<-|[]] _. specialize (K c A).
      apply orb_true_iff in K as [K|K]; [left; now apply N.eqb_eq|now right].
    + destruct (get_cases upper_table c) as [E|I].
      * rewrite E. intros [<-|[]] _. now left.
      * intros H Ad. specialize (F _ I). cbn [snd] in F.
        rewrite forallb_forall in F. specialize (F d H).
        rewrite Ad in F. now right.
  - (* lower_ascii *)
    intros s. unfold lower_14. induction s as [|c s IH]; [reflexivity|].
    cbn [forallb flat_map map]. intros [A F]%andb_true_iff.
    now rewrite A, (IH F).
Defined.

(** ** String operations *)

Fixpoint str_eqb (a b : str) : bool :=
  match a, b with
  | [], [] => true
  | c :: a', d :: b' => N.eqb c d && str_eqb a' b'
  | _, _ => false
  end.

(** Python truthiness of a string: [if s:] *)
Definition truthy (s : str) : bool :=
  match s with [] => false | _ :: _ => true end.

(** [s.startswith(p)] *)
Fixpoint startswith (s p : str) {struct p} : bool :=
  match p, s with
  | [], _ => true
  | c :: p', d :: s' => N.eqb c d && startswith s' p'
  | _ :: _, [] => false
  end.

(** [needle in hay] *)
Fixpoint contains (needle hay : str) : bool :=
  startswith hay needle ||
  match hay with
  | [] => false
  | _ :: hay' => contains needle hay'
  end.

(** [s.replace(c, '')] for a one-character [c] *)
Definition remove_char (c : char) (s : str) : str :=
  filter (fun d => negb (N.eqb d c)) s.

(** [s[i:j]] and [len(s)] count code points. *)
Definition slice (i j : nat) (s : str) : str := firstn (j - i) (skipn i s).

Fixpoint dropwhile (f : char -> bool) (s : str) : str :=
  match s with
  | [] => []
  | c :: s' => if f c then dropwhile f s' else s
  end.

(** [s.split(sep)] for a one-character separator: never the empty list. *)
Fixpoint split (sep : char) (s : str) : list str :=
  match s with
  | [] => [[]]
  | c :: s' =>
      if N.eqb c sep then [] :: split sep s'
      else match split sep s' with
           | h :: t => (c :: h) :: t
           | [] => [[c]]
           end
  end.

(** [s.split(sep, 1)]: one part when [sep] does not occur, otherwise the
    text before the first [sep] and the text after it. *)
Fixpoint split1 (sep : char) (s : str) : list str :=
  match s with
  | [] => [[]]
  | c :: s' =>
      if N.eqb c sep then [[]; s']
      else match split1 sep s' with
           | h :: t => (c :: h) :: t
           | [] => [[c]]
           end
  end.

(** [sep.join(parts)] *)
Fixpoint join (sep : str) (parts : list str) : str :=
  match parts with
  | [] => []
  | [x] => x
  | x :: rest => x ++ sep ++ join sep rest
  end.

Definition line_feed : char := 10%N.

Arguments remove_char c%_char s.
Arguments split sep%_char s.
Arguments split1 sep%_char s.

(** ** Python dictionaries *)

Section Dict.
Context {V : Type}.

Definition dict := list (str * V).

(** [d.get(k)] *)
Fixpoint dict_get (k : str) (d : dict) : option V :=
  match d with
  | [] => None
  | (k', v) :: d' => if str_eqb k k' then Some v else dict_get k d'
  end.

(** [k in d] *)
Definition dict_mem (k : str) (d : dict) : bool :=
  match dict_get k d with Some _ => true | None => false end.

(** [d[k] = v] *)
Fixpoint dict_set (k : str) (v : V) (d : dict) : dict :=
  match d with
  | [] => [(k, v)]
  | (k', v') :: d' =>
      if str_eqb k k' then (k', v) :: d' else (k', v') :: dict_set k v d'
  end.

(** a dictionary display [{k1: v1, k2: v2, ...}], entries taken left to
    right, and [{**d, **e}] *)
Definition dict_update (d : dict) (items : list (str * V)) : dict :=
  fold_left (fun acc kv => dict_set (fst kv) (snd kv) acc) items d.

Definition dict_display (items : list (str * V)) : dict :=
  dict_update [] items.

Definition dict_keys (d : dict) : list str := map fst d.
Definition dict_values (d : dict) : list V := map snd d.

(** [len(d)] *)
Definition dict_len (d : dict) : nat := length d.
End Dict.

Arguments dict V : clear implicits.

(** [d[k].append(x)] on a [defaultdict(list)] *)
Definition dict_append (k : str) (x : str) (d : dict (list str))
  : dict (list str) :=
  match dict_get k d with
  | Some l => dict_set k (l ++ [x]) d
  | None => dict_set k [x] d
  end.

(** ** The code, over the database of the interpreter *)

Section Embedding.
Context {U : Unicode}.

(** [s.upper()] *)
Definition upper (s : str) : str := flat_map upper_of s.

Definition lstrip (s : str) : str := dropwhile is_space s.
Definition rstrip (s : str) : str := rev (dropwhile is_space (rev s)).

(** [s.strip()] *)
Definition strip (s : str) : str := rstrip (lstrip s).

(** [parts[i].strip() if len(parts) > i else ''] *)
Definition part (i : nat) (parts : list str) : str := strip (nth i parts []).

(** ** Phone normalisation *)

(** [re.sub(r'[^\d+]', '', s)] *)
Definition digit_or_plus (c : char) : bool := is_digit c || N.eqb c "+"%char.

Definition keep_digits_plus (s : str) : str := filter digit_or_plus s.

(** [re.match('^' + lit + r'(\d{9})$', s)]: the captured group.  Without
    [re.MULTILINE], [$] matches at the end of the string and just before
    a line feed that ends the string. *)
Definition re_match_d9 (lit s : str) : option str :=
  if startswith s lit then
    let rest := skipn (length lit) s in
    let group := firstn 9 rest in
    let tail := skipn 9 rest in
    if (length group =? 9) && forallb is_digit group
       && (str_eqb tail [] || str_eqb tail [line_feed])
    then Some group
    else None
  else None.

(** The table [patterns] of [normalize_phone]. *)
Definition patterns : list (str * (str -> str)) :=
  [ ("0033" : str, fun g => "0" ++ g);
    ("+33" : str, fun g => "0" ++ g);
    ("33" : str, fun g => "0" ++ g);
    ("0" : str, fun g => "0" ++ g);
    ("" : str, fun g => "0" ++ g) ].

Fixpoint first_pattern (ps : list (str * (str -> str))) (cleaned : str)
  : option str :=
  match ps with
  | [] => None
  | (lit, transform) :: ps' =>
      match re_match_d9 lit cleaned with
      | Some g =>
          let result := transform g in
          if truthy result && (length result =? 10) && startswith result "0"
          then Some result
          else first_pattern ps' cleaned
      | None => first_pattern ps' cleaned
      end
  end.

Definition normalize_phone (phone : str) : option str :=
  if negb (truthy phone) then None
  else first_pattern patterns (keep_digits_plus phone).

(** The cleaning step as the specification words it: every character is
    removed except the digits and a leading ['+'] (a ['+'] is kept only
    when no digit and no ['+'] was kept before it). *)
Fixpoint keep_digits_leading_plus_from (seen : bool) (s : str) : str :=
  match s with
  | [] => []
  | c :: s' =>
      if is_digit c then c :: keep_digits_leading_plus_from true s'
      else if N.eqb c "+"%char && negb seen
           then c :: keep_digits_leading_plus_from true s'
           else keep_digits_leading_plus_from seen s'
  end.

Definition keep_digits_leading_plus (s : str) : str :=
  keep_digits_leading_plus_from false s.

(** Nine digits. *)
Definition digits9 (d : str) : Prop :=
  length d = 9 /\ forallb is_digit d = true.

(** The five accepted shapes of a cleaned string, with the nine digits
    they carry, in the precedence order of the specification. *)
Inductive shape : str -> str -> Prop :=
| shape_0033 d : digits9 d -> shape ("0033" ++ d) d
| shape_plus33 d : digits9 d -> shape ("+33" ++ d) d
| shape_33 d : digits9 d -> shape ("33" ++ d) d
| shape_0 d : digits9 d -> shape ("0" ++ d) d
| shape_bare d : digits9 d -> shape d d.

(** ** The IBAN detector *)

(** The entries of the display [self.local_banks = {...}], in the order
    they are written, repeated keys included. *)
Definition local_banks_items : list (str * str) :=
      (* BNP PARIBAS - TOUS LES CODES *)
    [ ("10907", "BNP Paribas");
      ("30004", "BNP Paribas");
      ("30001", "BNP Paribas");
      ("10108", "BNP Paribas");
      (* SOCIÉTÉ GÉNÉRALE - TOUS LES CODES *)
      ("30003", "Société Générale");
      ("30002", "Société Générale");
      (* LA BANQUE POSTALE *)
      ("20041", "La Banque Postale");
      (* BRED BANQUE POPULAIRE *)
      ("30056", "BRED");
      ("10107", "BRED Banque Populaire");
      (* CRÉDIT MUTUEL - TOUTES LES CAISSES *)
      ("10278", "Crédit Mutuel");
      ("10068", "Crédit Mutuel Anjou");
      ("10096", "Crédit Mutuel Océan");
      ("10138", "Crédit Mutuel Maine-Anjou");
      ("10758", "Crédit Mutuel Nord Europe");
      ("10518", "Crédit Mutuel Île-de-France");
      ("10798", "Crédit Mutuel Dauphiné-Vivarais");
      ("10838", "Crédit Mutuel Midi-Atlantique");
      ("10548", "Crédit Mutuel Centre");
      ("10878", "Crédit Mutuel Savoie-Mont Blanc");
      ("10738", "Crédit Mutuel Loire-Atlantique Centre Ouest");
      ("10207", "Crédit Mutuel");
      (* CIC - TOUTES LES CAISSES *)
      ("10906", "CIC");
      ("11027", "CIC Lyonnaise de Banque");
      ("11315", "CIC Ouest");
      ("11516", "CIC Est");
      ("11706", "CIC Sud Ouest");
      ("30066", "CIC");
      (* BANQUES POPULAIRES - TOUTES LES CAISSES *)
      ("10107", "Banque Populaire");
      ("13357", "Banque Populaire Auvergne Rhône Alpes");
      ("11455", "Banque Populaire Bourgogne Franche-Comté");
      ("12455", "Banque Populaire Grand Ouest");
      ("13135", "Banque Populaire Méditerranée");
      ("13825", "Banque Populaire Occitane");
      ("14445", "Banque Populaire Rives de Paris");
      ("14559", "Banque Populaire Val de France");
      ("17068", "Banque Populaire Alsace Lorraine Champagne");
      ("18315", "Banque Populaire du Nord");
      ("18415", "Banque Populaire");
      (* CAISSE D'ÉPARGNE - TOUTES LES CAISSES *)
      ("10695", "Caisse d'Épargne");
      ("10778", "Caisse d'Épargne Île-de-France");
      ("11315", "Caisse d'Épargne Loire-Centre");
      ("12135", "Caisse d'Épargne Provence-Alpes-Corse");
      ("12548", "Caisse d'Épargne Aquitaine Poitou-Charentes");
      ("12755", "Caisse d'Épargne Midi-Pyrénées");
      ("13625", "Caisse d'Épargne Bretagne-Pays de Loire");
      ("13715", "Caisse d'Épargne Côte d'Azur");
      ("15135", "Caisse d'Épargne Bourgogne Franche-Comté");
      ("15589", "Caisse d'Épargne Loire Drôme Ardèche");
      ("16515", "Caisse d'Épargne Grand Est Europe");
      ("17515", "Caisse d'Épargne Hauts de France");
      ("18315", "Caisse d'Épargne Normandie");
      ("17906", "Caisse d'Épargne Rhône Alpes");
      (* BANQUES EN LIGNE *)
      ("16798", "ING Direct");
      ("12548", "Boursorama");
      ("17515", "Monabanq");
      ("18206", "N26");
      ("16958", "Hello Bank");
      ("13698", "Fortuneo");
      ("15589", "BforBank");
      ("12968", "Orange Bank");
      (* LCL - LE CRÉDIT LYONNAIS *)
      ("30002", "LCL - Le Crédit Lyonnais");
      ("30005", "LCL");
      (* BANQUES RÉGIONALES *)
      ("30027", "Crédit Coopératif");
      ("30056", "BRED");
      ("13506", "Crédit du Nord");
      ("10479", "Banque Kolb");
      ("10529", "Banque Nuger");
      ("10589", "Banque Laydernier");
      ("10609", "Banque Rhône-Alpes");
      ("10868", "Banque Tarneaud");
      ("15589", "Banque Palatine");
      ("18315", "Société Marseillaise de Crédit");
      (* BANQUES ÉTRANGÈRES EN FRANCE *)
      ("30006", "HSBC France");
      ("30007", "Barclays");
      ("12739", "Crédit Foncier");
      ("13134", "Banque Accord");
      ("15135", "Banque Casino");
      (* NEO-BANQUES *)
      ("16958", "Revolut");
      ("18206", "N26");
      ("17515", "Qonto");
      ("12968", "Nickel") ].

(** The entries of the display [self.codes_ca = {...}], as written. *)
Definition codes_ca_items : list (str * str) :=
    [ ("13906", "Crédit Agricole Centre-Est");
      ("14706", "Crédit Agricole Atlantique Vendée");
      ("18706", "Crédit Agricole Île-de-France");
      ("16906", "Crédit Agricole Pyrénées Gascogne");
      ("18206", "Crédit Agricole Nord-Est");
      ("11706", "Crédit Agricole Charente Périgord");
      ("10206", "Crédit Agricole Nord de France");
      ("13306", "Crédit Agricole Aquitaine");
      ("13606", "Crédit Agricole Centre Ouest");
      ("14506", "Crédit Agricole Centre Loire");
      ("16606", "Crédit Agricole Normandie-Seine");
      ("17206", "Crédit Agricole Alsace Vosges");
      ("17906", "Crédit Agricole Anjou Maine");
      ("12406", "Crédit Agricole Charente-Maritime");
      ("12906", "Crédit Agricole Finistère");
      ("12206", "Crédit Agricole Morbihan");
      ("14806", "Crédit Agricole Languedoc");
      ("17106", "Crédit Agricole Loire Haute-Loire");
      ("11206", "Crédit Agricole Brie Picardie");
      ("13106", "Crédit Agricole Alpes Provence");
      ("14406", "Crédit Agricole Ille-et-Vilaine");
      ("16106", "Crédit Agricole Deux-Sèvres");
      ("16706", "Crédit Agricole Sud Rhône Alpes");
      ("17306", "Crédit Agricole Sud Méditerranée");
      ("18106", "Crédit Agricole Touraine Poitou");
      ("19106", "Crédit Agricole Centre France");
      ("12506", "Crédit Agricole Loire Océan");
      ("13206", "Crédit Agricole Midi-Pyrénées");
      ("14206", "Crédit Agricole Normandie");
      ("15206", "Crédit Agricole Savoie Mont Blanc");
      ("16206", "Crédit Agricole Franche-Comté");
      ("17606", "Crédit Agricole Lorraine");
      ("18406", "Crédit Agricole Val de France");
      ("19406", "Crédit Agricole Provence Côte d'Azur");
      ("19906", "Crédit Agricole Côtes d'Armor");
      ("16806", "Crédit Agricole Cantal Auvergne");
      ("12006", "Crédit Agricole Corse");
      ("11006", "Crédit Agricole Champagne-Bourgogne");
      ("16006", "Crédit Agricole Morbihan");
      ("17806", "Crédit Agricole Centre-Est");
      ("13506", "Crédit Agricole Languedoc");
      ("18306", "Crédit Agricole Normandie");
      ("11306", "Crédit Agricole Alpes Provence");
      ("30002", "Crédit Agricole");
      ("11315", "Crédit Agricole");
      ("13335", "Crédit Agricole") ].

Record IBANDetector := {
  local_banks : dict str;
  codes_ca : dict str;
  all_banks : dict str
}.

(** [{**d, **e}]: a new dictionary filled with the items of [d], then
    with those of [e]. *)
Definition dict_merge {V} (d e : dict V) : dict V :=
  dict_update (dict_update [] d) e.

(** The name written last for a prefix in a table display, and the number
    of times the prefix is written in it. *)
Definition last_listed (k : str) (items : list (str * str)) : option str :=
  dict_get k (rev items).

Definition times_listed (k : str) (items : list (str * str)) : nat :=
  length (filter (fun kv => str_eqb k (fst kv)) items).

(** [IBANDetector.__init__] *)
Definition IBANDetector_init : IBANDetector :=
  let local_banks := dict_display local_banks_items in
  let codes_ca := dict_display codes_ca_items in
  {| local_banks := local_banks;
     codes_ca := codes_ca;
     all_banks := dict_merge local_banks codes_ca |}.

Definition unknown : str := "unknown".
Definition NA : str := "N/A".

(** The display names of the classifier.  The specification calls them
    "Foreign bank", "Invalid account identifier" and
    "French bank (<prefix>)". *)
Definition Banque_etrangere : str := "Banque étrangère".
Definition IBAN_invalide : str := "IBAN invalide".
Definition Banque_francaise (code_banque : str) : str :=
  "Banque française (" ++ code_banque ++ ")".

(** [IBANDetector.clean_iban] *)
Definition clean_iban (iban : str) : str :=
  if negb (truthy iban) then ""
  else upper (remove_char "-" (remove_char " " iban)).

(** [IBANDetector.detect_local]; nothing in the [try] block raises on a
    string, so the [except] branch is not reached. *)
Definition detect_local (self : IBANDetector) (iban_clean : str) : str :=
  if negb (startswith iban_clean "FR") then Banque_etrangere
  else if length iban_clean <? 14 then IBAN_invalide
  else
    let code_banque := slice 4 9 iban_clean in
    match dict_get code_banque (all_banks self) with
    | Some bank_name =>
        if truthy bank_name then bank_name else Banque_francaise code_banque
    | None => Banque_francaise code_banque
    end.

(** [IBANDetector.detect_bank] *)
Definition detect_bank (self : IBANDetector) (iban : str) : str :=
  if negb (truthy iban) then NA
  else
    let iban_clean := clean_iban iban in
    if negb (truthy iban_clean) then NA
    else detect_local self iban_clean.

(** [IBANDetector.extract_bank_code] *)
Definition extract_bank_code (iban : str) : str :=
  if negb (truthy iban) then unknown
  else
    let iban_clean := clean_iban iban in
    if (length iban_clean <? 14) || negb (startswith iban_clean "FR")
    then unknown
    else slice 4 9 iban_clean.

(** ** Client records and the module state *)

Record ClientRecord := {
  nom : str;
  prenom : str;
  email : str;
  entreprise : str;
  telephone : str;
  adresse : str;
  ville : str;
  code_postal : str;
  banque : str;
  bank_code : str;
  swift : str;
  iban : str;
  sexe : str;
  date_naissance : str;
  lieu_naissance : str;
  profession : str;
  statut : str;
  date_upload : str;
  nb_appels : nat;
  dernier_appel : option str;
  notes : str
}.

Record Stats := {
  total_clients : nat;
  last_upload : option str;
  filename : option str;
  banks_detected : nat
}.

(** The module globals [iban_detector], [clients_database],
    [clients_by_bank] and [upload_stats]. *)
Record State := {
  iban_detector : IBANDetector;
  clients_database : dict ClientRecord;
  clients_by_bank : dict (list str);
  upload_stats : Stats
}.

Definition empty_stats : Stats :=
  {| total_clients := 0; last_upload := None; filename := None;
     banks_detected := 0 |}.

(** The state after the module is imported. *)
Definition initial_state : State :=
  {| iban_detector := IBANDetector_init;
     clients_database := [];
     clients_by_bank := [];
     upload_stats := empty_stats |}.

Definition Prospect : str := "Prospect".
Definition Non_reference : str := "Non référencé".

(** [create_unknown_client] *)
Definition create_unknown_client (phone_number : str) : ClientRecord :=
  {| nom := "INCONNU"; prenom := "CLIENT"; email := NA;
     entreprise := NA; adresse := NA; ville := NA;
     code_postal := NA; telephone := phone_number;
     banque := NA; bank_code := unknown; swift := NA; iban := NA;
     sexe := NA; date_naissance := NA; lieu_naissance := NA;
     profession := NA; statut := Non_reference;
     date_upload := NA; nb_appels := 0; dernier_appel := None; notes := "" |}.

(** [c["nb_appels"] += 1; c["dernier_appel"] = now] *)
Definition record_call (now : str) (c : ClientRecord) : ClientRecord :=
  {| nom := nom c; prenom := prenom c; email := email c;
     entreprise := entreprise c; telephone := telephone c;
     adresse := adresse c; ville := ville c; code_postal := code_postal c;
     banque := banque c; bank_code := bank_code c; swift := swift c;
     iban := iban c; sexe := sexe c; date_naissance := date_naissance c;
     lieu_naissance := lieu_naissance c; profession := profession c;
     statut := statut c; date_upload := date_upload c;
     nb_appels := nb_appels c + 1; dernier_appel := Some now;
     notes := notes c |}.

Definition set_clients_database (db : dict ClientRecord) (st : State) : State :=
  {| iban_detector := iban_detector st;
     clients_database := db;
     clients_by_bank := clients_by_bank st;
     upload_stats := upload_stats st |}.

(** [get_client_info]: the copy returned is taken before the two
    assignments to the stored record. *)
Definition get_client_info (now : str) (phone_number : str) (st : State)
  : State * ClientRecord :=
  if negb (truthy phone_number) then (st, create_unknown_client phone_number)
  else
    match normalize_phone phone_number with
    | Some normalized =>
        if truthy normalized then
          match dict_get normalized (clients_database st) with
          | Some stored =>
              let client := stored in
              (set_clients_database
                 (dict_set normalized (record_call now stored)
                    (clients_database st)) st,
               client)
          | None => (st, create_unknown_client phone_number)
          end
        else (st, create_unknown_client phone_number)
    | None => (st, create_unknown_client phone_number)
    end.

(** ** The loaders *)

(** The bank detection written out in both loaders (lines 556-576 and
    680-700 are the same code): [banque], [bank_code], and whether
    [banks_detected] is incremented. *)
Definition detect_row_bank (det : IBANDetector) (iban : str)
  : str * str * bool :=
  if negb (truthy iban) || str_eqb iban "" then (NA, unknown, false)
  else
    let iban_clean := clean_iban iban in
    let bank_code := extract_bank_code iban in
    let '(banque_detectee, precise) :=
      if (length iban_clean <? 14) || negb (startswith iban_clean "FR") then
        if negb (startswith iban_clean "FR") then (Banque_etrangere, false)
        else (IBAN_invalide, false)
      else
        match dict_get bank_code (all_banks det) with
        | Some name =>
            if truthy name then (name, true)
            else (Banque_francaise bank_code, false)
        | None => (Banque_francaise bank_code, false)
        end in
    ("🏦 " ++ banque_detectee, bank_code, precise).

(** The dictionary [client_data] built by both loaders. *)
Definition client_data (nom prenom email telephone adresse ville code_postal
                        banque bank_code swift iban date_naissance now : str)
  : ClientRecord :=
  {| nom := nom; prenom := prenom; email := email; entreprise := NA;
     telephone := telephone; adresse := adresse; ville := ville;
     code_postal := code_postal; banque := banque; bank_code := bank_code;
     swift := swift; iban := iban; sexe := NA;
     date_naissance := date_naissance; lieu_naissance := NA;
     profession := NA; statut := Prospect; date_upload := now;
     nb_appels := 0; dernier_appel := None; notes := "" |}.

(** The local state of a loader while it reads its rows: the two fresh
    globals and the two counters. *)
Record Loading := {
  ld_database : dict ClientRecord;
  ld_by_bank : dict (list str);
  loaded_count : nat;
  ld_banks_detected : nat
}.

Definition empty_loading : Loading :=
  {| ld_database := []; ld_by_bank := []; loaded_count := 0;
     ld_banks_detected := 0 |}.

(** The end of the loop body, for a row that was not skipped:
    [clients_database[telephone] = client_data],
    [clients_by_bank[bank_code].append(telephone)], [loaded_count += 1];
    [banks_detected] was incremented by the detection above it. *)
Definition store_row (ld : Loading) (row : ClientRecord * bool) : Loading :=
  let '(client, precise) := row in
  {| ld_database := dict_set (telephone client) client (ld_database ld);
     ld_by_bank :=
       dict_append (bank_code client) (telephone client) (ld_by_bank ld);
     loaded_count := loaded_count ld + 1;
     ld_banks_detected :=
       ld_banks_detected ld + (if precise then 1 else 0) |}.

(** A skipped row ([continue]) leaves the loader state as it is. *)
Definition load_row (ld : Loading) (row : option (ClientRecord * bool))
  : Loading :=
  match row with
  | Some r => store_row ld r
  | None => ld
  end.

(** The loop of a loader over its rows, each already taken through the
    loop body up to the record. *)
Definition load_rows (rows : list (option (ClientRecord * bool))) : Loading :=
  fold_left load_row rows empty_loading.

(** The records of the rows that were not skipped, in the order of the
    rows. *)
Fixpoint accepted (rows : list (option (ClientRecord * bool)))
  : list ClientRecord :=
  match rows with
  | [] => []
  | Some (client, _) :: rows' => client :: accepted rows'
  | None :: rows' => accepted rows'
  end.

(** The last record of a sequence that carries the phone [p]. *)
Definition last_with_phone (p : str) (records : list ClientRecord)
  : option ClientRecord :=
  find (fun c => str_eqb p (telephone c)) (rev records).

(** The end of a loader: the globals are the loader's dictionaries, and
    three entries of [upload_stats] are assigned. *)
Definition finish_loading (now : str) (st : State) (ld : Loading) : State :=
  {| iban_detector := iban_detector st;
     clients_database := ld_database ld;
     clients_by_bank := ld_by_bank ld;
     upload_stats :=
       {| total_clients := dict_len (ld_database ld);
          last_upload := Some now;
          filename := filename (upload_stats st);
          banks_detected := ld_banks_detected ld |} |}.

(** The first two statements of a loader: both globals are rebound to
    empty dictionaries before the [try] block is entered. *)
Definition reset_clients (st : State) : State :=
  {| iban_detector := iban_detector st;
     clients_database := [];
     clients_by_bank := [];
     upload_stats := upload_stats st |}.

(** What a loader returns, or the [ValueError] it raises. *)
Inductive loaded :=
| Loaded (count : nat)
| ValueError (message : str).

(** The remainder of [re.match(r'(.+?)\s*\((\d{5})\)', s)] after group 1:
    white space, ["("], five digits (group 2), [")"]. *)
Definition ville_tail (s : str) : option str :=
  match dropwhile is_space s with
  | c :: r =>
      let g := firstn 5 r in
      if N.eqb c "("%char && (length g =? 5) && forallb is_digit g
         && startswith (skipn 5 r) ")"
      then Some g else None
  | [] => None
  end.

(** Group 1 is lazy: the shortest non-empty prefix without a line feed
    after which the remainder matches. *)
Fixpoint ville_match_from (group1 rest : str) : option (str * str) :=
  match ville_tail rest with
  | Some group2 => Some (group1, group2)
  | None =>
      match rest with
      | c :: rest' =>
          if N.eqb c line_feed then None
          else ville_match_from (group1 ++ [c]) rest'
      | [] => None
      end
  end.

(** [re.match(r'(.+?)\s*\((\d{5})\)', ville_code)]: groups 1 and 2. *)
Definition ville_match (ville_code : str) : option (str * str) :=
  match ville_code with
  | c :: rest =>
      if N.eqb c line_feed then None else ville_match_from [c] rest
  | [] => None
  end.

(** The split of [nom_complet] into [nom] and [prenom]. *)
Definition split_name (nom_complet : str) : str * str :=
  match split1 " " nom_complet with
  | [a; b] => (a, b)
  | _ => (nom_complet, [])
  end.

(** The split of [ville_code] into [ville] and [code_postal]. *)
Definition split_ville (ville_code : str) : str * str :=
  match ville_match ville_code with
  | Some (group1, group2) => (strip group1, group2)
  | None => (ville_code, [])
  end.

(** The body of the loop of [load_clients_from_pipe_file] up to the
    record: [None] for a line that is skipped. *)
Definition parse_pipe_line (det : IBANDetector) (now : str) (line : str)
  : option (ClientRecord * bool) :=
  if negb (truthy (strip line)) then None
  else
    let parts := split "|" line in
    if length parts <? 7 then None
    else
      let telephone_raw := part 0 parts in
      let nom_complet := part 1 parts in
      let date_naissance := part 2 parts in
      let email := part 3 parts in
      let adresse := part 4 parts in
      let ville_code := part 5 parts in
      let iban := part 6 parts in
      let swift := part 7 parts in
      match normalize_phone telephone_raw with
      | None => None
      | Some telephone =>
          if negb (truthy telephone) then None
          else
            let '(nom, prenom) := split_name nom_complet in
            let '(ville, code_postal) := split_ville ville_code in
            let '(banque, bank_code, precise) := detect_row_bank det iban in
            Some (client_data nom prenom email telephone adresse ville
                    code_postal banque bank_code swift iban date_naissance
                    now,
                  precise)
      end.

(** The lines of the file, each taken through the loop body. *)
Definition pipe_rows (det : IBANDetector) (now : str) (file_content : str)
  : list (option (ClientRecord * bool)) :=
  let lines := split line_feed (strip file_content) in
  map (parse_pipe_line det now) lines.

(** [load_clients_from_pipe_file]; no statement of its [try] blocks
    raises on a string, so it always returns. *)
Definition load_clients_from_pipe_file (now : str) (file_content : str)
  (st : State) : State * loaded :=
  let st := reset_clients st in
  let ld := load_rows (pipe_rows (iban_detector st) now file_content) in
  (finish_loading now st ld, Loaded (loaded_count ld)).

(** A spreadsheet cell as [values_only=True] yields it: [None], or a value,
    kept as its [str()]. *)
Definition cell := option str.

(** What [openpyxl.load_workbook(file_stream, data_only=True)] makes of
    the uploaded bytes: it raises, or gives a workbook, of which the
    rows of the active sheet are kept. *)
Inductive file_stream :=
| Corrupt (error : str)
| Workbook (rows : list (list cell)).

(** The chain of tests on a lower-cased header cell. *)
Definition header_key (header_lower : str) : option str :=
  let has k := contains k header_lower in
  if has "tel" || has "phone" then Some ("telephone" : str)
  else if has "nom" && negb (has "prenom") then Some ("nom" : str)
  else if has "prenom" || has "prénom" then Some ("prenom" : str)
  else if has "naissance" || has "birth" then Some ("date_naissance" : str)
  else if has "email" || has "mail" then Some ("email" : str)
  else if has "adresse" || has "address" then Some ("adresse" : str)
  else if has "ville" || has "city" then Some ("ville" : str)
  else if has "code" && has "postal" then Some ("code_postal" : str)
  else if has "iban" then Some ("iban" : str)
  else if has "swift" || has "bic" then Some ("swift" : str)
  else None.

(** The loop over [enumerate(first_row)]. *)
Fixpoint detect_columns (idx : nat) (first_row : list cell)
  (col_mapping : dict nat) : dict nat :=
  match first_row with
  | [] => col_mapping
  | header :: rest =>
      let col_mapping :=
        match header with
        | Some h =>
            if truthy h then
              match header_key (strip (lower h)) with
              | Some key => dict_set key idx col_mapping
              | None => col_mapping
              end
            else col_mapping
        | None => col_mapping
        end in
      detect_columns (S idx) rest col_mapping
  end.

(** The local function [get_cell] with its default [''] *)
Definition get_cell (col_mapping : dict nat) (row : list cell) (key : str)
  : str :=
  match dict_get key col_mapping with
  | Some idx =>
      if idx <? length row then
        match nth idx row None with
        | Some value => strip value
        | None => []
        end
      else []
  | None => []
  end.

Definition empty_cell (c : cell) : bool :=
  match c with
  | None => true
  | Some v => str_eqb (strip v) ""
  end.

(** The body of the loop over the data rows of
    [load_clients_from_excel]: [None] for a row that is skipped. *)
Definition parse_excel_row (det : IBANDetector) (now : str)
  (col_mapping : dict nat) (row : list cell)
  : option (ClientRecord * bool) :=
  if forallb empty_cell row then None
  else
    let telephone_raw := get_cell col_mapping row "telephone" in
    let nom := get_cell col_mapping row "nom" in
    let prenom := get_cell col_mapping row "prenom" in
    let date_naissance := get_cell col_mapping row "date_naissance" in
    let email := get_cell col_mapping row "email" in
    let adresse := get_cell col_mapping row "adresse" in
    let ville := get_cell col_mapping row "ville" in
    let code_postal := get_cell col_mapping row "code_postal" in
    let iban := get_cell col_mapping row "iban" in
    let swift := get_cell col_mapping row "swift" in
    match normalize_phone telephone_raw with
    | None => None
    | Some telephone =>
        if negb (truthy telephone) then None
        else
          let '(nom, prenom) :=
            if negb (truthy prenom) && contains " " nom then
              match split1 " " nom with
              | a :: b :: _ => (a, b)
              | a :: [] => (a, [])
              | [] => (nom, prenom)
              end
            else (nom, prenom) in
          let '(banque, bank_code, precise) := detect_row_bank det iban in
          Some (client_data nom prenom email telephone adresse ville
                  code_postal banque bank_code swift iban date_naissance now,
                precise)
    end.

(** The data rows of the sheet, each taken through the loop body. *)
Definition excel_rows (det : IBANDetector) (now : str)
  (first_row : list cell) (data_rows : list (list cell))
  : list (option (ClientRecord * bool)) :=
  let col_mapping := detect_columns 0 first_row [] in
  map (parse_excel_row det now col_mapping) data_rows.

(** [load_clients_from_excel]: the globals are reset first; if the
    workbook cannot be opened, or has no first row, the exception is
    turned into a [ValueError]. *)
Definition load_clients_from_excel (now : str) (file : file_stream)
  (st : State) : State * loaded :=
  let st := reset_clients st in
  match file with
  | Corrupt error => (st, ValueError ("Erreur lecture Excel: " ++ error))
  | Workbook [] =>
      (st, ValueError "Erreur lecture Excel: list index out of range")
  | Workbook (first_row :: data_rows) =>
      let ld :=
        load_rows (excel_rows (iban_detector st) now first_row data_rows) in
      (finish_loading now st ld, Loaded (loaded_count ld))
  end.

(** An ingestion: the text of a delimited file, or a spreadsheet. *)
Inductive ingestion :=
| FromText (file_content : str)
| FromExcel (file : file_stream).

Definition ingest (now : str) (input : ingestion) (st : State)
  : State * loaded :=
  match input with
  | FromText file_content => load_clients_from_pipe_file now file_content st
  | FromExcel file => load_clients_from_excel now file st
  end.

(** The rows an ingestion goes through. *)
Definition ingestion_rows (det : IBANDetector) (now : str) (input : ingestion)
  : list (option (ClientRecord * bool)) :=
  match input with
  | FromText file_content => pipe_rows det now file_content
  | FromExcel (Workbook (first_row :: data_rows)) =>
      excel_rows det now first_row data_rows
  | FromExcel _ => []
  end.

(** ** The text export *)

(** The parts of a line of the ['txt'] export. *)
Definition export_parts (client : ClientRecord) : list str :=
  [ telephone client;
    nom client ++ " " ++ prenom client;
    date_naissance client;
    email client;
    adresse client;
    ville client ++ " (" ++ code_postal client ++ ")";
    iban client;
    swift client ].

(** One line of the ['txt'] export. *)
Definition export_line (client : ClientRecord) : str :=
  join "|" (export_parts client).

(** The content produced by [generate_all_clients_file('txt')]; the file
    name, which carries the time, and the MIME type are left out. *)
Definition generate_all_clients_file (st : State) : str :=
  join [line_feed] (map export_line (dict_values (clients_database st))).

(** ** The routes that change the state *)

(** What [file.read().decode('utf-8-sig')] makes of the uploaded bytes. *)
Inductive decoding :=
| Undecodable (error : str)
| Text (content : str).

(** The uploaded file: its name after [secure_filename], its extension,
    and what the decoder and [openpyxl] make of its bytes. *)
Record uploaded_file := {
  file_name : str;
  file_ext : str;
  decoded : decoding;
  opened : file_stream
}.

Inductive response :=
| Success (clients banks_detected banks_grouped : nat)
| Failure (status : nat) (error : str).

Definition set_filename (name : str) (st : State) : State :=
  {| iban_detector := iban_detector st;
     clients_database := clients_database st;
     clients_by_bank := clients_by_bank st;
     upload_stats :=
       {| total_clients := total_clients (upload_stats st);
          last_upload := last_upload (upload_stats st);
          filename := Some name;
          banks_detected := banks_detected (upload_stats st) |} |}.

Definition upload_success (name : str) (nb : nat) (st : State)
  : State * response :=
  let st := set_filename name st in
  (st, Success nb (banks_detected (upload_stats st))
               (dict_len (clients_by_bank st))).

(** [upload_file], from the test on the extension on. *)
Definition upload_file (now : str) (file : uploaded_file) (st : State)
  : State * response :=
  let ext := file_ext file in
  if negb (str_eqb ext "txt" || str_eqb ext "xls" || str_eqb ext "xlsx")
  then (st, Failure 400 "Format non supporté. Utilisez .txt, .xls ou .xlsx")
  else if str_eqb ext "xls" || str_eqb ext "xlsx" then
    match load_clients_from_excel now (opened file) st with
    | (st, Loaded nb) => upload_success (file_name file) nb st
    | (st, ValueError message) => (st, Failure 500 message)
    end
  else
    match decoded file with
    | Undecodable error => (st, Failure 500 error)
    | Text content =>
        match load_clients_from_pipe_file now content st with
        | (st, Loaded nb) => upload_success (file_name file) nb st
        | (st, ValueError message) => (st, Failure 500 message)
        end
    end.

(** [clear_database]: the new state and the count it reports. *)
Definition clear_database (st : State) : State * nat :=
  ({| iban_detector := iban_detector st;
      clients_database := [];
      clients_by_bank := [];
      upload_stats := empty_stats |},
   dict_len (clients_database st)).

(** The requests that reach the store: an upload, a lookup (telephony
    webhook, [/numero] command, [/search]), [/clear], and the read-only
    ones ([/iban], the downloads and the statistics). *)
Inductive request :=
| ReqUpload (now : str) (file : uploaded_file)
| ReqLookup (now : str) (phone_number : str)
| ReqClear
| ReqReadOnly.

Definition handle (st : State) (r : request) : State :=
  match r with
  | ReqUpload now file => fst (upload_file now file st)
  | ReqLookup now phone_number => fst (get_client_info now phone_number st)
  | ReqClear => fst (clear_database st)
  | ReqReadOnly => st
  end.

Definition run (requests : list request) (st : State) : State :=
  fold_left handle requests st.

(** ** Records that the text format can carry *)

(** A string that [strip] leaves as it is: empty, or with no white space
    at either end. *)
Definition head_ok (s : str) : bool :=
  match s with
  | [] => true
  | c :: _ => negb (is_space c)
  end.

Definition stripped (s : str) : Prop :=
  head_ok s = true /\ head_ok (rev s) = true.

(** The fields written on a line of the text export, the phone apart. *)
Definition exported_fields (c : ClientRecord) : list str :=
  [ nom c; prenom c; date_naissance c; email c; adresse c; ville c;
    code_postal c; iban c; swift c ].

(** A record as the text loader builds it: its phone is canonical, its
    names are the split of a stripped full name, its identifier and its
    routing code are stripped, and no field holds the delimiter or a line
    feed. *)
Record text_shaped (c : ClientRecord) : Prop := {
  ts_phone : normalize_phone (telephone c) = Some (telephone c);
  ts_name : split_name (strip (nom c ++ " " ++ prenom c)) = (nom c, prenom c);
  ts_iban : strip (iban c) = iban c;
  ts_swift : strip (swift c) = swift c;
  ts_fields :
    forall f, In f (exported_fields c) ->
              ~ In "|"%char f /\ ~ In line_feed f
}.

(** A store whose records are all of that kind, each under its phone. *)
Definition text_store (db : dict ClientRecord) : Prop :=
  NoDup (dict_keys db) /\
  forall k c, In (k, c) db -> k = telephone c /\ text_shaped c.

(** What the re-ingestion of the text export gives back of a record: the
    phone, the names and the identifier; the status and the call metrics
    are those of a fresh record. *)
Definition reconstructed (c c' : ClientRecord) : Prop :=
  telephone c' = telephone c /\ nom c' = nom c /\ prenom c' = prenom c /\
  iban c' = iban c /\
  statut c' = Prospect /\ nb_appels c' = 0 /\ dernier_appel c' = None.

(** A sequence of lookups, each with the time it is made at. *)
Definition lookups (calls : list (str * str)) (st : State) : State :=
  fold_left (fun st call => fst (get_client_info (fst call) (snd call) st))
            calls st.

(** ** Further routes and exports *)

(** [search_client]: the record and the [found] flag of the answer. *)
Definition search_client (now phone : str) (st : State)
  : State * (ClientRecord * bool) :=
  let '(st', client) := get_client_info now phone st in
  (st', (client, negb (str_eqb (statut client) Non_reference))).

(** What a generator gives: [None], a [KeyError] raised by
    [clients_database[phone]], or the content, the file name and the MIME
    type. *)
Inductive generated :=
| NoFile
| KeyError (key : str)
| File (content filename mimetype : str).

(** The loop over [client_phones] of the ['txt'] branch of
    [generate_bank_file]: the lines, or the first phone that is not a key
    of [clients_database]. *)
Fixpoint bank_lines (db : dict ClientRecord) (client_phones : list str)
  : str + list str :=
  match client_phones with
  | [] => inr []
  | phone :: rest =>
      match dict_get phone db with
      | None => inl phone
      | Some client =>
          match bank_lines db rest with
          | inl key => inl key
          | inr lines => inr (export_line client :: lines)
          end
      end
  end.

(** [s.replace(' ', '_')] *)
Definition underscore_spaces (s : str) : str :=
  map (fun c => if N.eqb c " "%char then "_"%char else c) s.

(** [generate_bank_file(bank_code, 'txt')] *)
Definition generate_bank_file (bank_code : str) (st : State) : generated :=
  if negb (dict_mem bank_code (clients_by_bank st)) then NoFile
  else
    let bank_name :=
      match dict_get bank_code (all_banks (iban_detector st)) with
      | Some name => name
      | None => "Banque_" ++ bank_code
      end in
    let client_phones :=
      match dict_get bank_code (clients_by_bank st) with
      | Some phones => phones
      | None => []
      end in
    match bank_lines (clients_database st) client_phones with
    | inl key => KeyError key
    | inr lines =>
        File (join [line_feed] lines)
             ("clients_" ++ underscore_spaces bank_name ++ "_" ++ bank_code
                ++ ".txt")
             "text/plain"
    end.

(** An entry of the list [bank_stats] of [home] and [banks_list]. *)
Record bank_stat := {
  stat_code : str;
  stat_name : str;
  stat_count : nat;
  stat_download_txt : str;
  stat_download_csv : str
}.

Definition bank_stat_of (det : IBANDetector) (item : str * list str)
  : bank_stat :=
  let '(bank_code, phones) := item in
  {| stat_code := bank_code;
     stat_name :=
       match dict_get bank_code (all_banks det) with
       | Some name => name
       | None => "Banque " ++ bank_code
       end;
     stat_count := length phones;
     stat_download_txt := "/download/bank/" ++ bank_code ++ "/txt";
     stat_download_csv := "/download/bank/" ++ bank_code ++ "/csv" |}.

(** [bank_stats.sort(key=lambda x: x['count'], reverse=True)]: the sort is
    stable, also when reversed, so an entry goes before the entries of the
    same count that follow it in the list. *)
Fixpoint insert_by_count (x : bank_stat) (sorted : list bank_stat)
  : list bank_stat :=
  match sorted with
  | [] => [x]
  | y :: rest =>
      if stat_count y <=? stat_count x then x :: sorted
      else y :: insert_by_count x rest
  end.

Definition sort_by_count (l : list bank_stat) : list bank_stat :=
  fold_right insert_by_count [] l.

(** The order of the sorted list: counts do not increase. *)
Definition by_count (a b : bank_stat) : Prop := stat_count b <= stat_count a.

(** The list [bank_stats] that [home] and [banks_list] build. *)
Definition bank_stats (st : State) : list bank_stat :=
  sort_by_count (map (bank_stat_of (iban_detector st)) (clients_by_bank st)).

(** The text after the last [sep], if [sep] occurs:
    [s.rsplit(sep, 1)[1]]. *)
Fixpoint after_last (sep : char) (s : str) : option str :=
  match s with
  | [] => None
  | c :: s' =>
      match after_last sep s' with
      | Some r => Some r
      | None => if N.eqb c sep then Some s' else None
      end
  end.

(** [filename.rsplit('.', 1)[1].lower() if '.' in filename else ''] *)
Definition extension (filename : str) : str :=
  if contains "." filename then
    match after_last "."%char filename with
    | Some e => lower e
    | None => []
    end
  else [].

(** The file [upload_file] works on, from the name [secure_filename]
    gives and what the decoder and [openpyxl] make of the bytes. *)
Definition received_file (filename : str) (text : decoding)
  (workbook : file_stream) : uploaded_file :=
  {| file_name := filename; file_ext := extension filename;
     decoded := text; opened := workbook |}.

(** ** The statistics route *)

(** [d[k] = d.get(k, 0) + 1] *)
Definition count_key (d : dict nat) (k : str) : dict nat :=
  dict_set k (match dict_get k d with Some n => n | None => 0 end + 1) d.

(** The counting loops of [stats], over the values of one field. *)
Definition tally (keys : list str) : dict nat := fold_left count_key keys [].

Definition banks_count (st : State) : dict nat :=
  tally (map banque (dict_values (clients_database st))).

Definition cities_count (st : State) : dict nat :=
  tally (map ville (dict_values (clients_database st))).

(** [sorted(d.items(), key=lambda x: x[1], reverse=True)[:10]], with the
    same stable sort as [bank_stats]. *)
Fixpoint insert_item (x : str * nat) (sorted : list (str * nat))
  : list (str * nat) :=
  match sorted with
  | [] => [x]
  | y :: rest =>
      if snd y <=? snd x then x :: sorted else y :: insert_item x rest
  end.

Definition top10 (d : dict nat) : list (str * nat) :=
  firstn 10 (fold_right insert_item [] d).

Definition item_order (a b : str * nat) : Prop := snd b <= snd a.

(** The number of keys equal to [k]. *)
Definition occurrences (k : str) (keys : list str) : nat :=
  length (filter (str_eqb k) keys).

(** ** Invariants of the store *)

(** A record as both loaders build it: its phone is canonical, it is a
    prospect, and its prefix is the one of its identifier. *)
Definition loaded_record (c : ClientRecord) : Prop :=
  normalize_phone (telephone c) = Some (telephone c) /\
  statut c = Prospect /\
  bank_code c = extract_bank_code (iban c).

(** The store and its index agree. *)
Definition consistent (st : State) : Prop :=
  NoDup (dict_keys (clients_database st)) /\
  NoDup (dict_keys (clients_by_bank st)) /\
  (forall k c,
     In (k, c) (clients_database st) ->
     k = telephone c /\ loaded_record c /\
     exists phones,
       dict_get (bank_code c) (clients_by_bank st) = Some phones /\
       In k phones) /\
  (forall b phones,
     In (b, phones) (clients_by_bank st) ->
     phones <> [] /\ (b = unknown \/ length b = 5) /\
     forall p, In p phones -> dict_mem p (clients_database st) = true).

(** The calls of a sequence whose phone normalises to [p]. *)
Definition calls_to (p : str) (calls : list (str * str)) : list (str * str) :=
  filter (fun call =>
            match normalize_phone (snd call) with
            | Some n => str_eqb n p
            | None => false
            end) calls.

(** ** Sample inputs *)

(** The example line of the upload page, with the identifier of
    Scenario A. *)
Definition sample_line : str :=
  "0669290606|Islam Soussi|01/09/1976|a@b.com|2 Avenue|Paris (75001)|FR7630003000000000000000000|AGRIFRPP839".

(** The state after that line was uploaded. *)
Definition sample_state : State :=
  fst (load_clients_from_pipe_file "04/11/2026 10:00:00" sample_line
         initial_state).

(** Two lines that carry the same phone, written in two ways. *)
Definition duplicate_lines : str :=
  "0669290606|Islam Soussi|01/09/1976|a@b.com|2 Avenue|Paris (75001)||" ++
  [line_feed] ++
  "+33 6 69 29 06 06|Anne Martin|02/03/1980|c@d.com|3 Rue|Lyon (69001)||".

(** A sheet whose last-name cell holds a space while the first name has
    a column of its own. *)
Definition sample_sheet : file_stream :=
  Workbook
    [ [Some ("Telephone" : str); Some ("Nom" : str); Some ("Prenom" : str)];
      [Some ("0669290606" : str); Some ("De La Fontaine" : str);
       Some ("Jean" : str)] ].

(** The call metrics apart, two records agree. *)
Definition same_but_calls (c c' : ClientRecord) : Prop :=
  nom c' = nom c /\ prenom c' = prenom c /\ email c' = email c /\
  entreprise c' = entreprise c /\ telephone c' = telephone c /\
  adresse c' = adresse c /\ ville c' = ville c /\
  code_postal c' = code_postal c /\ banque c' = banque c /\
  bank_code c' = bank_code c /\ swift c' = swift c /\ iban c' = iban c /\
  sexe c' = sexe c /\ date_naissance c' = date_naissance c /\
  lieu_naissance c' = lieu_naissance c /\ profession c' = profession c /\
  statut c' = statut c /\ date_upload c' = date_upload c /\
  notes c' = notes c.

End Embedding.

(* ================================================================== *)
(** * Part II: properties                                              *)
(* ================================================================== *)

Section Properties.
Context {U : Unicode}.

(** ** Strings *)

Lemma str_eqb_eq (a b : str) : str_eqb a b = true <-> a = b.
Proof.
  revert b; induction a as [|c a IH]; intros [|d b]; simpl;
    try (split; [discriminate | discriminate]); try tauto.
  rewrite andb_true_iff, N.eqb_eq, IH.
  split; [intros [-> ->]; reflexivity | intros [= -> ->]; auto].
Qed.

Lemma str_eqb_refl (a : str) : str_eqb a a = true.
Proof. apply str_eqb_eq; reflexivity. Qed.

Lemma str_eqb_neq (a b : str) : str_eqb a b = false <-> a <> b.
Proof.
  rewrite <- str_eqb_eq. destruct (str_eqb a b); split; congruence.
Qed.

Lemma startswith_app (p s : str) : startswith (p ++ s) p = true.
Proof.
  induction p as [|c p IH]; simpl; [reflexivity|].
  now rewrite N.eqb_refl.
Qed.

Lemma startswith_split (s p : str) :
  startswith s p = true -> s = p ++ skipn (length p) s.
Proof.
  revert s; induction p as [|c p IH]; intros s H; simpl in *; [reflexivity|].
  destruct s as [|d s]; [discriminate|].
  apply andb_true_iff in H as [Hc Hp]. apply N.eqb_eq in Hc; subst d.
  simpl. f_equal. now apply IH.
Qed.

Lemma filter_id {A} (f : A -> bool) (l : list A) :
  forallb f l = true -> filter f l = l.
Proof.
  induction l as [|a l IH]; simpl; [reflexivity|].
  intros H; apply andb_true_iff in H as [-> Hl]. now rewrite IH.
Qed.

Lemma forallb_filter {A} (f : A -> bool) (l : list A) :
  forallb f (filter f l) = true.
Proof.
  induction l as [|a l IH]; simpl; [reflexivity|].
  destruct (f a) eqn:E; simpl; [now rewrite E|assumption].
Qed.

Lemma forallb_filter_keep {A} (f g : A -> bool) (l : list A) :
  forallb f l = true -> forallb f (filter g l) = true.
Proof.
  rewrite !forallb_forall. intros H x I. apply filter_In in I as [I _].
  now apply H.
Qed.

(** ** Character classes *)

(** The class of an ASCII literal is computed from the laws. *)
Ltac ascii_class :=
  rewrite ?is_digit_ascii, ?is_space_ascii by reflexivity; try reflexivity.

Lemma digit_or_plus_line_feed : digit_or_plus line_feed = false.
Proof. unfold digit_or_plus. now ascii_class. Qed.

Lemma is_space_space : is_space " "%char = true.
Proof. now ascii_class. Qed.

(** ** Upper case *)

Lemma upper_In (s : str) (d : char) :
  In d (upper s) <-> exists c, In c s /\ In d (upper_of c).
Proof. unfold upper. apply in_flat_map. Qed.

(** A string of characters that upper-casing leaves alone is left
    alone. *)
Lemma upper_fixed (t : str) :
  (forall d, In d t -> upper_of d = [d]) -> upper t = t.
Proof.
  unfold upper. induction t as [|d t IH]; intros H; [reflexivity|].
  cbn [flat_map]. rewrite (H d) by now left. cbn [app]. f_equal.
  apply IH. intros x I. apply H. now right.
Qed.

Lemma upper_idem (s : str) : upper (upper s) = upper s.
Proof.
  apply upper_fixed. intros d I. apply upper_In in I as (c & _ & I).
  now apply (upper_of_fixed c).
Qed.

(** On ASCII text, upper-casing is character by character. *)
Lemma upper_ascii (s : str) :
  forallb is_ascii s = true -> upper s = map ascii_upper s.
Proof.
  unfold upper. induction s as [|c s IH]; [reflexivity|].
  cbn [forallb flat_map map]. intros [A F]%andb_true_iff.
  now rewrite (upper_of_ascii c A), (IH F).
Qed.

(** ** Phone normalisation *)

Lemma keep_digits_plus_clean (s : str) :
  forallb digit_or_plus (keep_digits_plus s) = true.
Proof. apply forallb_filter. Qed.

Lemma digits_digit_or_plus (d : str) :
  forallb is_digit d = true -> forallb digit_or_plus d = true.
Proof.
  intros H. rewrite forallb_forall in *. intros c Hc.
  unfold digit_or_plus. now rewrite (H c Hc).
Qed.

Lemma keep_digits_plus_digits (d : str) :
  forallb is_digit d = true -> keep_digits_plus d = d.
Proof. intros H. apply filter_id. now apply digits_digit_or_plus. Qed.

(** On a cleaned string, a pattern matches exactly when the string is the
    literal followed by nine digits: the line feed that [$] tolerates
    cannot occur. *)
Lemma re_match_d9_clean (lit c g : str) :
  forallb digit_or_plus c = true ->
  re_match_d9 lit c = Some g -> digits9 g /\ c = lit ++ g.
Proof.
  unfold re_match_d9. intros Hc.
  destruct (startswith c lit) eqn:Hs; [|discriminate].
  apply startswith_split in Hs.
  set (rest := skipn (length lit) c) in *.
  destruct (_ && _) eqn:E; [|discriminate].
  intros [= <-].
  apply andb_true_iff in E as [E Ht]. apply andb_true_iff in E as [El Ed].
  apply Nat.eqb_eq in El.
  split; [split; assumption|].
  rewrite Hs. f_equal.
  rewrite <- (firstn_skipn 9 rest) at 1.
  apply orb_true_iff in Ht as [Ht|Ht]; apply str_eqb_eq in Ht.
  - rewrite Ht. apply app_nil_r.
  - exfalso.
    rewrite Hs, <- (firstn_skipn 9 rest), Ht in Hc.
    rewrite !forallb_app in Hc.
    apply andb_true_iff in Hc as [_ Hc]. apply andb_true_iff in Hc as [_ Hc].
    cbn [forallb] in Hc. rewrite digit_or_plus_line_feed in Hc.
    discriminate Hc.
Qed.

Lemma re_match_d9_app (lit d : str) :
  digits9 d -> re_match_d9 lit (lit ++ d) = Some d.
Proof.
  intros [Hl Hd]. unfold re_match_d9.
  rewrite startswith_app.
  rewrite skipn_app, skipn_all, Nat.sub_diag.
  change (skipn 0 d) with d. rewrite app_nil_l.
  rewrite firstn_all2 by lia. rewrite skipn_all2 by lia.
  now rewrite Hl, Hd.
Qed.

Lemma re_match_d9_length (lit c g : str) :
  forallb digit_or_plus c = true ->
  re_match_d9 lit c = Some g -> length c = length lit + 9.
Proof.
  intros Hc H. destruct (re_match_d9_clean _ _ _ Hc H) as [[Hl _] ->].
  rewrite length_app. lia.
Qed.

Lemma re_match_d9_None (lit c : str) :
  forallb digit_or_plus c = true ->
  length c <> length lit + 9 -> re_match_d9 lit c = None.
Proof.
  intros Hc Hl. destruct (re_match_d9 lit c) eqn:E; [|reflexivity].
  exfalso. apply Hl. eapply re_match_d9_length; eauto.
Qed.

Lemma shape_clean (c d : str) :
  shape c d -> forallb digit_or_plus c = true.
Proof.
  intros H; destruct H as [d [_ H]|d [_ H]|d [_ H]|d [_ H]|d [_ H]];
    apply digits_digit_or_plus in H; cbn [app forallb]; rewrite H;
    trivial; unfold digit_or_plus; now ascii_class.
Qed.

Lemma first_pattern_miss lit t ps (c : str) :
  re_match_d9 lit c = None ->
  first_pattern ((lit, t) :: ps) c = first_pattern ps c.
Proof. intros H; simpl; now rewrite H. Qed.

Lemma first_pattern_hit lit ps (c d : str) :
  re_match_d9 lit c = Some d -> length d = 9 ->
  first_pattern ((lit, fun g : str => "0" ++ g) :: ps) c = Some ("0" ++ d).
Proof. intros H Hl; simpl; rewrite H; simpl; now rewrite Hl. Qed.

Lemma first_pattern_inv lit t ps (c r : str) :
  first_pattern ((lit, t) :: ps) c = Some r ->
  (exists g, re_match_d9 lit c = Some g /\ r = t g) \/
  first_pattern ps c = Some r.
Proof.
  simpl. destruct (re_match_d9 lit c) as [g|]; [|now right].
  destruct (_ && _); [|now right].
  intros [= <-]. left; now exists g.
Qed.

Lemma first_pattern_shape (c d : str) :
  shape c d -> first_pattern patterns c = Some ("0" ++ d).
Proof.
  intros H. pose proof (shape_clean _ _ H) as Hc.
  destruct H as [d Hd|d Hd|d Hd|d Hd|d Hd]; pose proof Hd as [Hl _];
    unfold patterns;
    repeat (rewrite first_pattern_miss
              by (apply (re_match_d9_None _ _ Hc);
                  rewrite ?length_app; simpl; lia));
    apply first_pattern_hit; trivial;
    first [ exact (re_match_d9_app _ d Hd)
          | exact (re_match_d9_app "" d Hd) ].
Qed.

Lemma first_pattern_Some (c r : str) :
  forallb digit_or_plus c = true ->
  first_pattern patterns c = Some r ->
  exists d, shape c d /\ r = "0" ++ d.
Proof.
  intros Hc H. unfold patterns in H.
  repeat (apply first_pattern_inv in H as [(g & E & ->)|H];
          [ destruct (re_match_d9_clean _ _ _ Hc E) as [Hd ->];
            exists g; split; [now constructor | reflexivity] | ]).
  discriminate H.
Qed.

(** [normalize_phone] accepts exactly the strings whose cleaned form has
    one of the five shapes. *)
Lemma normalize_phone_Some (s r : str) :
  normalize_phone s = Some r <->
  exists d, shape (keep_digits_plus s) d /\ r = "0" ++ d.
Proof.
  unfold normalize_phone. split.
  - destruct (negb (truthy s)); [discriminate|].
    apply first_pattern_Some, keep_digits_plus_clean.
  - intros (d & H & ->).
    destruct s as [|a s]; simpl negb.
    + exfalso. inversion H as [? [Hl _] E|? [Hl _] E|? [Hl _] E|? [Hl _] E|? [Hl _] E];
        try discriminate E. subst d. discriminate Hl.
    + now apply first_pattern_shape.
Qed.

Lemma shape_0_digits (d : str) : digits9 d -> shape (keep_digits_plus ("0" ++ d)) d.
Proof.
  intros Hd. rewrite keep_digits_plus_digits.
  - now constructor.
  - destruct Hd as [_ Hd]. cbn [app forallb]. rewrite Hd. now ascii_class.
Qed.

Lemma shape_digits9 (c d : str) : shape c d -> digits9 d.
Proof. now destruct 1. Qed.

Lemma shape_unique (c d d' : str) : shape c d -> shape c d' -> d = d'.
Proof.
  intros H H'. apply first_pattern_shape in H, H'.
  rewrite H in H'. now injection H'.
Qed.

(** Every ['+'] of the input is kept by the cleaning step. *)
Lemma keep_digits_plus_count (s : str) :
  count_occ N.eq_dec (keep_digits_plus s) "+"%char
  = count_occ N.eq_dec s "+"%char.
Proof.
  unfold keep_digits_plus. induction s as [|c s IH]; [reflexivity|].
  cbn [filter]. unfold digit_or_plus at 1.
  destruct (N.eqb_spec c "+"%char) as [->|Ne].
  - rewrite orb_true_r. cbn [count_occ].
    destruct (N.eq_dec "+"%char "+"%char); [|congruence]. now rewrite IH.
  - rewrite orb_false_r. rewrite (count_occ_cons_neq _ s Ne).
    destruct (is_digit c); [|exact IH].
    now rewrite (count_occ_cons_neq _ _ Ne).
Qed.

Lemma digits_no_plus (d : str) :
  forallb is_digit d = true -> ~ In "+"%char d.
Proof.
  intros D I. rewrite forallb_forall in D. specialize (D _ I).
  rewrite is_digit_ascii in D by reflexivity. discriminate D.
Qed.

(** A cleaned string that holds a ['+'] and has one of the five shapes
    has the second. *)
Lemma shape_plus (c d : str) :
  shape c d -> In "+"%char c -> c = "+33" ++ d.
Proof.
  intros H I.
  destruct H as [d [_ D]|d [_ D]|d [_ D]|d [_ D]|d [_ D]]; [| reflexivity | | |];
    exfalso; apply (digits_no_plus d D); cbn [app In] in I;
    repeat (destruct I as [I|I]; [discriminate I|]); exact I.
Qed.

(** C6 (amended): for every input string, [normalize_phone] removes every
    character except digits and ['+'] (every ['+'] is kept, wherever it
    occurs; a digit is a character of the class [\d], that is any Unicode
    decimal digit), then matches the cleaned string against the five
    shapes [0033<9 digits>], [+33<9 digits>], [33<9 digits>],
    [0<9 digits>] and [<9 digits>]; the shapes exclude one another, so the
    precedence order decides nothing; when one matches the result is the
    canonical 10-character string, ['0'] followed by the nine digits, when
    none matches (empty and non-numeric input included) the result is
    absent; an input that holds a ['+'] is accepted only when its cleaned
    form is [+33<9 digits>]; the function is total, it never raises. *)
Theorem C6_normalize_phone_shapes (s : str) :
  (forall r, normalize_phone s = Some r <->
             exists d, shape (keep_digits_plus s) d /\ r = "0" ++ d) /\
  (normalize_phone s = None <-> forall d, ~ shape (keep_digits_plus s) d) /\
  (forall d d', shape (keep_digits_plus s) d ->
                shape (keep_digits_plus s) d' -> d = d') /\
  (forall r, normalize_phone s = Some r ->
             length r = 10 /\ exists d, digits9 d /\ r = "0" ++ d) /\
  normalize_phone s = first_pattern patterns (keep_digits_plus s) /\
  keep_digits_plus s
    = filter (fun c => is_digit c || N.eqb c "+"%char) s /\
  count_occ N.eq_dec (keep_digits_plus s) "+"%char
    = count_occ N.eq_dec s "+"%char /\
  (forall r, normalize_phone s = Some r -> In "+"%char s ->
             exists d, digits9 d /\ keep_digits_plus s = "+33" ++ d /\
                       r = "0" ++ d).
Proof.
  split; [intros r; apply normalize_phone_Some|].
  split; [|split; [intros d d'; apply shape_unique|split; [|split]]].
  - split.
    + intros H d Hd.
      assert (normalize_phone s = Some ("0" ++ d)) as E
          by (apply normalize_phone_Some; eauto).
      congruence.
    + intros H. destruct (normalize_phone s) as [r|] eqn:E; [|reflexivity].
      apply normalize_phone_Some in E as (d & Hd & _). now apply H in Hd.
  - intros r H. apply normalize_phone_Some in H as (d & Hd & ->).
    apply shape_digits9 in Hd. pose proof Hd as [Hl _].
    split; [simpl; now rewrite Hl | eauto].
  - unfold normalize_phone. destruct s; [reflexivity|reflexivity].
  - split; [reflexivity|]. split; [apply keep_digits_plus_count|].
    intros r H I. apply normalize_phone_Some in H as (d & Hd & ->).
    exists d. split; [now apply shape_digits9 in Hd|]. split; [|reflexivity].
    apply (shape_plus _ _ Hd). apply filter_In. split; [exact I|].
    unfold digit_or_plus. apply orb_true_r.
Qed.

(** C7: for every valid domestic number ['0' + d], [d] nine digits, the
    five accepted input shapes normalise to the same canonical value
    ['0' + d]; normalising a canonical value returns it unchanged, and so
    does normalising any result of [normalize_phone]. *)
Theorem C7_shape_invariance_idempotence (d : str) (Hd : digits9 d) :
  (normalize_phone ("0033" ++ d) = Some ("0" ++ d) /\
   normalize_phone ("+33" ++ d) = Some ("0" ++ d) /\
   normalize_phone ("33" ++ d) = Some ("0" ++ d) /\
   normalize_phone ("0" ++ d) = Some ("0" ++ d) /\
   normalize_phone d = Some ("0" ++ d)) /\
  (forall s c, normalize_phone s = Some c -> normalize_phone c = Some c).
Proof.
  assert (forall lit : str, forallb is_digit lit = true \/ lit = "+33" ->
            keep_digits_plus (lit ++ d) = lit ++ d) as K.
  { intros lit Hlit. apply filter_id. rewrite forallb_app.
    destruct Hd as [_ Hd']. rewrite (digits_digit_or_plus _ Hd'), andb_true_r.
    destruct Hlit as [Hlit| ->]; [now apply digits_digit_or_plus|].
    unfold digit_or_plus. cbn [forallb]. now ascii_class. }
  assert (forall lit : str, forallb (in_range 48 57) lit = true ->
            forallb is_ascii lit = true -> forallb is_digit lit = true) as D.
  { intros lit R A. induction lit as [|c lit IH]; [reflexivity|].
    cbn [forallb] in *. apply andb_true_iff in R as [Rc R], A as [Ac A].
    now rewrite (is_digit_ascii c Ac), Rc, IH. }
  split.
  - repeat split; apply normalize_phone_Some; exists d; (split; [|reflexivity]).
    + rewrite (K "0033") by (left; now apply D). now constructor.
    + rewrite (K "+33") by now right. now constructor.
    + rewrite (K "33") by (left; now apply D). now constructor.
    + rewrite (K "0") by (left; now apply D). now constructor.
    + rewrite (K "" (or_introl eq_refl) : keep_digits_plus d = d).
      now constructor.
  - intros s c H. apply normalize_phone_Some in H as (d' & H & ->).
    apply normalize_phone_Some. exists d'. split; [|reflexivity].
    apply shape_0_digits. eapply shape_digits9; eauto.
Qed.

(** ** Dictionaries *)

Section DictFacts.
Context {V : Type}.
Implicit Types (d : dict V) (k : str) (v : V).

Lemma dict_get_set_eq k v d : dict_get k (dict_set k v d) = Some v.
Proof.
  induction d as [|[k' v'] d IH]; simpl.
  - now rewrite str_eqb_refl.
  - destruct (str_eqb k k') eqn:E; simpl; now rewrite E.
Qed.

Lemma dict_get_set_neq k k' v d :
  k <> k' -> dict_get k' (dict_set k v d) = dict_get k' d.
Proof.
  intros N. induction d as [|[k0 v0] d IH]; simpl.
  - apply not_eq_sym, str_eqb_neq in N. now rewrite N.
  - destruct (str_eqb k k0) eqn:E; simpl; [|now rewrite IH].
    apply str_eqb_eq in E; subst k0.
    apply not_eq_sym, str_eqb_neq in N. now rewrite N.
Qed.

Lemma dict_get_set k k' v d :
  dict_get k' (dict_set k v d) =
  if str_eqb k' k then Some v else dict_get k' d.
Proof.
  destruct (str_eqb k' k) eqn:E.
  - apply str_eqb_eq in E; subst. apply dict_get_set_eq.
  - apply str_eqb_neq in E. apply dict_get_set_neq. congruence.
Qed.

Lemma dict_get_Some_In k v d : dict_get k d = Some v -> In (k, v) d.
Proof.
  induction d as [|[k' v'] d IH]; simpl; [discriminate|].
  destruct (str_eqb k k') eqn:E.
  - apply str_eqb_eq in E; subst. intros [= ->]. now left.
  - intros H. right. now apply IH.
Qed.

Lemma dict_get_None k d : dict_get k d = None <-> ~ In k (dict_keys d).
Proof.
  induction d as [|[k' v'] d IH]; simpl; [tauto|].
  destruct (str_eqb k k') eqn:E.
  - apply str_eqb_eq in E; subst. split; [discriminate|]. intros H.
    exfalso; apply H; now left.
  - apply str_eqb_neq in E. rewrite IH. split.
    + intros H [H'|H']; [congruence|tauto].
    + tauto.
Qed.

Lemma dict_mem_keys k d : dict_mem k d = true <-> In k (dict_keys d).
Proof.
  unfold dict_mem. destruct (dict_get k d) eqn:E.
  - split; [intros _|reflexivity].
    apply dict_get_Some_In in E. now apply (in_map fst) in E.
  - split; [discriminate|]. intros H. now apply dict_get_None in E.
Qed.

Lemma dict_In_get k v d : NoDup (dict_keys d) -> In (k, v) d -> dict_get k d = Some v.
Proof.
  induction d as [|[k' v'] d IH]; simpl; [tauto|].
  intros N [H|H].
  - injection H as -> ->. now rewrite str_eqb_refl.
  - inversion N as [|? ? N1 N2]; subst.
    destruct (str_eqb k k') eqn:E; [|now apply IH].
    apply str_eqb_eq in E; subst. exfalso. apply N1.
    now apply (in_map fst) in H.
Qed.

Lemma dict_keys_set k v d :
  dict_keys (dict_set k v d) =
  if dict_mem k d then dict_keys d else dict_keys d ++ [k].
Proof.
  unfold dict_mem. induction d as [|[k' v'] d IH]; simpl; [reflexivity|].
  destruct (str_eqb k k') eqn:E; simpl; [reflexivity|].
  rewrite IH. now destruct (dict_get k d).
Qed.

Lemma dict_set_NoDup k v d :
  NoDup (dict_keys d) -> NoDup (dict_keys (dict_set k v d)).
Proof.
  intros N. rewrite dict_keys_set. destruct (dict_mem k d) eqn:E; [assumption|].
  assert (~ In k (dict_keys d)) as H
      by (intros H; apply dict_mem_keys in H; congruence).
  apply NoDup_rev in N. rewrite <- (rev_involutive (_ ++ _)).
  apply NoDup_rev. rewrite rev_app_distr. simpl. constructor; [|assumption].
  now rewrite <- in_rev.
Qed.

Lemma dict_len_set k v d :
  dict_len (dict_set k v d) =
  if dict_mem k d then dict_len d else S (dict_len d).
Proof.
  unfold dict_len. rewrite <- !(length_map fst).
  change (map fst (dict_set k v d)) with (dict_keys (dict_set k v d)).
  rewrite dict_keys_set. destruct (dict_mem k d); [reflexivity|].
  rewrite length_app. simpl. unfold dict_keys. lia.
Qed.

Lemma dict_update_snoc d items kv :
  dict_update d (items ++ [kv]) = dict_set (fst kv) (snd kv) (dict_update d items).
Proof. unfold dict_update. now rewrite fold_left_app. Qed.

(** After an update the value of a key is the one listed last for it,
    and the former value when it is not listed. *)
Lemma dict_get_update k d items :
  dict_get k (dict_update d items) =
  match dict_get k (rev items) with
  | Some v => Some v
  | None => dict_get k d
  end.
Proof.
  induction items as [|[k' v'] items IH] using rev_ind; [reflexivity|].
  rewrite dict_update_snoc, rev_app_distr. simpl.
  rewrite dict_get_set. now destruct (str_eqb k k').
Qed.

Lemma dict_update_NoDup d items :
  NoDup (dict_keys d) -> NoDup (dict_keys (dict_update d items)).
Proof.
  intros N. induction items as [|kv items IH] using rev_ind; [assumption|].
  rewrite dict_update_snoc. now apply dict_set_NoDup.
Qed.

Lemma dict_display_NoDup (items : list (str * V)) :
  NoDup (dict_keys (dict_display items)).
Proof. apply dict_update_NoDup. constructor. Qed.

Lemma dict_get_rev k d :
  NoDup (dict_keys d) -> dict_get k (rev d) = dict_get k d.
Proof.
  intros N.
  assert (NoDup (dict_keys (rev d))) as N'
      by (unfold dict_keys; rewrite map_rev; now apply NoDup_rev).
  destruct (dict_get k d) as [v|] eqn:E.
  - apply dict_In_get; [assumption|]. apply -> in_rev.
    now apply dict_get_Some_In.
  - destruct (dict_get k (rev d)) as [v|] eqn:E'; [|reflexivity].
    apply dict_get_Some_In in E'. apply in_rev in E'.
    apply (dict_In_get _ _ _ N) in E'. congruence.
Qed.

(** [{**d, **e}] gives [e]'s value where [e] has the key, [d]'s
    elsewhere. *)
Lemma dict_get_merge k d e :
  NoDup (dict_keys d) -> NoDup (dict_keys e) ->
  dict_get k (dict_merge d e) =
  match dict_get k e with
  | Some v => Some v
  | None => dict_get k d
  end.
Proof.
  intros Nd Ne. unfold dict_merge.
  rewrite dict_get_update, dict_get_rev by assumption.
  destruct (dict_get k e); [reflexivity|].
  rewrite dict_get_update, dict_get_rev by assumption. simpl.
  now destruct (dict_get k d).
Qed.

End DictFacts.

(** ** The routing table *)

Lemma local_banks_last_listed (k : str) :
  dict_get k (local_banks IBANDetector_init) = last_listed k local_banks_items.
Proof.
  unfold last_listed. simpl local_banks. unfold dict_display.
  rewrite dict_get_update. now destruct (dict_get k (rev local_banks_items)).
Qed.

Lemma codes_ca_last_listed (k : str) :
  dict_get k (codes_ca IBANDetector_init) = last_listed k codes_ca_items.
Proof.
  unfold last_listed. simpl codes_ca. unfold dict_display.
  rewrite dict_get_update. now destruct (dict_get k (rev codes_ca_items)).
Qed.

Lemma all_banks_get (k : str) :
  dict_get k (all_banks IBANDetector_init) =
  match dict_get k (codes_ca IBANDetector_init) with
  | Some name => Some name
  | None => dict_get k (local_banks IBANDetector_init)
  end.
Proof.
  simpl all_banks. apply dict_get_merge; apply dict_display_NoDup.
Qed.

Lemma all_banks_truthy (k name : str) :
  dict_get k (all_banks IBANDetector_init) = Some name -> truthy name = true.
Proof.
  intros H. apply dict_get_Some_In in H.
  assert (forallb (fun kv : str * str => truthy (snd kv))
            (all_banks IBANDetector_init) = true) as F
      by (vm_compute; reflexivity).
  rewrite forallb_forall in F. exact (F _ H).
Qed.

(** ** The state across requests *)

Lemma finish_loading_detector now st ld :
  iban_detector (finish_loading now st ld) = iban_detector st.
Proof. reflexivity. Qed.

Lemma load_pipe_detector now content st :
  iban_detector (fst (load_clients_from_pipe_file now content st)) =
  iban_detector st.
Proof. reflexivity. Qed.

Lemma load_excel_detector now file st :
  iban_detector (fst (load_clients_from_excel now file st)) = iban_detector st.
Proof. destruct file as [e|[|r rows]]; reflexivity. Qed.

Lemma upload_file_detector now file st :
  iban_detector (fst (upload_file now file st)) = iban_detector st.
Proof.
  unfold upload_file.
  destruct (negb _); [reflexivity|].
  destruct (_ || _).
  - pose proof (load_excel_detector now (opened file) st) as H.
    destruct (load_clients_from_excel now (opened file) st) as [st' [n|m]];
      exact H.
  - destruct (decoded file) as [e|content]; [reflexivity|].
    pose proof (load_pipe_detector now content st) as H.
    destruct (load_clients_from_pipe_file now content st) as [st' [n|m]];
      exact H.
Qed.

Lemma get_client_info_detector now phone st :
  iban_detector (fst (get_client_info now phone st)) = iban_detector st.
Proof.
  unfold get_client_info.
  destruct (negb (truthy phone)); [reflexivity|].
  destruct (normalize_phone phone) as [n|]; [|reflexivity].
  destruct (truthy n); [|reflexivity].
  destruct (dict_get n (clients_database st)); reflexivity.
Qed.

Lemma handle_detector st r : iban_detector (handle st r) = iban_detector st.
Proof.
  destruct r; simpl.
  - apply upload_file_detector.
  - apply get_client_info_detector.
  - reflexivity.
  - reflexivity.
Qed.

Lemma run_detector requests st :
  iban_detector (run requests st) = iban_detector st.
Proof.
  revert st; induction requests as [|r rs IH]; intros st; [reflexivity|].
  unfold run in *. simpl. rewrite IH. apply handle_detector.
Qed.

(** C8: the routing table is built by [IBANDetector.__init__], once, as
    the merge of the general table with the Crédit Agricole table; every
    prefix of the Crédit Agricole table, those also defined in the general
    table included, is mapped to the Crédit Agricole entry, every other
    prefix to its general entry; and whatever requests the process serves,
    the detector it holds is the one built at start-up. *)
Theorem C8_routing_table_merge :
  all_banks IBANDetector_init =
    dict_merge (local_banks IBANDetector_init) (codes_ca IBANDetector_init) /\
  (forall k regional,
     dict_get k (codes_ca IBANDetector_init) = Some regional ->
     dict_get k (all_banks IBANDetector_init) = Some regional) /\
  (forall k,
     dict_get k (codes_ca IBANDetector_init) = None ->
     dict_get k (all_banks IBANDetector_init) =
     dict_get k (local_banks IBANDetector_init)) /\
  (forall requests,
     iban_detector (run requests initial_state) = IBANDetector_init).
Proof.
  split; [reflexivity|]. split; [|split].
  - intros k v H. now rewrite all_banks_get, H.
  - intros k H. now rewrite all_banks_get, H.
  - intros requests. now rewrite run_detector.
Qed.

(** ** Classification *)

Lemma clean_iban_eq (s : str) :
  clean_iban s = upper (remove_char "-" (remove_char " " s)).
Proof. destruct s; reflexivity. Qed.

Lemma filter_filter_and {A} (f g : A -> bool) (l : list A) :
  filter g (filter f l) = filter (fun x => f x && g x) l.
Proof.
  induction l as [|a l IH]; [reflexivity|]. cbn [filter].
  destruct (f a); cbn [filter andb]; [destruct (g a)|]; now rewrite IH.
Qed.

(** The cleaned form of an identifier: what is left of it when its
    spaces and hyphens are removed, in upper case. *)
Lemma clean_iban_filter (s : str) :
  clean_iban s =
  upper (filter (fun x => negb (N.eqb x " "%char) && negb (N.eqb x "-"%char))
                s).
Proof.
  rewrite clean_iban_eq. unfold remove_char. now rewrite filter_filter_and.
Qed.

Lemma clean_iban_truthy (iban : str) :
  truthy (clean_iban iban) = true -> truthy iban = true.
Proof. destruct iban; [discriminate|reflexivity]. Qed.

Lemma startswith_FR_truthy (c : str) :
  startswith c "FR" = true -> truthy c = true.
Proof. destruct c; [discriminate|reflexivity]. Qed.

Lemma slice_4_9 (c : str) (x : char) :
  9 <= length c ->
  slice 4 9 c = [nth 4 c x; nth 5 c x; nth 6 c x; nth 7 c x; nth 8 c x].
Proof.
  intros H.
  do 9 (destruct c as [|? c]; [simpl in H; lia|]). reflexivity.
Qed.

(** On an identifier whose cleaned form starts with [FR] and has at least
    14 characters, [detect_bank] is the table lookup of the prefix. *)
Lemma detect_bank_french (det : IBANDetector) (iban : str) :
  startswith (clean_iban iban) "FR" = true ->
  14 <= length (clean_iban iban) ->
  detect_bank det iban =
  match dict_get (slice 4 9 (clean_iban iban)) (all_banks det) with
  | Some name =>
      if truthy name then name
      else Banque_francaise (slice 4 9 (clean_iban iban))
  | None => Banque_francaise (slice 4 9 (clean_iban iban))
  end.
Proof.
  intros F L. pose proof (startswith_FR_truthy _ F) as T.
  pose proof (clean_iban_truthy _ T) as T'.
  unfold detect_bank, detect_local. rewrite T, T', F. simpl negb. cbv iota.
  apply Nat.ltb_ge in L. now rewrite L.
Qed.

Lemma extract_bank_code_french (iban : str) :
  startswith (clean_iban iban) "FR" = true ->
  14 <= length (clean_iban iban) ->
  extract_bank_code iban = slice 4 9 (clean_iban iban).
Proof.
  intros F L. pose proof (startswith_FR_truthy _ F) as T.
  pose proof (clean_iban_truthy _ T) as T'.
  unfold extract_bank_code. rewrite T', F. simpl negb.
  apply Nat.ltb_ge in L. now rewrite L.
Qed.

Lemma detect_bank_init (iban name : str) :
  startswith (clean_iban iban) "FR" = true ->
  14 <= length (clean_iban iban) ->
  dict_get (slice 4 9 (clean_iban iban)) (all_banks IBANDetector_init)
    = Some name ->
  detect_bank IBANDetector_init iban = name.
Proof.
  intros F L H. rewrite (detect_bank_french _ _ F L), H.
  now rewrite (all_banks_truthy _ _ H).
Qed.

(** C10 (amended): when a prefix is written several times in one table
    display, only the last occurrence survives in that table; an [FR]
    identifier of at least 14 characters that carries a prefix of the
    general table classifies to the name written last for it there,
    unless the Crédit Agricole table defines the prefix too, in which case
    it classifies to the Crédit Agricole entry.  So [12548] classifies to
    "Boursorama", [17515] to "Qonto" and [10107] to "Banque Populaire". *)
Theorem C10_last_listed_name (iban k : str) :
  startswith (clean_iban iban) "FR" = true ->
  14 <= length (clean_iban iban) ->
  slice 4 9 (clean_iban iban) = k ->
  dict_get k (local_banks IBANDetector_init) = last_listed k local_banks_items /\
  dict_get k (codes_ca IBANDetector_init) = last_listed k codes_ca_items /\
  (forall name,
     last_listed k local_banks_items = Some name ->
     last_listed k codes_ca_items = None ->
     detect_bank IBANDetector_init iban = name) /\
  (forall name,
     last_listed k codes_ca_items = Some name ->
     detect_bank IBANDetector_init iban = name) /\
  (k = "12548" -> detect_bank IBANDetector_init iban = "Boursorama") /\
  (k = "17515" -> detect_bank IBANDetector_init iban = "Qonto") /\
  (k = "10107" -> detect_bank IBANDetector_init iban = "Banque Populaire").
Proof.
  intros F L <-.
  split; [apply local_banks_last_listed|].
  split; [apply codes_ca_last_listed|].
  assert (forall name,
            dict_get (slice 4 9 (clean_iban iban)) (all_banks IBANDetector_init)
              = Some name ->
            detect_bank IBANDetector_init iban = name) as D
      by (intros name; now apply detect_bank_init).
  split; [|split].
  - intros name Hl Hc. apply D.
    now rewrite all_banks_get, codes_ca_last_listed, Hc, local_banks_last_listed.
  - intros name Hc. apply D.
    now rewrite all_banks_get, codes_ca_last_listed, Hc.
  - repeat split; intros E; apply D; rewrite E; vm_compute; reflexivity.
Qed.

(** C5: for every raw identifier, with [c] its cleaned form (the
    identifier without its spaces and hyphens, upper-cased; lengths and
    positions count characters), the classifier gives exactly one of:
    [c] empty: "N/A" and prefix "unknown"; [c] non-empty and not starting
    with [FR]: "Banque étrangère" (the specification's "Foreign bank") and
    "unknown"; [c] starting with [FR] and shorter than 14: "IBAN invalide"
    ("Invalid account identifier") and "unknown"; otherwise the prefix is
    the five characters at positions 4 to 8 of [c], the name is the
    routing-table entry of the prefix when there is one and otherwise
    "Banque française (<prefix>)" ("French bank (<prefix>)"); in this last
    case the loaders still file the record under the prefix and do not
    count it among the banks identified. *)
Theorem C5_classification (iban : str) :
  let kept :=
    filter (fun x => negb (N.eqb x " "%char) && negb (N.eqb x "-"%char))
           iban in
  let c := clean_iban iban in
  let det := IBANDetector_init in
  c = flat_map upper_of kept /\
  (forallb is_ascii iban = true -> c = map ascii_upper kept) /\
  (c = [] ->
     detect_bank det iban = NA /\ extract_bank_code iban = unknown) /\
  (c <> [] -> startswith c "FR" = false ->
     detect_bank det iban = Banque_etrangere /\
     extract_bank_code iban = unknown) /\
  (startswith c "FR" = true -> length c < 14 ->
     detect_bank det iban = IBAN_invalide /\
     extract_bank_code iban = unknown) /\
  (startswith c "FR" = true -> 14 <= length c ->
     let prefix := slice 4 9 c in
     extract_bank_code iban = prefix /\
     prefix = [nth 4 c " "%char; nth 5 c " "%char; nth 6 c " "%char;
               nth 7 c " "%char; nth 8 c " "%char] /\
     (forall name,
        dict_get prefix (all_banks det) = Some name ->
        detect_bank det iban = name /\
        detect_row_bank det iban = ("🏦 " ++ name, prefix, true)) /\
     (dict_get prefix (all_banks det) = None ->
        detect_bank det iban = Banque_francaise prefix /\
        detect_row_bank det iban
          = ("🏦 " ++ Banque_francaise prefix, prefix, false) /\
        forall ld client,
          bank_code client = prefix ->
          dict_get prefix (ld_by_bank (store_row ld (client, false)))
            = Some (match dict_get prefix (ld_by_bank ld) with
                    | Some phones => phones ++ [telephone client]
                    | None => [telephone client]
                    end) /\
          ld_banks_detected (store_row ld (client, false))
            = ld_banks_detected ld)).
Proof.
  intros kept c det. subst det.
  split; [apply clean_iban_filter|].
  split.
  { intros A. unfold c. rewrite clean_iban_filter. apply upper_ascii.
    now apply forallb_filter_keep. }
  split; [|split; [|split]].
  - intros E. unfold detect_bank, extract_bank_code. fold c. rewrite E.
    destruct (truthy iban); split; reflexivity.
  - intros N F.
    assert (truthy c = true) as T by (destruct c; [congruence|reflexivity]).
    pose proof (clean_iban_truthy _ T) as T'.
    unfold detect_bank, extract_bank_code, detect_local. fold c.
    rewrite T, T', F. cbn [negb]. now rewrite orb_true_r.
  - intros F L.
    pose proof (startswith_FR_truthy _ F) as T.
    pose proof (clean_iban_truthy _ T) as T'.
    unfold detect_bank, extract_bank_code, detect_local. fold c.
    apply Nat.ltb_lt in L. rewrite T, T', F, L. split; reflexivity.
  - intros F L prefix.
    pose proof (startswith_FR_truthy _ F) as T.
    pose proof (clean_iban_truthy _ T) as T'.
    assert (str_eqb iban "" = false) as Ne by (destruct iban; [discriminate|reflexivity]).
    assert (detect_row_bank IBANDetector_init iban =
            match dict_get prefix (all_banks IBANDetector_init) with
            | Some name =>
                if truthy name then ("🏦 " ++ name, prefix, true)
                else ("🏦 " ++ Banque_francaise prefix, prefix, false)
            | None => ("🏦 " ++ Banque_francaise prefix, prefix, false)
            end) as R.
    { unfold detect_row_bank. cbv zeta.
      rewrite T', Ne. cbn [negb orb].
      rewrite (extract_bank_code_french _ F L). fold c. fold prefix.
      rewrite F. pose proof L as L'. apply Nat.ltb_ge in L'. rewrite L'.
      cbn [negb orb].
      destruct (dict_get prefix (all_banks IBANDetector_init)) as [name|];
        [destruct (truthy name)|]; reflexivity. }
    split; [now apply extract_bank_code_french|].
    split; [apply slice_4_9; fold c; lia|].
    split.
    + intros name H. split; [now apply detect_bank_init|].
      rewrite R. fold prefix in H. rewrite H.
      now rewrite (all_banks_truthy _ _ H).
    + intros H. split; [|split].
      * rewrite (detect_bank_french _ _ F L). fold c. fold prefix. now rewrite H.
      * rewrite R. now rewrite H.
      * intros ld client B. simpl. rewrite B. split; [|lia].
        unfold dict_append.
        destruct (dict_get prefix (ld_by_bank ld)); apply dict_get_set_eq.
Qed.

(** ** Lookup *)

Lemma normalize_phone_truthy (p n : str) :
  normalize_phone p = Some n -> truthy p = true /\ truthy n = true.
Proof.
  intros H. split.
  - destruct p; [discriminate H|reflexivity].
  - apply normalize_phone_Some in H as (d & _ & ->). reflexivity.
Qed.

Lemma get_client_info_hit now p st n stored :
  normalize_phone p = Some n ->
  dict_get n (clients_database st) = Some stored ->
  get_client_info now p st =
  (set_clients_database
     (dict_set n (record_call now stored) (clients_database st)) st,
   stored).
Proof.
  intros Hn Hs. destruct (normalize_phone_truthy _ _ Hn) as [Tp Tn].
  unfold get_client_info. now rewrite Tp, Hn, Tn, Hs.
Qed.

Lemma get_client_info_miss now p st :
  (normalize_phone p = None \/
   exists n, normalize_phone p = Some n /\
             dict_get n (clients_database st) = None) ->
  get_client_info now p st = (st, create_unknown_client p).
Proof.
  unfold get_client_info. intros [H|(n & H & Hn)]; rewrite H.
  - now destruct (negb (truthy p)).
  - rewrite Hn. destruct (negb (truthy p)), (truthy n); reflexivity.
Qed.

(** C4 (amended): for every phone string [p], [get_client_info] returns a
    record.  If [p] normalises to a key of the store, the stored record
    has its call count incremented by exactly 1 and its last-call time set
    to the current time, nothing else in the store changes, and the record
    returned is a copy of the record as it was before that update.  If [p]
    does not normalise or is absent from the store, the placeholder with
    status "Non référencé" (the specification's [NotOnFile]) is returned
    and the state is left as it was. *)
Theorem C4_get_client_info (now p : str) (st : State) :
  let st' := fst (get_client_info now p st) in
  let client := snd (get_client_info now p st) in
  (forall n stored,
     normalize_phone p = Some n ->
     dict_get n (clients_database st) = Some stored ->
     client = stored /\
     (exists updated,
        dict_get n (clients_database st') = Some updated /\
        nb_appels updated = nb_appels stored + 1 /\
        dernier_appel updated = Some now /\
        same_but_calls stored updated) /\
     (forall k, k <> n ->
        dict_get k (clients_database st') = dict_get k (clients_database st)) /\
     dict_keys (clients_database st') = dict_keys (clients_database st) /\
     clients_by_bank st' = clients_by_bank st /\
     upload_stats st' = upload_stats st) /\
  ((normalize_phone p = None \/
    exists n, normalize_phone p = Some n /\
              dict_get n (clients_database st) = None) ->
   st' = st /\
   client = create_unknown_client p /\
   statut client = Non_reference /\
   telephone client = p).
Proof.
  intros st' client. subst st' client. split.
  - intros n stored Hn Hs. rewrite (get_client_info_hit _ _ _ _ _ Hn Hs).
    simpl fst. simpl snd. cbn [clients_database set_clients_database
                                clients_by_bank upload_stats].
    split; [reflexivity|]. split; [|split; [|split; [|split]]].
    + exists (record_call now stored). rewrite dict_get_set_eq.
      repeat split.
    + intros k N. apply dict_get_set_neq. congruence.
    + rewrite dict_keys_set. unfold dict_mem. now rewrite Hs.
    + reflexivity.
    + reflexivity.
  - intros H. rewrite (get_client_info_miss _ _ _ H). repeat split.
Qed.

(** ** Ingestion of an unreadable workbook *)

(** C1 (amended): if the ingestion of a spreadsheet upload fails because
    the workbook cannot be opened, it is surfaced as a batch-level failure
    (a [ValueError], answered with status 500), and the prior contents of
    the store are discarded: the phone-keyed map and the grouping index
    are both empty afterwards, as they are reset before the workbook is
    opened; the upload statistics and the detector are as before. *)
Theorem C1_corrupt_workbook_resets_store (now error : str)
  (file : uploaded_file) (st : State) :
  opened file = Corrupt error ->
  file_ext file = "xls" \/ file_ext file = "xlsx" ->
  let message := "Erreur lecture Excel: " ++ error in
  load_clients_from_excel now (opened file) st
    = (reset_clients st, ValueError message) /\
  upload_file now file st = (reset_clients st, Failure 500 message) /\
  clients_database (reset_clients st) = [] /\
  clients_by_bank (reset_clients st) = [] /\
  upload_stats (reset_clients st) = upload_stats st /\
  iban_detector (reset_clients st) = iban_detector st.
Proof.
  intros Ho He message.
  split; [now rewrite Ho|].
  split; [|repeat split].
  unfold upload_file. rewrite Ho.
  destruct He as [-> | ->]; reflexivity.
Qed.

(** ** The loop of the loaders *)

Lemma load_rows_snoc rows r :
  load_rows (rows ++ [r]) = load_row (load_rows rows) r.
Proof. unfold load_rows. now rewrite fold_left_app. Qed.

Lemma accepted_app rows rows' :
  accepted (rows ++ rows') = accepted rows ++ accepted rows'.
Proof.
  induction rows as [|[[c b]|] rows IH]; simpl; [reflexivity| |assumption].
  now rewrite IH.
Qed.

(** Last wins: the store maps a phone to the last accepted record that
    carries it. *)
Lemma load_rows_get rows p :
  dict_get p (ld_database (load_rows rows)) = last_with_phone p (accepted rows).
Proof.
  unfold last_with_phone.
  induction rows as [|[[c b]|] rows IH] using rev_ind; [reflexivity| |].
  - rewrite load_rows_snoc, accepted_app. simpl.
    rewrite dict_get_set, rev_app_distr. simpl.
    now destruct (str_eqb p (telephone c)).
  - rewrite load_rows_snoc, accepted_app. simpl. now rewrite app_nil_r.
Qed.

Lemma load_rows_count rows :
  loaded_count (load_rows rows) = length (accepted rows).
Proof.
  induction rows as [|[[c b]|] rows IH] using rev_ind; [reflexivity| |].
  - rewrite load_rows_snoc, accepted_app, length_app. simpl. lia.
  - rewrite load_rows_snoc, accepted_app. simpl. now rewrite app_nil_r.
Qed.

Lemma load_rows_NoDup rows : NoDup (dict_keys (ld_database (load_rows rows))).
Proof.
  induction rows as [|[[c b]|] rows IH] using rev_ind; [constructor| |].
  - rewrite load_rows_snoc. simpl. now apply dict_set_NoDup.
  - now rewrite load_rows_snoc.
Qed.

Lemma dict_append_perm (k x : str) (d : dict (list str)) :
  Permutation (concat (dict_values (dict_append k x d)))
              (x :: concat (dict_values d)).
Proof.
  unfold dict_append.
  induction d as [|[k' l] d IH]; simpl; [reflexivity|].
  destruct (str_eqb k k') eqn:E; simpl.
  - rewrite <- app_assoc. symmetry. apply Permutation_middle.
  - destruct (dict_get k d) as [l'|] eqn:G; simpl;
      rewrite IH; symmetry; apply Permutation_middle.
Qed.

(** The phones filed in the grouping index are the phones of the accepted
    rows, each as many times as rows carry it. *)
Lemma load_rows_grouped rows :
  Permutation (concat (dict_values (ld_by_bank (load_rows rows))))
              (map telephone (accepted rows)).
Proof.
  induction rows as [|[[c b]|] rows IH] using rev_ind; [reflexivity| |].
  - rewrite load_rows_snoc, accepted_app, map_app. simpl.
    rewrite dict_append_perm, IH. apply Permutation_cons_append.
  - rewrite load_rows_snoc, accepted_app. simpl. now rewrite app_nil_r.
Qed.

Lemma last_with_phone_In p records :
  In p (map telephone records) <-> last_with_phone p records <> None.
Proof.
  unfold last_with_phone. split.
  - intros H. apply in_map_iff in H as (c & <- & H).
    apply in_rev in H. intros N.
    apply (find_none _ _ N) in H. now rewrite str_eqb_refl in H.
  - intros H. destruct (find _ _) as [c|] eqn:E; [|congruence].
    apply find_some in E as [E1 E2]. apply str_eqb_eq in E2. subst p.
    apply in_map. now apply in_rev.
Qed.

Lemma load_rows_keys rows p :
  In p (dict_keys (ld_database (load_rows rows))) <->
  In p (map telephone (accepted rows)).
Proof.
  rewrite last_with_phone_In, <- load_rows_get.
  split.
  - intros H N. now apply dict_get_None in N.
  - intros H. destruct (in_dec (list_eq_dec N.eq_dec) p
                          (dict_keys (ld_database (load_rows rows))))
      as [I|I]; [assumption|].
    now apply dict_get_None in I.
Qed.

Lemma load_rows_len_le rows :
  dict_len (ld_database (load_rows rows)) <= length (accepted rows).
Proof.
  unfold dict_len. rewrite <- (length_map fst), <- (length_map telephone).
  apply NoDup_incl_length; [apply load_rows_NoDup|].
  intros p. apply load_rows_keys.
Qed.

(** The store has as many records as rows were accepted exactly when no
    two accepted rows carry the same phone. *)
Lemma load_rows_len_eq rows :
  dict_len (ld_database (load_rows rows)) = length (accepted rows) <->
  NoDup (map telephone (accepted rows)).
Proof.
  unfold dict_len. rewrite <- (length_map fst), <- (length_map telephone).
  split.
  - intros E. apply NoDup_incl_NoDup with (l := dict_keys (ld_database (load_rows rows))).
    + apply load_rows_NoDup.
    + unfold dict_keys. lia.
    + intros p. apply load_rows_keys.
  - intros N. apply Nat.le_antisymm.
    + apply NoDup_incl_length; [apply load_rows_NoDup|].
      intros p. apply load_rows_keys.
    + apply NoDup_incl_length; [assumption|].
      intros p. apply load_rows_keys.
Qed.

(** A successful ingestion is the loop over the rows of the input. *)
Lemma ingest_Loaded now input st st' n :
  ingest now input st = (st', Loaded n) ->
  let ld := load_rows (ingestion_rows (iban_detector st) now input) in
  st' = finish_loading now (reset_clients st) ld /\ n = loaded_count ld.
Proof.
  destruct input as [content|[e|[|first_row data_rows]]]; simpl;
    try discriminate.
  - unfold load_clients_from_pipe_file. simpl. intros [= <- <-]. now split.
  - intros [= <- <-]. now split.
Qed.

Lemma find_app {A} (f : A -> bool) (l l' : list A) :
  find f (l ++ l') = match find f l with Some a => Some a | None => find f l' end.
Proof.
  induction l as [|a l IH]; simpl; [reflexivity|]. now destruct (f a).
Qed.

Lemma last_with_phone_last l1 c l2 :
  ~ In (telephone c) (map telephone l2) ->
  last_with_phone (telephone c) (l1 ++ c :: l2) = Some c.
Proof.
  intros N. unfold last_with_phone.
  rewrite rev_app_distr. simpl. rewrite <- app_assoc, find_app.
  destruct (find _ (rev l2)) as [c'|] eqn:E.
  - exfalso. apply find_some in E as [E1 E2]. apply str_eqb_eq in E2.
    apply N. rewrite E2. apply in_map. now apply in_rev.
  - simpl. now rewrite str_eqb_refl.
Qed.

(** C2 (amended): after every successful ingestion, every phone that
    occurs in a grouping sequence is a key of the phone-keyed map, and the
    sum of the lengths of the grouping sequences is the number of accepted
    rows (the count the ingestion returns), which is at least the number
    of records in the store; when no two accepted rows carry the same
    phone, no phone occurs more than once across the grouping sequences
    and the sum of their lengths is the number of records in the store. *)
Theorem C2_index_store_consistency (now : str) (input : ingestion)
  (st st' : State) (n : nat) :
  ingest now input st = (st', Loaded n) ->
  let records := accepted (ingestion_rows (iban_detector st) now input) in
  let groups := dict_values (clients_by_bank st') in
  (forall p, In p (concat groups) -> dict_mem p (clients_database st') = true) /\
  Permutation (concat groups) (map telephone records) /\
  list_sum (map (@length str) groups) = n /\
  n = length records /\
  dict_len (clients_database st') <= list_sum (map (@length str) groups) /\
  (NoDup (map telephone records) ->
   NoDup (concat groups) /\
   list_sum (map (@length str) groups) = dict_len (clients_database st')).
Proof.
  intros H records groups. apply ingest_Loaded in H as [-> ->].
  subst records groups. cbn [finish_loading clients_by_bank clients_database].
  cbn [reset_clients iban_detector].
  set (rows := ingestion_rows (iban_detector st) now input).
  pose proof (load_rows_grouped rows) as P.
  assert (list_sum (map (@length str) (dict_values (ld_by_bank (load_rows rows))))
          = length (accepted rows)) as S.
  { rewrite <- length_concat, (Permutation_length P). apply length_map. }
  split; [|split; [exact P|split; [|split; [|split]]]].
  - intros p I. apply dict_mem_keys, load_rows_keys.
    now apply (Permutation_in _ P).
  - now rewrite load_rows_count.
  - apply load_rows_count.
  - rewrite S. apply load_rows_len_le.
  - intros N. split.
    + apply (Permutation_NoDup (Permutation_sym P) N).
    + rewrite S. symmetry. now apply load_rows_len_eq.
Qed.

(** C3 (amended): for every input, rows that normalise to the same phone
    leave only the record of the last of them in the store (last wins);
    the count the ingestion returns is the number of accepted rows, each
    duplicate counted, so with two or more rows of the same phone it is
    greater than the final number of records in the store (the number that
    the statistics record); the two are equal exactly when no two accepted
    rows carry the same phone. *)
Theorem C3_last_wins_count (now : str) (input : ingestion)
  (st st' : State) (n : nat) :
  ingest now input st = (st', Loaded n) ->
  let records := accepted (ingestion_rows (iban_detector st) now input) in
  (forall p, dict_get p (clients_database st') = last_with_phone p records) /\
  (forall before c after,
     records = before ++ c :: after ->
     ~ In (telephone c) (map telephone after) ->
     dict_get (telephone c) (clients_database st') = Some c) /\
  NoDup (dict_keys (clients_database st')) /\
  n = length records /\
  total_clients (upload_stats st') = dict_len (clients_database st') /\
  dict_len (clients_database st') <= n /\
  (dict_len (clients_database st') = n <-> NoDup (map telephone records)) /\
  (~ NoDup (map telephone records) -> dict_len (clients_database st') < n).
Proof.
  intros H records. apply ingest_Loaded in H as [-> ->].
  subst records. cbn [finish_loading clients_database upload_stats total_clients].
  cbn [reset_clients iban_detector].
  set (rows := ingestion_rows (iban_detector st) now input).
  rewrite load_rows_count.
  split; [intros p; apply load_rows_get|].
  split; [intros l1 c l2 E N; rewrite load_rows_get, E;
          now apply last_with_phone_last|].
  split; [apply load_rows_NoDup|].
  split; [reflexivity|]. split; [reflexivity|].
  split; [apply load_rows_len_le|].
  split; [apply load_rows_len_eq|].
  intros N. pose proof (load_rows_len_le rows) as L.
  destruct (Nat.eq_dec (dict_len (ld_database (load_rows rows)))
              (length (accepted rows))) as [E|E]; [|lia].
  apply load_rows_len_eq in E. contradiction.
Qed.

(** ** Stripping *)

Lemma dropwhile_id (s : str) : head_ok s = true -> dropwhile is_space s = s.
Proof.
  destruct s as [|c s]; simpl; [reflexivity|].
  now destruct (is_space c).
Qed.

Lemma dropwhile_head_ok (s : str) : head_ok (dropwhile is_space s) = true.
Proof.
  induction s as [|c s IH]; simpl; [reflexivity|].
  destruct (is_space c) eqn:E; [assumption|]. simpl. now rewrite E.
Qed.

Lemma dropwhile_decompose (f : char -> bool) (s : str) :
  exists w, s = w ++ dropwhile f s /\ forallb f w = true.
Proof.
  induction s as [|c s (w & E & F)]; simpl; [now exists []|].
  destruct (f c) eqn:Ec.
  - exists (c :: w). simpl. rewrite Ec, F. split; [now f_equal|reflexivity].
  - now exists [].
Qed.

Lemma dropwhile_In (f : char -> bool) (s : str) (c : char) :
  In c (dropwhile f s) -> In c s.
Proof.
  destruct (dropwhile_decompose f s) as (w & E & _). intros H.
  rewrite E. apply in_or_app. now right.
Qed.

Lemma rstrip_decompose (s : str) :
  exists w, s = rstrip s ++ w /\ forallb is_space w = true.
Proof.
  unfold rstrip. destruct (dropwhile_decompose is_space (rev s)) as (w & E & F).
  exists (rev w). split.
  - rewrite <- (rev_involutive s) at 1. rewrite E at 1. apply rev_app_distr.
  - rewrite forallb_forall in *. intros c H. apply F. now apply in_rev.
Qed.

Lemma head_ok_prefix (a w : str) : head_ok (a ++ w) = true -> head_ok a = true.
Proof. destruct a; [reflexivity|exact (fun H => H)]. Qed.

Lemma strip_stripped (s : str) : stripped (strip s).
Proof.
  unfold strip. split.
  - destruct (rstrip_decompose (lstrip s)) as (w & E & _).
    apply head_ok_prefix with (w := w). rewrite <- E.
    apply dropwhile_head_ok.
  - unfold rstrip. rewrite rev_involutive. apply dropwhile_head_ok.
Qed.

Lemma strip_id (s : str) : stripped s -> strip s = s.
Proof.
  intros [H1 H2]. unfold strip, lstrip, rstrip.
  rewrite (dropwhile_id _ H1), (dropwhile_id _ H2). apply rev_involutive.
Qed.

Lemma strip_fixed (s : str) : strip s = s <-> stripped s.
Proof.
  split; [intros <-; apply strip_stripped | apply strip_id].
Qed.

Lemma strip_idem (s : str) : strip (strip s) = strip s.
Proof. apply strip_id, strip_stripped. Qed.

Lemma strip_In (s : str) (c : char) : In c (strip s) -> In c s.
Proof.
  unfold strip. intros H.
  destruct (rstrip_decompose (lstrip s)) as (w & E & _).
  apply (dropwhile_In is_space). fold (lstrip s). rewrite E.
  apply in_or_app. now left.
Qed.

Lemma strip_space_after (s : str) : stripped s -> strip (s ++ " ") = s.
Proof.
  intros [H1 H2]. destruct s as [|c s].
  { unfold strip, lstrip, rstrip. cbn [app dropwhile].
    now rewrite is_space_space. }
  unfold strip, lstrip. rewrite dropwhile_id by exact H1.
  unfold rstrip. rewrite rev_app_distr.
  remember (rev (c :: s)) as r eqn:Er.
  change (rev " " ++ r) with (" "%char :: r).
  cbn [dropwhile]. rewrite is_space_space.
  rewrite (dropwhile_id _ H2), Er. apply rev_involutive.
Qed.

Lemma stripped_no_space (s : str) :
  forallb (fun c => negb (is_space c)) s = true -> stripped s.
Proof.
  intros H. rewrite forallb_forall in H. split.
  - destruct s as [|c s]; [reflexivity|]. apply H. now left.
  - destruct (rev s) as [|c r] eqn:E; [reflexivity|]. apply H.
    apply in_rev. rewrite E. now left.
Qed.

Lemma head_ok_app (a b : str) : a <> [] -> head_ok (a ++ b) = head_ok a.
Proof. destruct a; [congruence|reflexivity]. Qed.

(** Two stripped strings that are not empty, with anything between them. *)
Lemma stripped_around (a m b : str) :
  a <> [] -> b <> [] -> stripped a -> stripped b -> stripped (a ++ m ++ b).
Proof.
  intros Na Nb [Ha _] [_ Hb]. split.
  - now rewrite head_ok_app.
  - rewrite !rev_app_distr, <- app_assoc, head_ok_app; [assumption|].
    intros E. apply Nb. rewrite <- (rev_involutive b), E. reflexivity.
Qed.

(** ** Splitting and joining *)

Lemma split_not_nil (sep : char) (s : str) : split sep s <> [].
Proof.
  destruct s as [|c s]; simpl; [discriminate|].
  destruct (N.eqb c sep); [discriminate|].
  destruct (split sep s); discriminate.
Qed.

Lemma split_no_sep (sep : char) (s : str) : ~ In sep s -> split sep s = [s].
Proof.
  induction s as [|c s IH]; simpl; [reflexivity|]. intros N.
  destruct (N.eqb c sep) eqn:E.
  - apply N.eqb_eq in E. exfalso. apply N. now left.
  - rewrite IH; [reflexivity|]. intros H. apply N. now right.
Qed.

Lemma split_app_sep (sep : char) (a s : str) :
  ~ In sep a -> split sep (a ++ sep :: s) = a :: split sep s.
Proof.
  induction a as [|c a IH]; simpl; intros N.
  - now rewrite N.eqb_refl.
  - destruct (N.eqb c sep) eqn:E.
    + apply N.eqb_eq in E. exfalso. apply N. now left.
    + rewrite IH; [reflexivity|]. intros H. apply N. now right.
Qed.

(** Splitting undoes joining when no part holds the separator. *)
Lemma split_join (sep : char) (parts : list str) :
  parts <> [] -> Forall (fun p => ~ In sep p) parts ->
  split sep (join [sep] parts) = parts.
Proof.
  induction parts as [|p parts IH]; [congruence|]. intros _ F.
  inversion F as [|? ? Fp Fr]; subst.
  destruct parts as [|q parts].
  - simpl. now apply split_no_sep.
  - change (join [sep] (p :: q :: parts))
      with (p ++ sep :: join [sep] (q :: parts)).
    rewrite split_app_sep by assumption. f_equal.
    apply IH; [discriminate|assumption].
Qed.

Lemma split_parts (sep : char) (s p : str) :
  In p (split sep s) -> ~ In sep p /\ forall c, In c p -> In c s.
Proof.
  revert p. induction s as [|c s IH]; simpl; intros p H.
  - destruct H as [<-|[]]. split; [intros []|intros c []].
  - destruct (N.eqb c sep) eqn:E.
    + destruct H as [<-|H]; [split; [intros []|intros x []]|].
      destruct (IH _ H) as [H1 H2]. split; [assumption|].
      intros x Hx. right. now apply H2.
    + apply N.eqb_neq in E.
      destruct (split sep s) as [|h t] eqn:Es.
      * destruct H as [<-|[]]. split.
        -- intros [H|[]]. congruence.
        -- intros x [<-|[]]. now left.
      * destruct H as [<-|H].
        -- destruct (IH h (or_introl eq_refl)) as [H1 H2]. split.
           ++ intros [H|H]; [congruence|contradiction].
           ++ intros x [<-|Hx]; [now left|right; now apply H2].
        -- destruct (IH p (or_intror H)) as [H1 H2]. split; [assumption|].
           intros x Hx. right. now apply H2.
Qed.

Lemma split1_no_sep (sep : char) (s : str) : ~ In sep s -> split1 sep s = [s].
Proof.
  induction s as [|c s IH]; simpl; [reflexivity|]. intros N.
  destruct (N.eqb c sep) eqn:E.
  - apply N.eqb_eq in E. exfalso. apply N. now left.
  - rewrite IH; [reflexivity|]. intros H. apply N. now right.
Qed.

Lemma split1_app_sep (sep : char) (a b : str) :
  ~ In sep a -> split1 sep (a ++ sep :: b) = [a; b].
Proof.
  induction a as [|c a IH]; simpl; intros N.
  - now rewrite N.eqb_refl.
  - destruct (N.eqb c sep) eqn:E.
    + apply N.eqb_eq in E. exfalso. apply N. now left.
    + rewrite IH; [reflexivity|]. intros H. apply N. now right.
Qed.

Lemma first_sep (sep : char) (s : str) :
  ~ In sep s \/ exists a b, s = a ++ sep :: b /\ ~ In sep a.
Proof.
  induction s as [|c s IH]; [left; intros []|].
  destruct (N.eqb c sep) eqn:E.
  - apply N.eqb_eq in E. subst c. right. exists [], s. split; [reflexivity|intros []].
  - apply N.eqb_neq in E. destruct IH as [N|(a & b & -> & N)].
    + left. intros [H|H]; [congruence|contradiction].
    + right. exists (c :: a), b. split; [reflexivity|].
      intros [H|H]; [congruence|contradiction].
Qed.

(** The two cases of the split of a full name. *)
Lemma split_name_cases (nc : str) :
  (~ In " "%char nc /\ split_name nc = (nc, [])) \/
  (exists a b, nc = a ++ " " ++ b /\ split_name nc = (a, b)).
Proof.
  unfold split_name. destruct (first_sep " "%char nc) as [N|(a & b & -> & N)].
  - left. split; [assumption|]. now rewrite split1_no_sep.
  - right. exists a, b. split; [reflexivity|]. now rewrite split1_app_sep.
Qed.

(** A stripped full name is recovered from the names it was split into. *)
Lemma split_name_round (nc n p : str) :
  stripped nc -> split_name nc = (n, p) ->
  split_name (strip (n ++ " " ++ p)) = (n, p).
Proof.
  intros S H. destruct (split_name_cases nc) as [[N E]|(a & b & E & E')].
  - rewrite E in H. injection H as <- <-.
    change (nc ++ " " ++ []) with (nc ++ " "). now rewrite strip_space_after.
  - rewrite E' in H. injection H as <- <-.
    rewrite <- E, strip_id by assumption. exact E'.
Qed.

Lemma split_name_In (nc n p : str) (c : char) :
  split_name nc = (n, p) -> In c n \/ In c p -> In c nc.
Proof.
  intros H. destruct (split_name_cases nc) as [[N E]|(a & b & E & E')].
  - rewrite E in H. injection H as <- <-. intros [I|[]]. exact I.
  - rewrite E' in H. injection H as <- <-. rewrite E. intros [I|I].
    + apply in_or_app. now left.
    + apply in_or_app. right. now right.
Qed.

(** ** The records of the text loader *)

Lemma is_digit_plain (c : char) :
  is_digit c = true ->
  is_space c = false /\ c <> "|"%char /\ c <> line_feed.
Proof.
  intros D. split; [now apply is_digit_not_space|].
  split; intros ->; rewrite is_digit_ascii in D by reflexivity;
    discriminate D.
Qed.

Lemma normalize_phone_digits (p n : str) :
  normalize_phone p = Some n -> n <> [] /\ forallb is_digit n = true.
Proof.
  intros H. apply normalize_phone_Some in H as (d & H & ->).
  apply shape_digits9 in H as [_ H]. split; [discriminate|].
  cbn [app forallb]. rewrite H. now ascii_class.
Qed.

Lemma normalize_phone_idem (p n : str) :
  normalize_phone p = Some n -> normalize_phone n = Some n.
Proof.
  intros H. apply normalize_phone_Some in H as (d & H & ->).
  apply normalize_phone_Some. exists d. split; [|reflexivity].
  apply shape_0_digits. eapply shape_digits9; eauto.
Qed.

Lemma digits_plain (n : str) :
  forallb is_digit n = true ->
  stripped n /\ ~ In "|"%char n /\ ~ In line_feed n.
Proof.
  intros H. rewrite forallb_forall in H. split; [|split].
  - apply stripped_no_space. apply forallb_forall. intros c I.
    now destruct (is_digit_plain c (H c I)) as [-> _].
  - intros I. now destruct (is_digit_plain _ (H _ I)) as (_ & N & _).
  - intros I. now destruct (is_digit_plain _ (H _ I)) as (_ & _ & N).
Qed.

Lemma part_In (i : nat) (sep : char) (line : str) (c : char) :
  In c (part i (split sep line)) -> c <> sep /\ In c line.
Proof.
  unfold part. intros H. apply strip_In in H.
  destruct (nth_in_or_default i (split sep line) []) as [I|E].
  - destruct (split_parts _ _ _ I) as [N S]. split; [|now apply S].
    intros ->. contradiction.
  - rewrite E in H. destruct H.
Qed.

Lemma part_stripped (i : nat) (parts : list str) : stripped (part i parts).
Proof. apply strip_stripped. Qed.

Lemma ville_tail_In (s g : str) (c : char) :
  ville_tail s = Some g -> In c g -> In c s.
Proof.
  unfold ville_tail. destruct (dropwhile is_space s) as [|x r] eqn:E;
    [discriminate|].
  destruct (_ && _); [|discriminate]. intros [= <-] I.
  apply (dropwhile_In is_space). rewrite E. right.
  rewrite <- (firstn_skipn 5 r). apply in_or_app. now left.
Qed.

Lemma ville_match_from_In (rest group1 a b : str) :
  ville_match_from group1 rest = Some (a, b) ->
  forall c, In c a \/ In c b -> In c group1 \/ In c rest.
Proof.
  revert group1.
  induction rest as [|x rest IH]; intros group1; cbn [ville_match_from].
  - simpl. discriminate.
  - destruct (ville_tail (x :: rest)) as [g|] eqn:T.
    + intros [= <- <-] c [I|I]; [now left|right].
      eapply ville_tail_In; eauto.
    + destruct (N.eqb x line_feed); [discriminate|].
      intros H c I. destruct (IH _ H c I) as [J|J].
      * apply in_app_or in J as [J|[<-|[]]]; [now left|right; now left].
      * right; now right.
Qed.

Lemma split_ville_In (vc v cp : str) (c : char) :
  split_ville vc = (v, cp) -> In c v \/ In c cp -> In c vc.
Proof.
  unfold split_ville, ville_match. destruct vc as [|x rest].
  - intros [= <- <-] [[]|[]].
  - destruct (N.eqb x line_feed).
    + intros [= <- <-] [I|[]]. exact I.
    + destruct (ville_match_from [x] rest) as [[g1 g2]|] eqn:E.
      * intros [= <- <-] I.
        assert (In c g1 \/ In c g2) as I'
            by (destruct I as [I|I]; [left; now apply strip_In|now right]).
        destruct (ville_match_from_In _ _ _ _ E c I') as [[<-|[]]|J];
          [now left|now right].
      * intros [= <- <-] [I|[]]. exact I.
Qed.

(** Every record the text loader builds from a line is of the kind the
    text format can carry. *)
Lemma parse_pipe_line_shaped det now (line : str) c b :
  ~ In line_feed line ->
  parse_pipe_line det now line = Some (c, b) -> text_shaped c.
Proof.
  intros NL. unfold parse_pipe_line.
  destruct (negb (truthy (strip line))); [discriminate|]. cbv zeta.
  destruct (length (split "|" line) <? 7); [discriminate|].
  destruct (normalize_phone _) as [t|] eqn:En; [|discriminate].
  destruct (negb (truthy t)); [discriminate|].
  destruct (split_name _) as [n p] eqn:Es.
  destruct (split_ville _) as [v cp] eqn:Ev.
  destruct (detect_row_bank det _) as [[bq bc] pr].
  intros [= <- <-].
  assert (forall i f, (forall x, In x f -> In x (part i (split "|" line))) ->
                      ~ In "|"%char f /\ ~ In line_feed f) as P.
  { intros i f H. split; intros I; apply H, part_In in I as [I1 I2];
      [congruence|contradiction]. }
  constructor; simpl.
  - eapply normalize_phone_idem; eauto.
  - eapply split_name_round; [apply part_stripped|exact Es].
  - apply strip_idem.
  - apply strip_idem.
  - unfold exported_fields. simpl.
    intros f [<-|[<-|[<-|[<-|[<-|[<-|[<-|[<-|[<-|[]]]]]]]]]].
    + apply (P 1). intros x I. eapply split_name_In; eauto.
    + apply (P 1). intros x I. eapply split_name_In; eauto.
    + now apply (P 2).
    + now apply (P 3).
    + now apply (P 4).
    + apply (P 5). intros x I. eapply split_ville_In; eauto.
    + apply (P 5). intros x I. eapply split_ville_In; eauto.
    + now apply (P 6).
    + now apply (P 7).
Qed.

(** ** The lines of the text export *)

Lemma join_In (sep : str) (parts : list str) (c : char) :
  In c (join sep parts) -> In c sep \/ exists p, In p parts /\ In c p.
Proof.
  induction parts as [|p parts IH]; [intros []|].
  destruct parts as [|q parts].
  - intros H. right. exists p. split; [now left|exact H].
  - change (join sep (p :: q :: parts)) with (p ++ sep ++ join sep (q :: parts)).
    intros H. apply in_app_or in H as [H|H].
    + right. exists p. split; [now left|exact H].
    + apply in_app_or in H as [H|H]; [now left|].
      destruct (IH H) as [J|(r & J1 & J2)]; [now left|].
      right. exists r. split; [now right|exact J2].
Qed.

Lemma text_shaped_phone (c : ClientRecord) :
  text_shaped c ->
  telephone c <> [] /\ stripped (telephone c) /\
  ~ In "|"%char (telephone c) /\ ~ In line_feed (telephone c).
Proof.
  intros T. destruct (normalize_phone_digits _ _ (ts_phone c T)) as [N D].
  split; [exact N|]. now apply digits_plain.
Qed.

Lemma export_parts_plain (c : ClientRecord) :
  text_shaped c ->
  Forall (fun p => ~ In "|"%char p /\ ~ In line_feed p) (export_parts c).
Proof.
  intros T. destruct (text_shaped_phone c T) as (_ & _ & P1 & P2).
  pose proof (ts_fields c T) as F. unfold exported_fields in F.
  assert (forall x : char, x = "|"%char \/ x = line_feed ->
            forall f, In f (exported_fields c) -> ~ In x f) as G.
  { intros x [-> | ->] f I; now destruct (F f I). }
  assert (forall x : char, x = "|"%char \/ x = line_feed ->
            ~ In x (nom c ++ " " ++ prenom c) /\
            ~ In x (ville c ++ " (" ++ code_postal c ++ ")")) as H.
  { intros x Hx. split; intros I.
    - apply in_app_or in I as [I|I];
        [eapply (G x Hx (nom c)); [simpl; tauto|exact I]|].
      apply in_app_or in I as [I|I];
        [|eapply (G x Hx (prenom c)); [simpl; tauto|exact I]].
      destruct Hx as [-> | ->]; destruct I as [I|[]]; discriminate I.
    - apply in_app_or in I as [I|I];
        [eapply (G x Hx (ville c)); [simpl; tauto|exact I]|].
      apply in_app_or in I as [I|I].
      { destruct Hx as [-> | ->]; destruct I as [I|[I|[]]]; discriminate I. }
      apply in_app_or in I as [I|I];
        [eapply (G x Hx (code_postal c)); [simpl; tauto|exact I]|].
      destruct Hx as [-> | ->]; destruct I as [I|[]]; discriminate I. }
  unfold export_parts.
  repeat constructor; try assumption;
    try (apply H; tauto);
    try (eapply G; [left; reflexivity | simpl; tauto]);
    try (eapply G; [right; reflexivity | simpl; tauto]).
Qed.

Lemma export_line_parts (c : ClientRecord) :
  text_shaped c -> split "|" (export_line c) = export_parts c.
Proof.
  intros T. apply (split_join "|"%char (export_parts c)); [discriminate|].
  eapply Forall_impl; [|apply (export_parts_plain c T)].
  now intros p [H _].
Qed.

Lemma export_line_no_line_feed (c : ClientRecord) :
  text_shaped c -> ~ In line_feed (export_line c).
Proof.
  intros T I. apply join_In in I as [[I|[]]|(p & I1 & I2)];
    [discriminate I|].
  pose proof (export_parts_plain c T) as F. rewrite Forall_forall in F.
  now destruct (F p I1).
Qed.

Lemma export_line_stripped (c : ClientRecord) :
  text_shaped c -> export_line c <> [] /\ stripped (export_line c).
Proof.
  intros T. destruct (text_shaped_phone c T) as (N & [S _] & _).
  pose proof (ts_swift c T) as W. apply strip_fixed in W as [_ W].
  assert (exists X, export_line c = (X ++ "|") ++ swift c) as [X EX].
  { unfold export_line, export_parts. cbn [join]. eexists.
    rewrite !app_assoc. reflexivity. }
  assert (exists Y, export_line c = telephone c ++ Y) as [Y EY]
      by (unfold export_line, export_parts; cbn [join]; eexists; reflexivity).
  split.
  - rewrite EY. destruct (telephone c); [congruence|discriminate].
  - split.
    + rewrite EY. now rewrite head_ok_app.
    + rewrite EX, rev_app_distr. destruct (swift c) as [|x w] eqn:E.
      * rewrite rev_app_distr. cbn [rev app head_ok]. now ascii_class.
      * rewrite head_ok_app; [exact W|].
        intros R. apply (f_equal (@rev char)) in R.
        rewrite rev_involutive in R. discriminate R.
Qed.

(** An exported line is read back to a record with the same phone, names
    and identifier. *)
Lemma parse_export_line det now (c : ClientRecord) :
  text_shaped c ->
  exists c' b,
    parse_pipe_line det now (export_line c) = Some (c', b) /\
    reconstructed c c'.
Proof.
  intros T. destruct (export_line_stripped c T) as [N S].
  destruct (text_shaped_phone c T) as (Np & Sp & _).
  assert (truthy (export_line c) = true) as Tl
      by (destruct (export_line c); [congruence|reflexivity]).
  assert (truthy (telephone c) = true) as Tp
      by (destruct (telephone c); [congruence|reflexivity]).
  unfold parse_pipe_line. rewrite (strip_id _ S), Tl.
  cbn [negb]. cbv zeta. rewrite (export_line_parts c T).
  unfold export_parts, part. cbn [length nth]. cbn [Nat.ltb Nat.leb].
  rewrite (strip_id _ Sp), (ts_phone c T), Tp.
  cbn [negb]. rewrite (ts_name c T), (ts_iban c T).
  destruct (split_ville _) as [v cp].
  destruct (detect_row_bank det (iban c)) as [[bq bc] pr].
  eexists. eexists. split; [reflexivity|].
  repeat split.
Qed.

(** ** Stores built from text *)

Lemma dict_set_In {V} (k k0 : str) (v v0 : V) (d : dict V) :
  In (k0, v0) (dict_set k v d) -> (k0 = k /\ v0 = v) \/ In (k0, v0) d.
Proof.
  induction d as [|[k' v'] d IH]; simpl.
  - intros [[= <- <-]|[]]. now left.
  - destruct (str_eqb k k') eqn:E.
    + apply str_eqb_eq in E. subst k'.
      intros [[= <- <-]|H]; [now left|right; now right].
    + intros [H|H]; [right; now left|].
      destruct (IH H) as [J|J]; [now left|right; now right].
Qed.

Lemma load_rows_In rows k c :
  In (k, c) (ld_database (load_rows rows)) ->
  k = telephone c /\ In c (accepted rows).
Proof.
  induction rows as [|[[c0 b]|] rows IH] using rev_ind; [intros []| |].
  - rewrite load_rows_snoc, accepted_app. simpl. intros H.
    apply dict_set_In in H as [[-> ->]|H].
    + split; [reflexivity|]. apply in_or_app. right. now left.
    + destruct (IH H) as [-> I]. split; [reflexivity|].
      apply in_or_app. now left.
  - rewrite load_rows_snoc, accepted_app. simpl. now rewrite app_nil_r.
Qed.

Lemma accepted_map_In {A} (f : A -> option (ClientRecord * bool))
  (l : list A) (c : ClientRecord) :
  In c (accepted (map f l)) -> exists x b, In x l /\ f x = Some (c, b).
Proof.
  induction l as [|x l IH]; simpl; [intros []|].
  destruct (f x) as [[c0 b]|] eqn:E.
  - intros [<-|H].
    + exists x, b. split; [now left|exact E].
    + destruct (IH H) as (y & b' & I & Ey). exists y, b'. split; [now right|exact Ey].
  - intros H. destruct (IH H) as (y & b' & I & Ey).
    exists y, b'. split; [now right|exact Ey].
Qed.

(** The store left by the text loader is a text store. *)
Lemma load_pipe_text_store now content st :
  text_store (clients_database (fst (load_clients_from_pipe_file now content st))).
Proof.
  unfold load_clients_from_pipe_file. cbn [fst finish_loading clients_database].
  split; [apply load_rows_NoDup|].
  intros k c I. apply load_rows_In in I as [-> I]. split; [reflexivity|].
  unfold pipe_rows in I. apply accepted_map_In in I as (line & b & I & E).
  apply split_parts in I as [N _].
  eapply parse_pipe_line_shaped; eauto.
Qed.

Lemma record_call_shaped now c : text_shaped c -> text_shaped (record_call now c).
Proof. intros [H1 H2 H3 H4 H5]. now constructor. Qed.

Lemma get_client_info_text_store now p st :
  text_store (clients_database st) ->
  text_store (clients_database (fst (get_client_info now p st))).
Proof.
  intros [N T]. unfold get_client_info.
  destruct (negb (truthy p)); [now split|].
  destruct (normalize_phone p) as [n|]; [|now split].
  destruct (truthy n); [|now split].
  destruct (dict_get n (clients_database st)) as [stored|] eqn:G; [|now split].
  cbn [fst set_clients_database clients_database]. split.
  - now apply dict_set_NoDup.
  - intros k c I. apply dict_set_In in I as [[-> ->]|I]; [|now apply T].
    apply dict_get_Some_In in G. destruct (T _ _ G) as [E S].
    split; [exact E|now apply record_call_shaped].
Qed.

Lemma lookups_text_store calls st :
  text_store (clients_database st) ->
  text_store (clients_database (lookups calls st)).
Proof.
  revert st. induction calls as [|[now p] calls IH]; intros st H; [exact H|].
  unfold lookups in *. simpl. apply IH. now apply get_client_info_text_store.
Qed.

Lemma load_rows_keys_order rows :
  NoDup (map telephone (accepted rows)) ->
  dict_keys (ld_database (load_rows rows)) = map telephone (accepted rows).
Proof.
  induction rows as [|[[c b]|] rows IH] using rev_ind; [reflexivity| |].
  - rewrite load_rows_snoc, accepted_app, map_app. simpl. intros N.
    apply NoDup_remove in N as [N1 N2]. rewrite app_nil_r in N1, N2.
    rewrite dict_keys_set, <- (IH N1).
    destruct (dict_mem _ _) eqn:M; [|reflexivity].
    apply dict_mem_keys in M. rewrite (IH N1) in M. contradiction.
  - rewrite load_rows_snoc, accepted_app. simpl. now rewrite app_nil_r.
Qed.

Lemma stripped_join (lines : list str) :
  lines <> [] -> Forall (fun l => l <> [] /\ stripped l) lines ->
  join [line_feed] lines <> [] /\ stripped (join [line_feed] lines).
Proof.
  induction lines as [|l lines IH]; [congruence|]. intros _ F.
  inversion F as [|? ? [Nl Sl] Fr]; subst.
  destruct lines as [|l2 lines]; [now split|].
  destruct IH as [Nj Sj]; [discriminate|assumption|].
  change (join [line_feed] (l :: l2 :: lines))
    with (l ++ [line_feed] ++ join [line_feed] (l2 :: lines)).
  split.
  - destruct l; [congruence|discriminate].
  - now apply stripped_around.
Qed.

(** The lines the text loader reads in the text export are the exported
    lines, one per record, unless the store is empty. *)
Lemma export_lines (db : dict ClientRecord) :
  db <> [] -> (forall c, In c (dict_values db) -> text_shaped c) ->
  split line_feed (strip (join [line_feed] (map export_line (dict_values db))))
  = map export_line (dict_values db).
Proof.
  intros N T.
  assert (map export_line (dict_values db) <> []) as N'
      by (destruct db; [congruence|discriminate]).
  destruct (stripped_join (map export_line (dict_values db)) N') as [_ S].
  { apply Forall_forall. intros l I. apply in_map_iff in I as (c & <- & I).
    now apply export_line_stripped, T. }
  rewrite (strip_id _ S). apply split_join; [exact N'|].
  apply Forall_forall. intros l I. apply in_map_iff in I as (c & <- & I).
  now apply export_line_no_line_feed, T.
Qed.

Lemma accepted_export det now (values : list ClientRecord) :
  (forall c, In c values -> text_shaped c) ->
  Forall2 reconstructed values
    (accepted (map (parse_pipe_line det now) (map export_line values))).
Proof.
  induction values as [|c values IH]; intros T; [constructor|].
  destruct (parse_export_line det now c) as (c' & b & E & R);
    [apply T; now left|].
  cbn [map accepted]. rewrite E. constructor; [exact R|].
  apply IH. intros x I. apply T. now right.
Qed.

(** The records accepted when the text export of a text store is read. *)
Lemma export_accepted det now (db : dict ClientRecord) :
  text_store db ->
  Forall2 reconstructed (dict_values db)
    (accepted (pipe_rows det now
                 (join [line_feed] (map export_line (dict_values db))))).
Proof.
  intros [_ T]. destruct db as [|kv rest]; [constructor|].
  assert (forall c, In c (dict_values (kv :: rest)) -> text_shaped c) as T'.
  { intros c I. apply in_map_iff in I as ([k c'] & <- & I). now apply (T k). }
  unfold pipe_rows. rewrite export_lines; [|discriminate|exact T'].
  now apply accepted_export.
Qed.

Lemma Forall2_telephone (values records : list ClientRecord) :
  Forall2 reconstructed values records ->
  map telephone records = map telephone values.
Proof.
  induction 1 as [|c c' l l' R _ IH]; [reflexivity|].
  simpl. destruct R as [-> _]. now rewrite IH.
Qed.

Lemma keyed_by_phone (l : dict ClientRecord) :
  (forall k c, In (k, c) l -> k = telephone c) ->
  map telephone (dict_values l) = dict_keys l.
Proof.
  intros T. unfold dict_values, dict_keys.
  induction l as [|[k c] l IH]; [reflexivity|]. simpl.
  rewrite <- (T k c (or_introl eq_refl)). f_equal.
  apply IH. intros k' c' I. apply T. now right.
Qed.

Lemma text_store_keys (db : dict ClientRecord) :
  text_store db -> map telephone (dict_values db) = dict_keys db.
Proof.
  intros [_ T]. apply keyed_by_phone. intros k c I. now destruct (T k c I).
Qed.

Lemma last_with_phone_reconstructed (db : dict ClientRecord)
  (records : list ClientRecord) (p : str) (c : ClientRecord) :
  text_store db ->
  Forall2 reconstructed (dict_values db) records ->
  dict_get p db = Some c ->
  exists c', last_with_phone p records = Some c' /\ reconstructed c c'.
Proof.
  intros [N T] F G.
  apply dict_get_Some_In in G. destruct (T _ _ G) as [-> _].
  apply in_split in G as (l1 & l2 & E). subst db.
  unfold dict_values in F. rewrite map_app in F. simpl in F.
  apply Forall2_app_inv_l in F as (r1 & r2 & F1 & F2 & ->).
  inversion F2 as [|? c' ? r3 R F3]; subst.
  exists c'. split; [|exact R].
  destruct R as [Et R']. rewrite <- Et. apply last_with_phone_last.
  rewrite (Forall2_telephone _ _ F3), Et.
  unfold dict_keys in N. rewrite map_app in N. simpl in N.
  apply NoDup_remove_2 in N. intros I. apply N. apply in_or_app. right.
  change (map snd l2) with (dict_values l2) in I.
  rewrite keyed_by_phone in I; [exact I|].
  intros k x J. apply (T k x). apply in_or_app. right. now right.
Qed.

(** C9 (amended): for every store state left by an ingestion of delimited
    text, and by any lookups after it, serialising all records to the
    delimited-text export and re-ingesting that export through the
    delimited-text parser gives a store with the same phones in the same
    order, in which each record has the phone, last name, first name and
    account identifier of the original; its status is "Prospect" again,
    its call count 0 and its last-call time absent. *)
Theorem C9_text_export_round_trip (now now' content : str)
  (calls : list (str * str)) (st0 : State) :
  let st := lookups calls (fst (load_clients_from_pipe_file now content st0)) in
  let st' := fst (load_clients_from_pipe_file now'
                    (generate_all_clients_file st) st) in
  dict_keys (clients_database st') = dict_keys (clients_database st) /\
  (forall p c,
     dict_get p (clients_database st) = Some c ->
     exists c',
       dict_get p (clients_database st') = Some c' /\
       telephone c' = telephone c /\ nom c' = nom c /\
       prenom c' = prenom c /\ iban c' = iban c /\
       statut c' = Prospect /\ nb_appels c' = 0 /\ dernier_appel c' = None).
Proof.
  intros st st'.
  assert (text_store (clients_database st)) as TS
      by (apply lookups_text_store, load_pipe_text_store).
  subst st'. unfold load_clients_from_pipe_file, generate_all_clients_file.
  cbn [fst finish_loading clients_database].
  set (det := iban_detector (reset_clients st)).
  pose proof (export_accepted det now' _ TS) as F.
  set (rows := pipe_rows det now' _) in *.
  split.
  - rewrite load_rows_keys_order; rewrite (Forall2_telephone _ _ F),
      (text_store_keys _ TS); [reflexivity|apply TS].
  - intros p c G. rewrite load_rows_get.
    destruct (last_with_phone_reconstructed _ _ _ _ TS F G) as (c' & L & R).
    exists c'. split; [exact L|exact R].
Qed.

(* ================================================================== *)
(** * Part III: further properties of the code                         *)
(* ================================================================== *)

(** ** Cleaning and classifying identifiers *)

(** An ASCII character other than a capital letter comes from itself
    only. *)
Lemma upper_of_plain (c d : char) :
  In d (upper_of c) -> is_ascii d = true -> in_range 65 90 d = false ->
  d = c.
Proof.
  intros I A R. destruct (upper_of_source c d I A) as [E|E]; [exact E|].
  congruence.
Qed.

(** A character that upper-casing leaves alone is no lower-case ASCII
    letter. *)
Lemma upper_of_fixed_not_lower (c : char) :
  upper_of c = [c] -> in_range 97 122 c = false.
Proof.
  intros E. destruct (is_ascii c) eqn:A.
  - rewrite (upper_of_ascii c A) in E. injection E as E.
    unfold ascii_upper in E. destruct (in_range 97 122 c) eqn:R; [|reflexivity].
    unfold in_range in R. apply andb_true_iff in R as [R _].
    apply N.leb_le in R. lia.
  - unfold is_ascii in A. apply N.ltb_ge in A. unfold in_range.
    apply andb_false_iff. right. apply N.leb_gt. lia.
Qed.

Lemma remove_char_In (x c : char) (s : str) :
  In c (remove_char x s) <-> In c s /\ c <> x.
Proof.
  unfold remove_char. rewrite filter_In, negb_true_iff, N.eqb_neq. tauto.
Qed.

Lemma clean_iban_chars (s : str) (c : char) :
  In c (clean_iban s) ->
  c <> " "%char /\ c <> "-"%char /\ upper_of c = [c].
Proof.
  rewrite clean_iban_eq. intros H.
  apply upper_In in H as (d & H & I).
  apply remove_char_In in H as [H N1]. apply remove_char_In in H as [_ N2].
  repeat split.
  - intros ->. apply N2. symmetry.
    now apply (upper_of_plain d " "%char I).
  - intros ->. apply N1. symmetry.
    now apply (upper_of_plain d "-"%char I).
  - now apply (upper_of_fixed d).
Qed.

Lemma clean_iban_fixed (t : str) :
  (forall c, In c t -> c <> " "%char /\ c <> "-"%char /\ upper_of c = [c]) ->
  clean_iban t = t.
Proof.
  intros H. rewrite clean_iban_eq. unfold remove_char.
  rewrite (filter_id _ t), (filter_id _ t).
  - apply upper_fixed. intros c I. now destruct (H c I) as (_ & _ & E).
  - apply forallb_forall. intros c I. destruct (H c I) as (_ & N2 & _).
    now apply negb_true_iff, N.eqb_neq.
  - apply forallb_forall. intros c I. destruct (H c I) as (N1 & _ & _).
    now apply negb_true_iff, N.eqb_neq.
Qed.

Lemma clean_iban_idem (s : str) : clean_iban (clean_iban s) = clean_iban s.
Proof. apply clean_iban_fixed, clean_iban_chars. Qed.

Lemma filter_length_le {A} (f : A -> bool) (l : list A) :
  length (filter f l) <= length l.
Proof.
  induction l as [|a l IH]; simpl; [lia|]. destruct (f a); simpl; lia.
Qed.

(** X1: cleaning an identifier twice is cleaning it once; the cleaned
    identifier holds no space, no hyphen and no lower-case ASCII letter;
    the cleaned form of an ASCII identifier is not longer than the
    identifier (upper-casing lengthens some others: "ß" becomes "SS"). *)
Theorem clean_iban_idempotent (s : str) :
  clean_iban (clean_iban s) = clean_iban s /\
  (forall c, In c (clean_iban s) ->
             c <> " "%char /\ c <> "-"%char /\ in_range 97 122 c = false) /\
  (forallb is_ascii s = true -> length (clean_iban s) <= length s).
Proof.
  split; [apply clean_iban_idem|]. split.
  - intros c I. destruct (clean_iban_chars s c I) as (N1 & N2 & E).
    repeat split; try assumption. now apply upper_of_fixed_not_lower.
  - intros A. rewrite clean_iban_eq, upper_ascii, length_map.
    + unfold remove_char.
      etransitivity; [apply filter_length_le|apply filter_length_le].
    + unfold remove_char. now do 2 apply forallb_filter_keep.
Qed.

Lemma detect_bank_cleaned (det : IBANDetector) (s : str) :
  detect_bank det s =
  if truthy (clean_iban s) then detect_local det (clean_iban s) else NA.
Proof.
  unfold detect_bank. destruct s as [|c s]; [reflexivity|].
  cbn [truthy negb]. now destruct (truthy (clean_iban (c :: s))).
Qed.

Lemma extract_bank_code_cleaned (s : str) :
  extract_bank_code s =
  if (length (clean_iban s) <? 14) || negb (startswith (clean_iban s) "FR")
  then unknown else slice 4 9 (clean_iban s).
Proof. unfold extract_bank_code. destruct s; reflexivity. Qed.

(** X2: the classification of an identifier depends on its cleaned form
    only: two identifiers that differ in spacing, hyphens or letter case
    get the same display name and the same prefix, and the cleaned
    identifier classifies as the raw one. *)
Theorem classification_by_cleaned_form (det : IBANDetector) (a b : str) :
  clean_iban a = clean_iban b ->
  detect_bank det a = detect_bank det b /\
  extract_bank_code a = extract_bank_code b /\
  detect_bank det (clean_iban a) = detect_bank det a /\
  extract_bank_code (clean_iban a) = extract_bank_code a.
Proof.
  intros E.
  assert (clean_iban (clean_iban a) = clean_iban a) as I
      by apply clean_iban_idem.
  rewrite !detect_bank_cleaned, !extract_bank_code_cleaned, I, E.
  repeat split.
Qed.

(** X3: the prefix of an identifier is "unknown" or has exactly five
    characters; it is "unknown" exactly when the cleaned identifier does
    not start with [FR] or has fewer than 14 characters, and then the
    display name is "N/A", "Banque étrangère" or "IBAN invalide". *)
Theorem extract_bank_code_shape (det : IBANDetector) (s : str) :
  (extract_bank_code s = unknown \/ length (extract_bank_code s) = 5) /\
  (extract_bank_code s = unknown <->
   startswith (clean_iban s) "FR" = false \/ length (clean_iban s) < 14) /\
  (extract_bank_code s = unknown ->
   detect_bank det s = NA \/ detect_bank det s = Banque_etrangere \/
   detect_bank det s = IBAN_invalide).
Proof.
  rewrite extract_bank_code_cleaned, detect_bank_cleaned.
  set (c := clean_iban s). unfold detect_local.
  destruct (startswith c "FR") eqn:F; cbn [negb].
  - rewrite orb_false_r. destruct (length c <? 14) eqn:L.
    + apply Nat.ltb_lt in L. split; [now left|]. split.
      * split; [now right|reflexivity].
      * intros _. destruct (truthy c); tauto.
    + apply Nat.ltb_ge in L.
      assert (length (slice 4 9 c) = 5) as L5
          by (rewrite (slice_4_9 c " "%char); [reflexivity|lia]).
      split; [now right|]. split.
      * split; [|intros [H|H]; [discriminate|lia]].
        intros E. rewrite E in L5. discriminate L5.
      * intros E. rewrite E in L5. discriminate L5.
  - rewrite orb_true_r. split; [now left|]. split.
    + split; [now left|reflexivity].
    + intros _. destruct (truthy c); tauto.
Qed.

(** X4: the bank detection written out in the loaders files a record
    under the prefix [extract_bank_code] gives; its display name is the
    one of [detect_bank] behind the bank emoji whenever the cleaned
    identifier is not empty, and "N/A" for an empty identifier; for an
    identifier of spaces and hyphens only, the loaders say
    "Banque étrangère" where [detect_bank] says "N/A". *)
Theorem detect_row_bank_agrees (det : IBANDetector) (s : str) :
  snd (fst (detect_row_bank det s)) = extract_bank_code s /\
  (s = [] -> detect_row_bank det s = (NA, unknown, false)) /\
  (clean_iban s <> [] ->
   fst (fst (detect_row_bank det s)) = "🏦 " ++ detect_bank det s) /\
  (s <> [] -> clean_iban s = [] ->
   fst (fst (detect_row_bank det s)) = "🏦 " ++ Banque_etrangere /\
   detect_bank det s = NA).
Proof.
  destruct s as [|x s].
  { split; [reflexivity|]. split; [intros _; reflexivity|].
    split; intros H; exfalso; apply H; reflexivity. }
  set (i := x :: s).
  assert (detect_row_bank det i =
          (let c := clean_iban i in
           let '(n, p) :=
             if (length c <? 14) || negb (startswith c "FR") then
               if negb (startswith c "FR") then (Banque_etrangere, false)
               else (IBAN_invalide, false)
             else
               match dict_get (extract_bank_code i) (all_banks det) with
               | Some name =>
                   if truthy name then (name, true)
                   else (Banque_francaise (extract_bank_code i), false)
               | None => (Banque_francaise (extract_bank_code i), false)
               end in
           ("🏦 " ++ n, extract_bank_code i, p))) as R by reflexivity.
  rewrite R. cbv zeta. clear R.
  rewrite detect_bank_cleaned. unfold detect_local.
  pose proof (extract_bank_code_cleaned i) as X.
  set (c := clean_iban i) in *.
  split; [|split; [discriminate|split]].
  - destruct (_ || _); [destruct (negb _)|
      destruct (dict_get _ _) as [n|]; [destruct (truthy n)|]]; reflexivity.
  - intros N. assert (truthy c = true) as T
        by (destruct c; [congruence|reflexivity]).
    rewrite T. destruct (startswith c "FR") eqn:F; cbn [negb].
    + rewrite orb_false_r in *. destruct (length c <? 14); [reflexivity|].
      rewrite X.
      destruct (dict_get _ _) as [n|]; [destruct (truthy n)|]; reflexivity.
    + rewrite orb_true_r. reflexivity.
  - intros _ E. rewrite E. split; reflexivity.
Qed.

(** ** Rows the loaders accept *)

Lemma detect_row_bank_code (det : IBANDetector) (s : str) :
  snd (fst (detect_row_bank det s)) = extract_bank_code s.
Proof.
  destruct s as [|x s]; [reflexivity|].
  unfold detect_row_bank. cbn [truthy negb orb str_eqb]. cbv zeta.
  destruct (_ || _); [destruct (negb _)|
    destruct (dict_get _ _) as [n|]; [destruct (truthy n)|]]; reflexivity.
Qed.

Lemma split_length (sep : char) (s : str) :
  length (split sep s) = S (count_occ N.eq_dec s sep).
Proof.
  induction s as [|c s IH]; [reflexivity|]. simpl.
  destruct (N.eqb c sep) eqn:E.
  - apply N.eqb_eq in E. subst c.
    destruct (N.eq_dec sep sep); [|congruence]. simpl. now rewrite IH.
  - apply N.eqb_neq in E.
    destruct (N.eq_dec c sep); [congruence|].
    destruct (split sep s); simpl in *; [discriminate IH|exact IH].
Qed.

Lemma parse_pipe_line_loaded det now (line : str) c b :
  parse_pipe_line det now line = Some (c, b) ->
  normalize_phone (part 0 (split "|" line)) = Some (telephone c) /\
  loaded_record c /\
  iban c = part 6 (split "|" line).
Proof.
  unfold parse_pipe_line.
  destruct (negb (truthy (strip line))); [discriminate|]. cbv zeta.
  destruct (length (split "|" line) <? 7); [discriminate|].
  destruct (normalize_phone _) as [t|] eqn:En; [|discriminate].
  destruct (negb (truthy t)); [discriminate|].
  destruct (split_name _) as [n p].
  destruct (split_ville _) as [v cp].
  pose proof (detect_row_bank_code det (part 6 (split "|" line))) as D.
  destruct (detect_row_bank det _) as [[bq bc] pr].
  intros [= <- <-]. simpl in D. subst bc.
  split; [reflexivity|]. split; [|reflexivity].
  repeat split. cbn [telephone client_data].
  eapply normalize_phone_idem; eauto.
Qed.

Lemma parse_excel_row_loaded det now mapping (row : list cell) c b :
  parse_excel_row det now mapping row = Some (c, b) ->
  normalize_phone (get_cell mapping row "telephone") = Some (telephone c) /\
  loaded_record c.
Proof.
  unfold parse_excel_row.
  destruct (forallb empty_cell row); [discriminate|]. cbv zeta.
  destruct (normalize_phone _) as [t|] eqn:En; [|discriminate].
  destruct (negb (truthy t)); [discriminate|].
  match goal with
  | |- context [let '(_, _) := ?e in _] => destruct e as [n p]
  end.
  pose proof (detect_row_bank_code det (get_cell mapping row "iban")) as D.
  destruct (detect_row_bank det _) as [[bq bc] pr].
  intros [= <- <-]. simpl in D. subst bc.
  split; [reflexivity|].
  repeat split. cbn [telephone client_data].
  eapply normalize_phone_idem; eauto.
Qed.

(** X5: the text loader skips a line exactly when the line is blank, or
    holds fewer than six delimiters (fewer than seven fields), or its
    first field does not normalise to a phone; a line it accepts gives a
    record under that normalised phone, with the seventh field, stripped,
    as identifier. *)
Theorem parse_pipe_line_accepts det now (line : str) :
  (parse_pipe_line det now line = None <->
   strip line = [] \/
   count_occ N.eq_dec line "|"%char < 6 \/
   normalize_phone (part 0 (split "|" line)) = None) /\
  (forall c b,
     parse_pipe_line det now line = Some (c, b) ->
     normalize_phone (part 0 (split "|" line)) = Some (telephone c) /\
     iban c = part 6 (split "|" line) /\
     statut c = Prospect /\ nb_appels c = 0).
Proof.
  split.
  - unfold parse_pipe_line. rewrite split_length.
    destruct (strip line) as [|x l] eqn:Es; cbn [truthy negb];
      [split; [now left|reflexivity]|].
    cbv zeta. destruct (S (count_occ _ _ _) <? 7) eqn:L.
    + apply Nat.ltb_lt in L. split; [right; left; lia|reflexivity].
    + apply Nat.ltb_ge in L.
      destruct (normalize_phone _) as [t|] eqn:En;
        [|split; [now right; right|reflexivity]].
      destruct (normalize_phone_truthy _ _ En) as [_ Tt]. rewrite Tt.
      cbn [negb].
      destruct (split_name _) as [n p].
      destruct (split_ville _) as [v cp].
      destruct (detect_row_bank det _) as [[bq bc] pr].
      split; [discriminate|].
      intros [H|[H|H]]; [discriminate|lia|discriminate].
  - intros c b H. pose proof H as H'.
    apply parse_pipe_line_loaded in H as (P & (_ & St & _) & I).
    repeat split; try assumption.
    revert H'. unfold parse_pipe_line.
    destruct (negb _); [discriminate|]. cbv zeta.
    destruct (_ <? 7); [discriminate|].
    destruct (normalize_phone _); [|discriminate].
    destruct (negb _); [discriminate|].
    destruct (split_name _), (split_ville _).
    destruct (detect_row_bank det _) as [[bq bc] pr].
    now intros [= <- <-].
Qed.

(** ** Ingestion as a whole *)

(** X6: an ingestion replaces the store wholesale: the phone-keyed map,
    the grouping index and the result it gives do not depend on what the
    store held before, and neither do the statistics, the file name
    apart. *)
Theorem ingest_replaces_store (now : str) (input : ingestion)
  (st1 st2 : State) :
  iban_detector st1 = iban_detector st2 ->
  snd (ingest now input st1) = snd (ingest now input st2) /\
  clients_database (fst (ingest now input st1))
    = clients_database (fst (ingest now input st2)) /\
  clients_by_bank (fst (ingest now input st1))
    = clients_by_bank (fst (ingest now input st2)) /\
  (forall n, snd (ingest now input st1) = Loaded n ->
     total_clients (upload_stats (fst (ingest now input st1)))
       = total_clients (upload_stats (fst (ingest now input st2))) /\
     banks_detected (upload_stats (fst (ingest now input st1)))
       = banks_detected (upload_stats (fst (ingest now input st2))) /\
     last_upload (upload_stats (fst (ingest now input st1))) = Some now).
Proof.
  intros E.
  destruct input as [content|[e|[|first_row data_rows]]];
    cbn [ingest load_clients_from_pipe_file load_clients_from_excel
         fst snd reset_clients iban_detector finish_loading
         clients_database clients_by_bank upload_stats
         total_clients banks_detected last_upload];
    rewrite ?E; repeat split; discriminate.
Qed.

Lemma strip_blank (s : str) : forallb is_space s = true -> strip s = [].
Proof.
  intros H. unfold strip, lstrip.
  assert (dropwhile is_space s = []) as ->; [|reflexivity].
  induction s as [|c s IH]; [reflexivity|]. simpl in *.
  apply andb_true_iff in H as [-> H]. now apply IH.
Qed.

(** X7: a text of white space only, and a sheet with a header row and no
    other row, load no client: the count is 0, the store and the index
    are empty, and the statistics count 0 clients. *)
Theorem empty_batches_load_nothing (now : str) (input : ingestion) (st : State) :
  (exists content, input = FromText content /\ forallb is_space content = true) \/
  (exists first_row, input = FromExcel (Workbook [first_row])) ->
  snd (ingest now input st) = Loaded 0 /\
  clients_database (fst (ingest now input st)) = [] /\
  clients_by_bank (fst (ingest now input st)) = [] /\
  total_clients (upload_stats (fst (ingest now input st))) = 0.
Proof.
  intros [(content & -> & B)|(first_row & ->)]; [|repeat split].
  cbn [ingest]. unfold load_clients_from_pipe_file, pipe_rows.
  rewrite (strip_blank _ B). repeat split.
Qed.

(** ** The store and its index across requests *)

Lemma extract_bank_code_length (s : str) :
  extract_bank_code s = unknown \/ length (extract_bank_code s) = 5.
Proof.
  rewrite extract_bank_code_cleaned.
  destruct (length (clean_iban s) <? 14) eqn:L; [now left|].
  destruct (negb _); [now left|]. right.
  apply Nat.ltb_ge in L. rewrite (slice_4_9 _ " "%char); [reflexivity|lia].
Qed.

Lemma dict_append_get (k x k' : str) (d : dict (list str)) :
  dict_get k' (dict_append k x d) =
  if str_eqb k' k
  then Some (match dict_get k d with Some l => l ++ [x] | None => [x] end)
  else dict_get k' d.
Proof.
  unfold dict_append. destruct (dict_get k d); apply dict_get_set.
Qed.

Lemma dict_append_In (k x b : str) (l : list str) (d : dict (list str)) :
  In (b, l) (dict_append k x d) ->
  (b = k /\ exists old, l = old ++ [x]) \/ In (b, l) d.
Proof.
  unfold dict_append. destruct (dict_get k d) as [old|]; intros H;
    apply dict_set_In in H as [[-> ->]|H]; try (now right); left;
    (split; [reflexivity|]); [now exists old|now exists []].
Qed.

Lemma dict_append_NoDup (k x : str) (d : dict (list str)) :
  NoDup (dict_keys d) -> NoDup (dict_keys (dict_append k x d)).
Proof.
  unfold dict_append. destruct (dict_get k d); apply dict_set_NoDup.
Qed.

Lemma load_rows_by_bank_NoDup rows :
  NoDup (dict_keys (ld_by_bank (load_rows rows))).
Proof.
  induction rows as [|[[c b]|] rows IH] using rev_ind; [constructor| |].
  - rewrite load_rows_snoc. simpl. now apply dict_append_NoDup.
  - now rewrite load_rows_snoc.
Qed.

(** Every accepted record has its phone filed under its own prefix. *)
Lemma load_rows_filed rows c :
  In c (accepted rows) ->
  exists phones,
    dict_get (bank_code c) (ld_by_bank (load_rows rows)) = Some phones /\
    In (telephone c) phones.
Proof.
  induction rows as [|[[c0 b]|] rows IH] using rev_ind; [intros []| |].
  - rewrite load_rows_snoc, accepted_app. simpl. intros H.
    rewrite dict_append_get.
    apply in_app_or in H as [H|[<-|[]]].
    + destruct (IH H) as (phones & G & I).
      destruct (str_eqb (bank_code c) (bank_code c0)) eqn:E; [|eauto].
      apply str_eqb_eq in E. rewrite <- E, G.
      eexists. split; [reflexivity|]. apply in_or_app. now left.
    + rewrite str_eqb_refl. eexists. split; [reflexivity|].
      destruct (dict_get _ _); [apply in_or_app; right|]; now left.
  - rewrite load_rows_snoc, accepted_app. simpl. now rewrite app_nil_r.
Qed.

(** Every group is the non-empty group of the prefix of an accepted
    record. *)
Lemma load_rows_group rows b phones :
  In (b, phones) (ld_by_bank (load_rows rows)) ->
  phones <> [] /\ exists c, In c (accepted rows) /\ b = bank_code c.
Proof.
  induction rows as [|[[c0 x]|] rows IH] using rev_ind; [intros []| |].
  - rewrite load_rows_snoc, accepted_app. simpl. intros H.
    apply dict_append_In in H as [[-> (old & ->)]|H].
    + split; [destruct old; discriminate|].
      exists c0. split; [apply in_or_app; right; now left|reflexivity].
    + destruct (IH H) as (N & c & I & E). split; [exact N|].
      exists c. split; [apply in_or_app; now left|exact E].
  - rewrite load_rows_snoc, accepted_app. simpl. now rewrite app_nil_r.
Qed.

Lemma load_rows_consistent now st rows :
  (forall c, In c (accepted rows) -> loaded_record c) ->
  consistent (finish_loading now st (load_rows rows)).
Proof.
  intros L. unfold consistent.
  cbn [finish_loading clients_database clients_by_bank].
  split; [apply load_rows_NoDup|]. split; [apply load_rows_by_bank_NoDup|].
  split.
  - intros k c I. apply load_rows_In in I as [-> I].
    split; [reflexivity|]. split; [now apply L|].
    now apply load_rows_filed.
  - intros b phones I. destruct (load_rows_group _ _ _ I) as (N & c & Ic & ->).
    split; [exact N|]. split.
    + destruct (L c Ic) as (_ & _ & ->). apply extract_bank_code_length.
    + intros p Ip. apply dict_mem_keys, load_rows_keys.
      apply (Permutation_in _ (load_rows_grouped rows)).
      apply in_concat. exists phones. split; [|exact Ip].
      now apply (in_map snd) in I.
Qed.

Lemma consistent_empty st :
  clients_database st = [] -> clients_by_bank st = [] -> consistent st.
Proof.
  intros E1 E2. unfold consistent. rewrite E1, E2.
  repeat split; try constructor; intros; contradiction.
Qed.

Lemma consistent_same st st' :
  clients_database st' = clients_database st ->
  clients_by_bank st' = clients_by_bank st ->
  consistent st -> consistent st'.
Proof. unfold consistent. now intros -> ->. Qed.

Lemma ingestion_rows_loaded det now input c :
  In c (accepted (ingestion_rows det now input)) -> loaded_record c.
Proof.
  destruct input as [content|[e|[|first_row data_rows]]]; simpl;
    try contradiction.
  - unfold pipe_rows. intros H.
    apply accepted_map_In in H as (line & b & _ & E).
    now apply parse_pipe_line_loaded in E.
  - unfold excel_rows. intros H.
    apply accepted_map_In in H as (row & b & _ & E).
    now apply parse_excel_row_loaded in E.
Qed.

Lemma ingest_consistent now input st : consistent (fst (ingest now input st)).
Proof.
  destruct (snd (ingest now input st)) as [n|m] eqn:E.
  - destruct (ingest now input st) as [st' r] eqn:I. simpl in E. subst r.
    apply ingest_Loaded in I as [-> _]. simpl fst.
    apply load_rows_consistent. intros c. apply ingestion_rows_loaded.
  - destruct input as [content|[e|[|first_row data_rows]]];
      try discriminate E; now apply consistent_empty.
Qed.

Lemma upload_file_consistent now file st :
  consistent st -> consistent (fst (upload_file now file st)).
Proof.
  intros C. unfold upload_file.
  destruct (negb _); [exact C|].
  destruct (_ || _).
  - pose proof (ingest_consistent now (FromExcel (opened file)) st) as H.
    cbn [ingest] in H.
    destruct (load_clients_from_excel now (opened file) st) as [st' [n|m]];
      [|exact H].
    eapply consistent_same; [| |exact H]; reflexivity.
  - destruct (decoded file) as [e|content]; [exact C|].
    pose proof (ingest_consistent now (FromText content) st) as H.
    cbn [ingest] in H.
    destruct (load_clients_from_pipe_file now content st) as [st' [n|m]];
      [|exact H].
    eapply consistent_same; [| |exact H]; reflexivity.
Qed.

Lemma record_call_loaded now c : loaded_record c -> loaded_record (record_call now c).
Proof. intros H. exact H. Qed.

Lemma get_client_info_consistent now p st :
  consistent st -> consistent (fst (get_client_info now p st)).
Proof.
  intros C. unfold get_client_info.
  destruct (negb (truthy p)); [exact C|].
  destruct (normalize_phone p) as [n|]; [|exact C].
  destruct (truthy n); [|exact C].
  destruct (dict_get n (clients_database st)) as [stored|] eqn:G; [|exact C].
  destruct C as (N1 & N2 & R & I).
  cbn [fst]. unfold consistent.
  cbn [set_clients_database clients_database clients_by_bank].
  split; [now apply dict_set_NoDup|]. split; [exact N2|]. split.
  - intros k c H. apply dict_set_In in H as [[-> ->]|H]; [|now apply R].
    apply dict_get_Some_In in G. exact (R _ _ G).
  - intros b phones H. destruct (I b phones H) as (Ne & Sb & M).
    split; [exact Ne|]. split; [exact Sb|].
    intros q Iq. specialize (M q Iq). unfold dict_mem in *.
    rewrite dict_get_set. now destruct (str_eqb q n).
Qed.

Lemma handle_consistent st r : consistent st -> consistent (handle st r).
Proof.
  intros C. destruct r; simpl.
  - now apply upload_file_consistent.
  - now apply get_client_info_consistent.
  - now apply consistent_empty.
  - exact C.
Qed.

Lemma run_consistent requests st :
  consistent st -> consistent (run requests st).
Proof.
  revert st. induction requests as [|r rs IH]; intros st C; [exact C|].
  unfold run in *. simpl. apply IH. now apply handle_consistent.
Qed.

Lemma reachable_consistent requests : consistent (run requests initial_state).
Proof. apply run_consistent. now apply consistent_empty. Qed.

(** X8: whatever requests the process has served, every record of the
    store is kept under its own phone, no phone twice; that phone is
    canonical, the record is a prospect, and its prefix is the prefix of
    its identifier. *)
Theorem reachable_store_records (requests : list request) (k : str)
  (c : ClientRecord) :
  In (k, c) (clients_database (run requests initial_state)) ->
  NoDup (dict_keys (clients_database (run requests initial_state))) /\
  dict_get k (clients_database (run requests initial_state)) = Some c /\
  k = telephone c /\
  normalize_phone k = Some k /\
  statut c = Prospect /\
  bank_code c = extract_bank_code (iban c).
Proof.
  intros I. destruct (reachable_consistent requests) as (N & _ & R & _).
  destruct (R k c I) as (E & (P & S & B) & _).
  split; [exact N|]. split; [now apply dict_In_get|].
  split; [exact E|]. split; [now rewrite E|]. now split.
Qed.

(** X9: whatever requests the process has served, every phone filed in
    the grouping index is a key of the store, no group is empty, every
    group key is "unknown" or a prefix of five characters, and the phone
    of every record of the store is filed under the prefix of that
    record. *)
Theorem reachable_index_agrees (requests : list request) :
  let st := run requests initial_state in
  (forall b phones,
     In (b, phones) (clients_by_bank st) ->
     phones <> [] /\ (b = unknown \/ length b = 5) /\
     forall p, In p phones -> dict_mem p (clients_database st) = true) /\
  (forall k c,
     In (k, c) (clients_database st) ->
     exists phones,
       dict_get (bank_code c) (clients_by_bank st) = Some phones /\
       In k phones) /\
  NoDup (dict_keys (clients_by_bank st)).
Proof.
  intros st. destruct (reachable_consistent requests) as (_ & N & R & I).
  split; [exact I|]. split; [|exact N].
  intros k c H. now destruct (R k c H) as (_ & _ & F).
Qed.

(** ** Lookups *)

Lemma search_client_eq now phone st :
  search_client now phone st =
  (fst (get_client_info now phone st),
   (snd (get_client_info now phone st),
    negb (str_eqb (statut (snd (get_client_info now phone st))) Non_reference))).
Proof.
  unfold search_client. now destruct (get_client_info now phone st).
Qed.

(** X10: whatever requests the process has served, [search_client]
    answers [found] exactly when the phone normalises to a key of the
    store. *)
Theorem search_client_found (requests : list request) (now phone : str) :
  let st := run requests initial_state in
  snd (snd (search_client now phone st)) = true <->
  exists n, normalize_phone phone = Some n /\
            dict_mem n (clients_database st) = true.
Proof.
  intros st. rewrite search_client_eq. cbn [snd].
  destruct (reachable_consistent requests) as (_ & _ & R & _). fold st in R.
  destruct (normalize_phone phone) as [n|] eqn:En.
  - destruct (dict_get n (clients_database st)) as [stored|] eqn:G.
    + rewrite (get_client_info_hit _ _ _ _ _ En G). cbn [snd].
      destruct (R _ _ (dict_get_Some_In _ _ _ G)) as (_ & (_ & -> & _) & _).
      split; [intros _|reflexivity].
      exists n. split; [reflexivity|]. unfold dict_mem. now rewrite G.
    + rewrite get_client_info_miss by (right; eauto). cbn [snd].
      split; [discriminate|]. intros (m & [= <-] & M).
      unfold dict_mem in M. rewrite G in M. discriminate M.
  - rewrite get_client_info_miss by now left. cbn [snd].
    split; [discriminate|]. intros (m & E & _). discriminate E.
Qed.

(** X11: two spellings of a phone that normalise alike are the same
    lookup: they leave the same state, and for a stored phone they return
    the same record. *)
Theorem lookup_by_normalised_phone (now a b : str) (st : State) :
  normalize_phone a = normalize_phone b ->
  fst (get_client_info now a st) = fst (get_client_info now b st) /\
  (forall n,
     normalize_phone a = Some n ->
     dict_mem n (clients_database st) = true ->
     snd (get_client_info now a st) = snd (get_client_info now b st)).
Proof.
  intros E. destruct (normalize_phone a) as [n|] eqn:Ea.
  - symmetry in E. destruct (dict_get n (clients_database st)) as [c|] eqn:G.
    + rewrite (get_client_info_hit _ _ _ _ _ Ea G),
        (get_client_info_hit _ _ _ _ _ E G). now split.
    + rewrite !get_client_info_miss by (right; eauto). split; [reflexivity|].
      intros m [= <-] M. unfold dict_mem in M. rewrite G in M. discriminate M.
  - symmetry in E. rewrite !get_client_info_miss by now left.
    split; [reflexivity|]. discriminate.
Qed.

Lemma same_but_calls_refl c : same_but_calls c c.
Proof. repeat split. Qed.

Lemma same_but_calls_trans c1 c2 c3 :
  same_but_calls c1 c2 -> same_but_calls c2 c3 -> same_but_calls c1 c3.
Proof.
  unfold same_but_calls. intros H1 H2.
  repeat match goal with H : _ /\ _ |- _ => destruct H end.
  repeat split; congruence.
Qed.

(** The effect of one lookup on the record of a stored phone. *)
Lemma get_client_info_record now phone st p c :
  dict_get p (clients_database st) = Some c ->
  dict_get p (clients_database (fst (get_client_info now phone st))) =
  match normalize_phone phone with
  | Some n => if str_eqb n p then Some (record_call now c) else Some c
  | None => Some c
  end.
Proof.
  intros G. destruct (normalize_phone phone) as [n|] eqn:En.
  - destruct (str_eqb n p) eqn:E.
    + apply str_eqb_eq in E. subst n.
      rewrite (get_client_info_hit _ _ _ _ _ En G). cbn [fst].
      apply dict_get_set_eq.
    + apply str_eqb_neq in E.
      destruct (dict_get n (clients_database st)) as [c'|] eqn:G'.
      * rewrite (get_client_info_hit _ _ _ _ _ En G'). cbn [fst].
        cbn [set_clients_database clients_database].
        now rewrite dict_get_set_neq.
      * now rewrite get_client_info_miss by (right; eauto).
  - now rewrite get_client_info_miss by now left.
Qed.

(** X12: after a sequence of lookups, the call count of a stored phone
    has grown by the number of lookups whose phone normalises to it,
    whatever the other lookups were; nothing else of the record has
    changed but the last-call time, and the count never decreases. *)
Theorem lookups_count_calls (calls : list (str * str)) (st : State)
  (p : str) (c : ClientRecord) :
  dict_get p (clients_database st) = Some c ->
  exists c',
    dict_get p (clients_database (lookups calls st)) = Some c' /\
    nb_appels c' = nb_appels c + length (calls_to p calls) /\
    nb_appels c <= nb_appels c' /\
    same_but_calls c c' /\
    (calls_to p calls = [] -> c' = c).
Proof.
  revert st c. induction calls as [|[now phone] calls IH]; intros st c G.
  - exists c. split; [exact G|]. split; [cbn; lia|]. split; [lia|].
    split; [apply same_but_calls_refl|reflexivity].
  - unfold lookups in *. cbn [fold_left fst snd].
    pose proof (get_client_info_record now phone st p c G) as G1.
    unfold calls_to in *. cbn [filter snd].
    destruct (normalize_phone phone) as [n|]; [destruct (str_eqb n p)|].
    + destruct (IH _ _ G1) as (c' & G' & N & _ & S & _).
      exists c'. split; [exact G'|]. cbn [length] in *.
      cbn [nb_appels record_call] in N.
      split; [lia|]. split; [lia|]. split; [|discriminate].
      eapply same_but_calls_trans; [|exact S]. repeat split.
    + destruct (IH _ _ G1) as (c' & G' & N & L & S & Z). now exists c'.
    + destruct (IH _ _ G1) as (c' & G' & N & L & S & Z). now exists c'.
Qed.

(** X13: [clear_database] reports the number of records the store held
    and leaves the store, the index and the statistics empty; after it
    every lookup returns the placeholder and changes nothing, and the
    text export is empty. *)
Theorem clear_database_empties (st : State) (now phone : str) :
  let st' := fst (clear_database st) in
  snd (clear_database st) = dict_len (clients_database st) /\
  clients_database st' = [] /\ clients_by_bank st' = [] /\
  upload_stats st' = empty_stats /\
  iban_detector st' = iban_detector st /\
  get_client_info now phone st' = (st', create_unknown_client phone) /\
  generate_all_clients_file st' = [] /\
  (forall bank_code, generate_bank_file bank_code st' = NoFile).
Proof.
  intros st'. subst st'. cbn [clear_database fst snd].
  repeat split.
  apply get_client_info_miss.
  destruct (normalize_phone phone) as [n|]; [right|now left].
  exists n. now split.
Qed.

(** ** The export of one bank *)

Lemma bank_lines_found (db : dict ClientRecord) (phones : list str) :
  (forall p, In p phones -> dict_mem p db = true) ->
  exists records,
    bank_lines db phones = inr (map export_line records) /\
    Forall2 (fun p c => dict_get p db = Some c) phones records.
Proof.
  induction phones as [|p phones IH]; intros H.
  - exists []. split; [reflexivity|constructor].
  - destruct IH as (records & E & F); [intros q I; apply H; now right|].
    specialize (H p (or_introl eq_refl)). unfold dict_mem in H.
    destruct (dict_get p db) as [c|] eqn:G; [|discriminate H].
    exists (c :: records). cbn [bank_lines map]. rewrite G, E.
    split; [reflexivity|]. now constructor.
Qed.

(** X14: whatever requests the process has served, the text export of a
    bank never fails on a missing record: for a prefix that is not in the
    index it gives no file, and for a prefix of the index it gives a text
    file with one line per filed phone, in the order of the group, each
    the export line of the record stored under that phone. *)
Theorem generate_bank_file_succeeds (requests : list request)
  (bank_code : str) :
  let st := run requests initial_state in
  (dict_get bank_code (clients_by_bank st) = None ->
   generate_bank_file bank_code st = NoFile) /\
  (forall phones,
     dict_get bank_code (clients_by_bank st) = Some phones ->
     exists records filename,
       generate_bank_file bank_code st
         = File (join [line_feed] (map export_line records)) filename
                "text/plain" /\
       Forall2 (fun p c => dict_get p (clients_database st) = Some c)
               phones records /\
       length records = length phones).
Proof.
  intros st. unfold generate_bank_file, dict_mem. split.
  - now intros ->.
  - intros phones G. rewrite G. cbn [negb].
    destruct (reachable_consistent requests) as (_ & _ & _ & I). fold st in I.
    destruct (I _ _ (dict_get_Some_In _ _ _ G)) as (_ & _ & M).
    destruct (bank_lines_found _ _ M) as (records & E & F).
    rewrite E. exists records. eexists. split; [reflexivity|].
    split; [exact F|]. symmetry. eapply Forall2_length; eauto.
Qed.

Lemma dict_append_In_old (k x b : str) (l : list str) (d : dict (list str)) :
  In (b, l) (dict_append k x d) ->
  (b = k /\
   l = match dict_get k d with Some old => old | None => [] end ++ [x]) \/
  In (b, l) d.
Proof.
  unfold dict_append. destruct (dict_get k d) as [old|]; intros H;
    apply dict_set_In in H as [[-> ->]|H]; try (now right); now left.
Qed.

(** Every phone of a group is the phone of an accepted record of the
    prefix of the group. *)
Lemma load_rows_group_member rows b phones p :
  In (b, phones) (ld_by_bank (load_rows rows)) -> In p phones ->
  exists c, In c (accepted rows) /\ telephone c = p /\ bank_code c = b.
Proof.
  revert phones.
  induction rows as [|[[c0 x]|] rows IH] using rev_ind; intros phones;
    [intros []| |].
  - rewrite load_rows_snoc, accepted_app. simpl. intros H Ip.
    assert (forall l, In (b, l) (ld_by_bank (load_rows rows)) -> In p l ->
              exists c, In c (accepted rows ++ [c0]) /\
                        telephone c = p /\ bank_code c = b) as K.
    { intros l Hl Il. destruct (IH l Hl Il) as (c & I & E).
      exists c. split; [apply in_or_app; now left|exact E]. }
    apply dict_append_In_old in H as [[-> ->]|H]; [|now apply (K phones)].
    apply in_app_or in Ip as [Ip|[<-|[]]].
    + destruct (dict_get _ _) as [old|] eqn:G; [|destruct Ip].
      apply (K old); [now apply dict_get_Some_In|exact Ip].
    + exists c0. split; [apply in_or_app; right; now left|now split].
  - rewrite load_rows_snoc, accepted_app. simpl. rewrite app_nil_r.
    apply IH.
Qed.

Lemma last_with_phone_unique records c :
  NoDup (map telephone records) -> In c records ->
  last_with_phone (telephone c) records = Some c.
Proof.
  intros N I. apply in_split in I as (l1 & l2 & ->).
  apply last_with_phone_last.
  rewrite map_app in N. simpl in N. apply NoDup_remove_2 in N.
  intros H. apply N. apply in_or_app. now right.
Qed.

(** X15: after an ingestion in which no two accepted rows carry the same
    phone, the groups of the index split the store: every phone filed
    under a prefix is the phone of a stored record of that prefix, the
    phones of all the groups together are the keys of the store, each
    once, and the keys are in the order of the rows. *)
Theorem bank_groups_split_store (now : str) (input : ingestion)
  (st st' : State) (n : nat) :
  ingest now input st = (st', Loaded n) ->
  NoDup (map telephone (accepted (ingestion_rows (iban_detector st) now input))) ->
  (forall b phones p,
     In (b, phones) (clients_by_bank st') -> In p phones ->
     exists c, dict_get p (clients_database st') = Some c /\
               telephone c = p /\ bank_code c = b) /\
  Permutation (concat (dict_values (clients_by_bank st')))
              (dict_keys (clients_database st')) /\
  dict_keys (clients_database st')
    = map telephone (accepted (ingestion_rows (iban_detector st) now input)).
Proof.
  intros H N. apply ingest_Loaded in H as [-> _].
  cbn [finish_loading clients_database clients_by_bank reset_clients
       iban_detector].
  set (rows := ingestion_rows (iban_detector st) now input) in *.
  split; [|split].
  - intros b phones p I Ip.
    destruct (load_rows_group_member _ _ _ _ I Ip) as (c & Ic & <- & <-).
    exists c. split; [|now split].
    rewrite load_rows_get. now apply last_with_phone_unique.
  - rewrite (load_rows_keys_order _ N). apply load_rows_grouped.
  - now apply load_rows_keys_order.
Qed.

(** ** The bank statistics *)

Lemma insert_by_count_perm (x : bank_stat) (l : list bank_stat) :
  Permutation (insert_by_count x l) (x :: l).
Proof.
  induction l as [|y l IH]; simpl; [reflexivity|].
  destruct (stat_count y <=? stat_count x); [reflexivity|].
  rewrite IH. apply perm_swap.
Qed.

Lemma sort_by_count_perm (l : list bank_stat) :
  Permutation (sort_by_count l) l.
Proof.
  induction l as [|x l IH]; simpl; [reflexivity|].
  rewrite insert_by_count_perm. now constructor.
Qed.

Lemma insert_by_count_HdRel (x a : bank_stat) (l : list bank_stat) :
  by_count a x -> HdRel by_count a l -> HdRel by_count a (insert_by_count x l).
Proof.
  intros Hx Hl. destruct l as [|y l]; simpl; [now constructor|].
  destruct (stat_count y <=? stat_count x); constructor; [exact Hx|].
  now inversion Hl.
Qed.

Lemma insert_by_count_sorted (x : bank_stat) (l : list bank_stat) :
  Sorted by_count l -> Sorted by_count (insert_by_count x l).
Proof.
  induction l as [|y l IH]; intros S; simpl; [repeat constructor|].
  destruct (stat_count y <=? stat_count x) eqn:E.
  - apply Nat.leb_le in E. constructor; [exact S|]. now constructor.
  - apply Nat.leb_gt in E. inversion S as [|? ? S' H]; subst.
    constructor; [now apply IH|].
    apply insert_by_count_HdRel; [unfold by_count; lia|exact H].
Qed.

Lemma sort_by_count_sorted (l : list bank_stat) :
  Sorted by_count (sort_by_count l).
Proof.
  induction l as [|x l IH]; simpl; [constructor|].
  now apply insert_by_count_sorted.
Qed.

(** The sort is stable: the entries of one count keep their order. *)
Lemma insert_by_count_stable (n : nat) (x : bank_stat) (l : list bank_stat) :
  filter (fun s => stat_count s =? n) (insert_by_count x l)
  = filter (fun s => stat_count s =? n) (x :: l).
Proof.
  induction l as [|y l IH]; [reflexivity|]. cbn [insert_by_count].
  destruct (stat_count y <=? stat_count x) eqn:E; [reflexivity|].
  apply Nat.leb_gt in E. cbn [filter] in *. rewrite IH.
  destruct (stat_count x =? n) eqn:Ex; [|reflexivity].
  apply Nat.eqb_eq in Ex.
  destruct (stat_count y =? n) eqn:Ey; [|reflexivity].
  apply Nat.eqb_eq in Ey. lia.
Qed.

Lemma sort_by_count_stable (n : nat) (l : list bank_stat) :
  filter (fun s => stat_count s =? n) (sort_by_count l)
  = filter (fun s => stat_count s =? n) l.
Proof.
  induction l as [|x l IH]; [reflexivity|]. cbn [sort_by_count fold_right].
  fold (sort_by_count l). rewrite insert_by_count_stable.
  cbn [filter]. now rewrite IH.
Qed.

(** X16: the list of bank statistics of the home page holds one entry for
    each group of the index and no other, with the size of the group as
    count, sorted so that the counts do not increase; entries of the same
    count keep the order of the index; the counts add up to the number of
    phones filed in the index. *)
Theorem bank_stats_sorted (st : State) :
  Sorted by_count (bank_stats st) /\
  Permutation (bank_stats st)
    (map (bank_stat_of (iban_detector st)) (clients_by_bank st)) /\
  (forall n,
     filter (fun s => stat_count s =? n) (bank_stats st)
     = filter (fun s => stat_count s =? n)
         (map (bank_stat_of (iban_detector st)) (clients_by_bank st))) /\
  length (bank_stats st) = dict_len (clients_by_bank st) /\
  list_sum (map stat_count (bank_stats st))
    = length (concat (dict_values (clients_by_bank st))).
Proof.
  unfold bank_stats.
  set (l := map (bank_stat_of (iban_detector st)) (clients_by_bank st)).
  pose proof (sort_by_count_perm l) as P.
  split; [apply sort_by_count_sorted|]. split; [exact P|].
  split; [intros n; apply sort_by_count_stable|]. split.
  - rewrite (Permutation_length P). unfold l. now rewrite length_map.
  - assert (Permutation (map stat_count (sort_by_count l)) (map stat_count l))
      as Pm by now apply Permutation_map.
    assert (forall a b : list nat, Permutation a b -> list_sum a = list_sum b)
      as Sum.
    { induction 1; simpl; try lia. }
    rewrite (Sum _ _ Pm), length_concat. f_equal.
    unfold l, dict_values. rewrite !map_map. apply map_ext.
    now intros [b phones].
Qed.

(** ** The file name of an upload *)

Lemma contains_In (c : char) (s : str) :
  contains [c] s = true <-> In c s.
Proof.
  induction s as [|d s IH]; simpl; [split; [discriminate|tauto]|].
  rewrite orb_true_iff, IH, andb_true_r, N.eqb_eq.
  split; intros [H|H]; auto.
Qed.

Lemma after_last_none (sep : char) (s : str) :
  ~ In sep s -> after_last sep s = None.
Proof.
  induction s as [|c s IH]; [reflexivity|]. intros N. simpl.
  rewrite IH by (intros H; apply N; now right).
  destruct (N.eqb c sep) eqn:E; [|reflexivity].
  apply N.eqb_eq in E. exfalso. apply N. now left.
Qed.

Lemma after_last_app (sep : char) (stem e : str) :
  ~ In sep e -> after_last sep (stem ++ sep :: e) = Some e.
Proof.
  intros N. induction stem as [|c stem IH]; simpl.
  - now rewrite (after_last_none _ _ N), N.eqb_refl.
  - now rewrite IH.
Qed.

Lemma extension_of (stem e : str) :
  ~ In "."%char e -> extension (stem ++ "." ++ e) = lower e.
Proof.
  intros N. unfold extension.
  assert (contains "." (stem ++ "." ++ e) = true) as ->
      by (apply (contains_In "."%char); apply in_or_app; right; now left).
  change (stem ++ "." ++ e) with (stem ++ "."%char :: e).
  now rewrite after_last_app.
Qed.

Lemma extension_none (filename : str) :
  ~ In "."%char filename -> extension filename = [].
Proof.
  intros N. unfold extension.
  destruct (contains "." filename) eqn:C; [|reflexivity].
  apply (contains_In "."%char) in C. contradiction.
Qed.

(** X17: an upload whose file name holds no dot, or whose text after the
    last dot is, in lower case, none of [txt], [xls] and [xlsx], is
    answered with status 400 and changes nothing; a [.txt] upload that
    cannot be decoded is answered with status 500 and changes nothing
    either. *)
Theorem upload_file_rejects (now filename : str) (text : decoding)
  (workbook : file_stream) (st : State) :
  let refused :=
    (st, Failure 400 "Format non supporté. Utilisez .txt, .xls ou .xlsx") in
  (~ In "."%char filename ->
   upload_file now (received_file filename text workbook) st = refused) /\
  (forall stem e,
     filename = stem ++ "." ++ e -> ~ In "."%char e ->
     lower e <> "txt" -> lower e <> "xls" -> lower e <> "xlsx" ->
     upload_file now (received_file filename text workbook) st = refused) /\
  (forall stem e error,
     filename = stem ++ "." ++ e -> ~ In "."%char e -> lower e = "txt" ->
     text = Undecodable error ->
     upload_file now (received_file filename text workbook) st
     = (st, Failure 500 error)).
Proof.
  intros refused. subst refused. unfold upload_file, received_file.
  cbn [file_ext decoded opened file_name]. split; [|split].
  - intros N. now rewrite (extension_none _ N).
  - intros stem e -> N N1 N2 N3. rewrite (extension_of _ _ N).
    apply str_eqb_neq in N1, N2, N3. now rewrite N1, N2, N3.
  - intros stem e error -> N E ->. rewrite (extension_of _ _ N), E.
    reflexivity.
Qed.

(** ** The header row of a spreadsheet *)

Lemma startswith_iff (s p : str) :
  startswith s p = true <-> exists post, s = p ++ post.
Proof.
  split.
  - intros H. eexists. now apply startswith_split.
  - intros (post & ->). apply startswith_app.
Qed.

Lemma contains_iff (needle hay : str) :
  contains needle hay = true <-> exists pre post, hay = pre ++ needle ++ post.
Proof.
  split.
  - induction hay as [|c hay IH]; simpl; rewrite orb_true_iff.
    + intros [H|H]; [|discriminate]. apply startswith_iff in H as (post & E).
      now exists [], post.
    + intros [H|H].
      * apply startswith_iff in H as (post & E). now exists [], post.
      * destruct (IH H) as (pre & post & ->). now exists (c :: pre), post.
  - intros (pre & post & ->). induction pre as [|c pre IH].
    + simpl app. destruct (needle ++ post) as [|c l] eqn:E; simpl;
        rewrite <- E, startswith_app; reflexivity.
    + simpl. rewrite IH. apply orb_true_r.
Qed.

Lemma contains_end (a b hay : str) :
  contains (a ++ b) hay = true -> contains b hay = true.
Proof.
  rewrite !contains_iff. intros (pre & post & ->).
  exists (pre ++ a), post. now rewrite <- !app_assoc.
Qed.

(** X18: a header that holds "prénom", written with the accent, and none
    of "prenom", "tel" and "phone", is taken for the last-name column: it
    holds "nom", and the test for the last name comes before the test for
    the first name. *)
Theorem header_key_accented_prenom (header_lower : str) :
  contains "prénom" header_lower = true ->
  contains "prenom" header_lower = false ->
  contains "tel" header_lower = false ->
  contains "phone" header_lower = false ->
  header_key header_lower = Some ("nom" : str).
Proof.
  intros A P T H.
  assert (contains "nom" header_lower = true) as N
      by (apply (contains_end "pré" "nom"); exact A).
  unfold header_key. now rewrite T, H, N, P.
Qed.

Lemma detect_columns_app idx (a b : list cell) (m : dict nat) :
  detect_columns idx (a ++ b) m
  = detect_columns (idx + length a) b (detect_columns idx a m).
Proof.
  revert idx m. induction a as [|h a IH]; intros idx m; simpl.
  - now rewrite Nat.add_0_r.
  - rewrite IH. f_equal. lia.
Qed.

Lemma detect_columns_other idx (row : list cell) (m : dict nat) (key : str) :
  (forall h, In (Some h) row -> header_key (strip (lower h)) <> Some key) ->
  dict_get key (detect_columns idx row m) = dict_get key m.
Proof.
  revert idx m. induction row as [|h row IH]; intros idx m N; [reflexivity|].
  cbn [detect_columns]. rewrite IH by (intros h' I; apply N; now right).
  destruct h as [h|]; [|reflexivity].
  destruct (truthy h); [|reflexivity].
  destruct (header_key (strip (lower h))) as [k|] eqn:E; [|reflexivity].
  apply dict_get_set_neq. intros ->. apply (N h); [now left|exact E].
Qed.

(** X19: the column of a field is the last header cell that names it:
    later header cells that name other fields, or none, leave it, and an
    earlier header cell of the same field is overwritten; a field that no
    header cell names has no column. *)
Theorem detect_columns_last_wins (before after : list cell) (h key : str) :
  truthy h = true ->
  header_key (strip (lower h)) = Some key ->
  (forall h', In (Some h') after ->
              header_key (strip (lower h')) <> Some key) ->
  dict_get key (detect_columns 0 (before ++ Some h :: after) [])
  = Some (length before).
Proof.
  intros T K N. rewrite detect_columns_app. cbn [detect_columns Nat.add].
  rewrite T, K, (detect_columns_other _ _ _ _ N). apply dict_get_set_eq.
Qed.

Lemma get_cell_unmapped (mapping : dict nat) (row : list cell) (key : str) :
  dict_get key mapping = None -> get_cell mapping row key = [].
Proof. unfold get_cell. now intros ->. Qed.

(** X20: a spreadsheet row is skipped exactly when all its cells are
    empty or its phone cell does not normalise; so a sheet in which no
    header cell names the phone loads no client, whatever its rows
    hold. *)
Theorem excel_rows_need_phone (det : IBANDetector) (now : str)
  (first_row : list cell) (data_rows : list (list cell)) (st : State) :
  (forall mapping row,
     parse_excel_row det now mapping row = None <->
     forallb empty_cell row = true \/
     normalize_phone (get_cell mapping row "telephone") = None) /\
  (dict_get "telephone" (detect_columns 0 first_row []) = None ->
   snd (load_clients_from_excel now (Workbook (first_row :: data_rows)) st)
     = Loaded 0 /\
   clients_database
     (fst (load_clients_from_excel now (Workbook (first_row :: data_rows)) st))
     = []).
Proof.
  assert (forall mapping row,
            parse_excel_row det now mapping row = None <->
            forallb empty_cell row = true \/
            normalize_phone (get_cell mapping row "telephone") = None) as P.
  { intros mapping row. unfold parse_excel_row.
    destruct (forallb empty_cell row); [split; [now left|reflexivity]|].
    cbv zeta. destruct (normalize_phone _) as [t|] eqn:En;
      [|split; [now right|reflexivity]].
    destruct (normalize_phone_truthy _ _ En) as [_ Tt]. rewrite Tt.
    cbn [negb].
    match goal with
    | |- context [let '(_, _) := ?e in _] => destruct e as [n p]
    end.
    destruct (detect_row_bank det _) as [[bq bc] pr].
    split; [discriminate|]. intros [H|H]; discriminate H. }
  split; [exact P|]. intros Un.
  assert (forall rows d,
            accepted (map (parse_excel_row d now
                             (detect_columns 0 first_row [])) rows) = []) as A.
  { intros rows d. induction rows as [|row rows IH]; [reflexivity|].
    cbn [map accepted].
    assert (parse_excel_row d now (detect_columns 0 first_row []) row = None)
      as ->; [|exact IH].
    unfold parse_excel_row. destruct (forallb empty_cell row); [reflexivity|].
    cbv zeta. now rewrite (get_cell_unmapped _ _ _ Un). }
  cbn [load_clients_from_excel fst snd finish_loading clients_database].
  unfold excel_rows. split.
  - f_equal. rewrite load_rows_count. now rewrite A.
  - pose proof (load_rows_len_le
                  (map (parse_excel_row (iban_detector (reset_clients st)) now
                          (detect_columns 0 first_row [])) data_rows)) as L.
    rewrite A in L. unfold dict_len in L.
    destruct (ld_database _); [reflexivity|simpl in L; lia].
Qed.

(** ** The statistics *)

Lemma tally_snoc (keys : list str) (k : str) :
  tally (keys ++ [k]) = count_key (tally keys) k.
Proof. unfold tally. now rewrite fold_left_app. Qed.

Lemma count_key_sum (d : dict nat) (k : str) :
  list_sum (dict_values (count_key d k)) = S (list_sum (dict_values d)).
Proof.
  unfold count_key.
  induction d as [|[k' n] d IH]; [reflexivity|]. simpl.
  destruct (str_eqb k k') eqn:E; simpl; [lia|].
  rewrite IH. lia.
Qed.

Lemma occurrences_snoc (k x : str) (keys : list str) :
  occurrences k (keys ++ [x])
  = occurrences k keys + (if str_eqb k x then 1 else 0).
Proof.
  unfold occurrences. rewrite filter_app, length_app. simpl.
  now destruct (str_eqb k x).
Qed.

Lemma tally_get (keys : list str) (k : str) :
  dict_get k (tally keys) =
  match occurrences k keys with
  | 0 => None
  | S n => Some (S n)
  end.
Proof.
  induction keys as [|x keys IH] using rev_ind; [reflexivity|].
  rewrite tally_snoc, occurrences_snoc. unfold count_key.
  rewrite dict_get_set. destruct (str_eqb k x) eqn:E.
  - apply str_eqb_eq in E. subst x. rewrite IH.
    destruct (occurrences k keys); simpl; f_equal; lia.
  - now rewrite Nat.add_0_r.
Qed.

Lemma insert_item_perm (x : str * nat) (l : list (str * nat)) :
  Permutation (insert_item x l) (x :: l).
Proof.
  induction l as [|y l IH]; simpl; [reflexivity|].
  destruct (snd y <=? snd x); [reflexivity|].
  rewrite IH. apply perm_swap.
Qed.

Lemma insert_item_sorted (x : str * nat) (l : list (str * nat)) :
  Sorted item_order l -> Sorted item_order (insert_item x l).
Proof.
  induction l as [|y l IH]; intros S; simpl; [repeat constructor|].
  destruct (snd y <=? snd x) eqn:E.
  - apply Nat.leb_le in E. constructor; [exact S|]. now constructor.
  - apply Nat.leb_gt in E. inversion S as [|? ? S' H]; subst.
    constructor; [now apply IH|].
    destruct l as [|z l]; simpl.
    + constructor. unfold item_order. lia.
    + destruct (snd z <=? snd x); constructor;
        [unfold item_order; lia|now inversion H].
Qed.

Lemma sorted_items (l : list (str * nat)) :
  Sorted item_order (fold_right insert_item [] l) /\
  Permutation (fold_right insert_item [] l) l.
Proof.
  induction l as [|x l [S P]]; simpl; [split; constructor|]. split.
  - now apply insert_item_sorted.
  - rewrite insert_item_perm. now constructor.
Qed.

Lemma Sorted_firstn {A} (R : A -> A -> Prop) (n : nat) (l : list A) :
  Sorted R l -> Sorted R (firstn n l).
Proof.
  revert l. induction n as [|n IH]; intros l S; [constructor|].
  destruct l as [|a l]; [constructor|]. simpl.
  inversion S as [|? ? S' H]; subst. constructor; [now apply IH|].
  destruct l as [|b l]; [destruct n; constructor|].
  destruct n; simpl; constructor. now inversion H.
Qed.

(** X21: in the statistics, the count of a display name is the number of
    stored records that carry it, a name that no record carries has no
    entry, and the counts add up to the number of records; the top list
    holds at most ten entries of the tally, sorted so that the counts do
    not increase. *)
Theorem banks_count_tallies (st : State) :
  (forall name,
     dict_get name (banks_count st) =
     match occurrences name (map banque (dict_values (clients_database st)))
     with
     | 0 => None
     | S n => Some (S n)
     end) /\
  list_sum (dict_values (banks_count st)) = dict_len (clients_database st) /\
  NoDup (dict_keys (banks_count st)) /\
  length (top10 (banks_count st)) <= 10 /\
  Sorted item_order (top10 (banks_count st)) /\
  (forall name n,
     In (name, n) (top10 (banks_count st)) ->
     dict_get name (banks_count st) = Some n).
Proof.
  unfold banks_count.
  set (keys := map banque (dict_values (clients_database st))).
  assert (NoDup (dict_keys (tally keys))) as N.
  { induction keys as [|x l IH] using rev_ind; [constructor|].
    rewrite tally_snoc. now apply dict_set_NoDup. }
  split; [intros name; apply tally_get|]. split; [|split; [exact N|]].
  - assert (forall l, list_sum (dict_values (tally l)) = length l) as S.
    { induction l as [|x l IH] using rev_ind; [reflexivity|].
      rewrite tally_snoc, count_key_sum, IH, length_app. simpl. lia. }
    rewrite S. unfold keys, dict_values, dict_len. now rewrite !length_map.
  - unfold top10. destruct (sorted_items (tally keys)) as [S P].
    split; [apply firstn_le_length|]. split; [now apply Sorted_firstn|].
    intros name n I. apply dict_In_get; [exact N|].
    apply (Permutation_in _ P).
    rewrite <- (firstn_skipn 10 (fold_right insert_item [] (tally keys))).
    apply in_or_app. now left.
Qed.

(** ** Lookups and exports *)

Lemma dict_set_export_lines now n stored (db : dict ClientRecord) :
  dict_get n db = Some stored ->
  map export_line (dict_values (dict_set n (record_call now stored) db))
  = map export_line (dict_values db).
Proof.
  induction db as [|[k c] db IH]; [discriminate|]. simpl.
  destruct (str_eqb n k); [now intros [= ->]|].
  intros G. simpl. now rewrite (IH G).
Qed.

Lemma get_client_info_export_lines now phone st :
  map export_line (dict_values (clients_database (fst (get_client_info now phone st))))
  = map export_line (dict_values (clients_database st)).
Proof.
  unfold get_client_info.
  destruct (negb (truthy phone)); [reflexivity|].
  destruct (normalize_phone phone) as [n|]; [|reflexivity].
  destruct (truthy n); [|reflexivity].
  destruct (dict_get n (clients_database st)) as [stored|] eqn:G; [|reflexivity].
  cbn [fst set_clients_database clients_database].
  now apply dict_set_export_lines.
Qed.

Lemma get_client_info_bank_lines now phone st phones :
  bank_lines (clients_database (fst (get_client_info now phone st))) phones
  = bank_lines (clients_database st) phones.
Proof.
  induction phones as [|p phones IH]; [reflexivity|]. cbn [bank_lines].
  rewrite IH.
  destruct (dict_get p (clients_database st)) as [c|] eqn:G.
  - rewrite (get_client_info_record now phone st p c G).
    destruct (normalize_phone phone) as [n|]; [destruct (str_eqb n p)|];
      reflexivity.
  - assert (dict_get p (clients_database (fst (get_client_info now phone st)))
            = None) as ->; [|reflexivity].
    unfold get_client_info.
    destruct (negb (truthy phone)); [exact G|].
    destruct (normalize_phone phone) as [n|]; [|exact G].
    destruct (truthy n); [|exact G].
    destruct (dict_get n (clients_database st)) as [stored|] eqn:G'; [|exact G].
    cbn [fst set_clients_database clients_database].
    rewrite dict_get_set. destruct (str_eqb p n) eqn:E; [|exact G].
    apply str_eqb_eq in E. subst p. congruence.
Qed.

Lemma get_client_info_index now phone st :
  clients_by_bank (fst (get_client_info now phone st)) = clients_by_bank st /\
  iban_detector (fst (get_client_info now phone st)) = iban_detector st /\
  upload_stats (fst (get_client_info now phone st)) = upload_stats st /\
  dict_keys (clients_database (fst (get_client_info now phone st)))
    = dict_keys (clients_database st).
Proof.
  unfold get_client_info.
  destruct (negb (truthy phone)); [now repeat split|].
  destruct (normalize_phone phone) as [n|]; [|now repeat split].
  destruct (truthy n); [|now repeat split].
  destruct (dict_get n (clients_database st)) as [stored|] eqn:G;
    [|now repeat split].
  cbn [fst set_clients_database clients_database clients_by_bank
       iban_detector upload_stats].
  repeat split. rewrite dict_keys_set. unfold dict_mem. now rewrite G.
Qed.

(** X22: lookups change no export and no statistic: after any sequence of
    lookups the text export of all clients and the text export of every
    bank are what they were, and so are the phones of the store, their
    order, the grouping index and the upload statistics. *)
Theorem lookups_keep_exports (calls : list (str * str)) (st : State) :
  generate_all_clients_file (lookups calls st) = generate_all_clients_file st /\
  (forall bank_code,
     generate_bank_file bank_code (lookups calls st)
     = generate_bank_file bank_code st) /\
  dict_keys (clients_database (lookups calls st))
    = dict_keys (clients_database st) /\
  clients_by_bank (lookups calls st) = clients_by_bank st /\
  upload_stats (lookups calls st) = upload_stats st.
Proof.
  revert st. induction calls as [|[now phone] calls IH]; intros st;
    [repeat split|].
  unfold lookups in *. cbn [fold_left fst snd].
  destruct (IH (fst (get_client_info now phone st))) as (A & B & K & I & Us).
  destruct (get_client_info_index now phone st) as (I' & D' & U' & K').
  split; [|split; [|split; [|split]]].
  - rewrite A. unfold generate_all_clients_file.
    now rewrite get_client_info_export_lines.
  - intros bank_code. rewrite B. unfold generate_bank_file.
    now rewrite I', D', get_client_info_bank_lines.
  - now rewrite K.
  - now rewrite I.
  - now rewrite Us.
Qed.

(** ** The answer to an upload *)

Lemma load_rows_detected_le rows :
  ld_banks_detected (load_rows rows) <= loaded_count (load_rows rows).
Proof.
  induction rows as [|[[c b]|] rows IH] using rev_ind; [reflexivity| |].
  - rewrite load_rows_snoc. simpl. destruct b; lia.
  - now rewrite load_rows_snoc.
Qed.

Lemma groups_le_phones (groups : list (list str)) :
  (forall g, In g groups -> g <> []) -> length groups <= length (concat groups).
Proof.
  induction groups as [|g groups IH]; intros H; [reflexivity|].
  simpl. rewrite length_app.
  assert (g <> []) as N by (apply H; now left).
  assert (length groups <= length (concat groups)) as L
      by (apply IH; intros g' I; apply H; now right).
  destruct g; [congruence|simpl; lia].
Qed.

Lemma load_rows_groups_le rows :
  dict_len (ld_by_bank (load_rows rows)) <= loaded_count (load_rows rows).
Proof.
  rewrite load_rows_count, <- (length_map telephone),
    <- (Permutation_length (load_rows_grouped rows)).
  unfold dict_len. rewrite <- (length_map snd).
  apply groups_le_phones. intros g I.
  apply in_map_iff in I as ([b g'] & <- & I).
  now destruct (load_rows_group _ _ _ I).
Qed.

(** X23: a successful upload answers with numbers that fit together: the
    number of clients is the number of accepted rows, and neither the
    number of banks identified, nor the number of groups, nor the number
    of records in the store exceeds it; the statistics keep the file name
    and the size of the store. *)
Theorem upload_file_answer (now : str) (file : uploaded_file) (st st' : State)
  (clients detected grouped : nat) :
  upload_file now file st = (st', Success clients detected grouped) ->
  detected <= clients /\ grouped <= clients /\
  dict_len (clients_database st') <= clients /\
  grouped = dict_len (clients_by_bank st') /\
  detected = banks_detected (upload_stats st') /\
  total_clients (upload_stats st') = dict_len (clients_database st') /\
  filename (upload_stats st') = Some (file_name file) /\
  last_upload (upload_stats st') = Some now.
Proof.
  unfold upload_file.
  destruct (negb _); [discriminate|].
  assert (forall input,
            (let '(s, r) := ingest now input st in
             match r with
             | Loaded nb => upload_success (file_name file) nb s
             | ValueError m => (s, Failure 500 m)
             end) = (st', Success clients detected grouped) ->
            detected <= clients /\ grouped <= clients /\
            dict_len (clients_database st') <= clients /\
            grouped = dict_len (clients_by_bank st') /\
            detected = banks_detected (upload_stats st') /\
            total_clients (upload_stats st') = dict_len (clients_database st') /\
            filename (upload_stats st') = Some (file_name file) /\
            last_upload (upload_stats st') = Some now) as K.
  { intros input. destruct (ingest now input st) as [s [nb|m]] eqn:I;
      [|discriminate].
    apply ingest_Loaded in I as [-> ->].
    unfold upload_success.
    cbn [set_filename finish_loading upload_stats banks_detected
         clients_by_bank clients_database total_clients filename last_upload].
    intros [= <- <- <- <-].
    cbn [set_filename finish_loading upload_stats banks_detected
         clients_by_bank clients_database total_clients filename last_upload].
    set (rows := ingestion_rows _ _ _).
    repeat split.
    - apply load_rows_detected_le.
    - apply load_rows_groups_le.
    - rewrite load_rows_count. apply load_rows_len_le. }
  destruct (_ || _).
  - intros H. apply (K (FromExcel (opened file))). cbn [ingest].
    destruct (load_clients_from_excel now (opened file) st) as [s [nb|m]];
      exact H.
  - destruct (decoded file) as [e|content]; [discriminate|].
    intros H. apply (K (FromText content)). cbn [ingest].
    destruct (load_clients_from_pipe_file now content st) as [s [nb|m]];
      exact H.
Qed.

End Properties.

(* ================================================================== *)
(** * Part IV: the properties at the database of CPython 3.11          *)
(* ================================================================== *)

(** The properties above hold for every database.  Here they are taken
    at the database of CPython 3.11, where the code can be run: an input
    for each property that has a hypothesis, and, for each claim of the
    specification that fails as it is stated, an input on which it
    fails. *)

Existing Instance unicode_14.

(** C6, as the claim states it, fails: with the cleaning step that keeps
    only a leading ['+'], the input [0+669290606] would be cleaned to
    [0669290606], the fourth shape, and normalise to [0669290606]; the code
    keeps the inner ['+'] and returns the absent result. *)
Lemma C6_inner_plus_counterexample :
  shape (keep_digits_leading_plus "0+669290606") "669290606" /\
  keep_digits_plus "0+669290606" = "0+669290606" /\
  normalize_phone "0+669290606" = None.
Proof.
  split; [|split]; [|reflexivity|reflexivity].
  apply shape_0. split; reflexivity.
Qed.

(** The second shape, written with spaces; and nine Arabic-Indic digits,
    which [\d] matches: they are returned as they are behind ['0']. *)
Lemma C6_normalize_phone_shapes_witness :
  normalize_phone "+33 6 69 29 06 06" = Some ("0669290606" : str) /\
  normalize_phone "٦٦٩٢٩٠٦٠٦" = Some ("0٦٦٩٢٩٠٦٠٦" : str).
Proof.
  split.
  - apply (proj1 (C6_normalize_phone_shapes "+33 6 69 29 06 06")).
    exists ("669290606" : str). split; [|reflexivity].
    apply shape_plus33. split; reflexivity.
  - apply (proj1 (C6_normalize_phone_shapes "٦٦٩٢٩٠٦٠٦")).
    exists ("٦٦٩٢٩٠٦٠٦" : str). split; [|reflexivity].
    apply shape_bare. split; reflexivity.
Defined.

(** The number 06 69 29 06 06 in three of its shapes. *)
Lemma C7_shape_invariance_idempotence_witness :
  normalize_phone "0033669290606" = Some ("0669290606" : str) /\
  normalize_phone "669290606" = Some ("0669290606" : str) /\
  normalize_phone "0669290606" = Some ("0669290606" : str).
Proof.
  assert (digits9 "669290606") as Hd by (split; reflexivity).
  pose proof (C7_shape_invariance_idempotence "669290606" Hd)
    as [(H1 & _ & _ & H4 & H5) _].
  exact (conj H1 (conj H5 H4)).
Defined.

(** The prefix 30002, defined in both tables. *)
Lemma C8_routing_table_merge_witness :
  dict_get "30002" (local_banks IBANDetector_init)
    = Some ("LCL - Le Crédit Lyonnais" : str) /\
  dict_get "30002" (all_banks IBANDetector_init)
    = Some ("Crédit Agricole" : str).
Proof.
  split; [vm_compute; reflexivity|].
  apply (proj1 (proj2 C8_routing_table_merge)).
  vm_compute; reflexivity.
Defined.

(** C10, as the claim states it, fails: the prefix [30002] is written twice
    in the display of the general table, the last time with the name
    "LCL - Le Crédit Lyonnais", which is the entry of that table; but the
    Crédit Agricole table defines the prefix too, and an identifier that
    carries it classifies to "Crédit Agricole". *)
Lemma C10_prefix_30002_counterexample :
  times_listed "30002" local_banks_items = 2 /\
  last_listed "30002" local_banks_items = Some ("LCL - Le Crédit Lyonnais" : str) /\
  dict_get "30002" (local_banks IBANDetector_init)
    = Some ("LCL - Le Crédit Lyonnais" : str) /\
  startswith (clean_iban "FR7630002005500000157841Z25") "FR" = true /\
  length (clean_iban "FR7630002005500000157841Z25") = 27 /\
  slice 4 9 (clean_iban "FR7630002005500000157841Z25") = ("30002" : str) /\
  detect_bank IBANDetector_init "FR7630002005500000157841Z25"
    = ("Crédit Agricole" : str) /\
  detect_bank IBANDetector_init "FR7630002005500000157841Z25"
    <> ("LCL - Le Crédit Lyonnais" : str).
Proof.
  repeat split; try (vm_compute; reflexivity).
  vm_compute. discriminate.
Qed.

(** An identifier that carries 12548, written twice in the general
    table; an identifier of 13 characters (14 bytes in UTF-8) that carries
    it is not long enough. *)
Lemma C10_last_listed_name_witness :
  times_listed "12548" local_banks_items = 2 /\
  detect_bank IBANDetector_init "FR76 1254 8029 9812 3456 7890 143"
    = ("Boursorama" : str) /\
  length (clean_iban "FR7612548é123") = 13 /\
  detect_bank IBANDetector_init "FR7612548é123" = IBAN_invalide.
Proof.
  split; [vm_compute; reflexivity|].
  split; [|split; vm_compute; reflexivity].
  apply (C10_last_listed_name "FR76 1254 8029 9812 3456 7890 143" "12548");
    vm_compute; reflexivity || lia.
Defined.

(** One identifier for each of the four outcomes, and one of 13
    characters with an accented letter. *)
Lemma C5_classification_witness :
  detect_bank IBANDetector_init "fr76 3000-4008 1234 5678 9012 345"
    = ("BNP Paribas" : str) /\
  extract_bank_code "fr76 3000-4008 1234 5678 9012 345" = ("30004" : str) /\
  detect_bank IBANDetector_init "DE89 3704 0044 0532 0130 00" = Banque_etrangere /\
  detect_bank IBANDetector_init "FR76 3000" = IBAN_invalide /\
  detect_bank IBANDetector_init " - " = NA /\
  detect_bank IBANDetector_init "FR7630004é123" = IBAN_invalide /\
  extract_bank_code "FR7630004é123" = unknown.
Proof.
  pose proof (C5_classification "FR7630004é123") as (_ & _ & _ & _ & H3' & _).
  pose proof (C5_classification "fr76 3000-4008 1234 5678 9012 345")
    as (_ & _ & _ & _ & _ & H4).
  pose proof (C5_classification "DE89 3704 0044 0532 0130 00")
    as (_ & _ & _ & H2 & _).
  pose proof (C5_classification "FR76 3000") as (_ & _ & _ & _ & H3 & _).
  pose proof (C5_classification " - ") as (_ & _ & H1 & _).
  cbv zeta in *.
  destruct (H4 eq_refl) as (E & _ & N & _).
  { vm_compute. lia. }
  split; [apply (N ("BNP Paribas" : str)); vm_compute; reflexivity|].
  split; [rewrite E; vm_compute; reflexivity|].
  split; [apply H2; [vm_compute; discriminate | reflexivity]|].
  split; [apply H3; [reflexivity | vm_compute; lia]|].
  split; [apply H1; reflexivity|].
  apply H3'; [reflexivity | vm_compute; lia].
Defined.

(** C4, as the claim states it, fails: the record returned for a known
    phone is the copy taken before the update, so it still shows the call
    count and the last-call time of before the lookup, while the stored
    record has the count incremented and the time set. *)
Lemma C4_stale_copy_counterexample :
  let st' := fst (get_client_info "04/11/2026 10:05:00" "+33 6 69 29 06 06"
                    sample_state) in
  let client := snd (get_client_info "04/11/2026 10:05:00" "+33 6 69 29 06 06"
                       sample_state) in
  option_map nb_appels (dict_get "0669290606" (clients_database st')) = Some 1 /\
  option_map dernier_appel (dict_get "0669290606" (clients_database st'))
    = Some (Some ("04/11/2026 10:05:00" : str)) /\
  nb_appels client = 0 /\
  dernier_appel client = None /\
  dict_get "0669290606" (clients_database st') <> Some client.
Proof.
  repeat split; try (vm_compute; reflexivity).
  vm_compute. discriminate.
Qed.

(** Two lookups of the stored phone, and one of a phone that is not stored. *)
Lemma C4_get_client_info_witness :
  snd (get_client_info "04/11/2026 10:05:00" "0033669290606" sample_state)
    = snd (get_client_info "04/11/2026 10:09:00" "06 69 29 06 06" sample_state) /\
  fst (get_client_info "04/11/2026 10:05:00" "0769290606" sample_state)
    = sample_state.
Proof.
  destruct (C4_get_client_info "04/11/2026 10:05:00" "0033669290606"
              sample_state) as [H _].
  destruct (C4_get_client_info "04/11/2026 10:09:00" "06 69 29 06 06"
              sample_state) as [H' _].
  destruct (C4_get_client_info "04/11/2026 10:05:00" "0769290606"
              sample_state) as [_ M].
  cbv zeta in *.
  assert (exists stored,
            dict_get "0669290606" (clients_database sample_state) = Some stored)
    as [stored Hs] by (eexists; vm_compute; reflexivity).
  split.
  - destruct (H "0669290606" stored) as [-> _];
      [vm_compute; reflexivity | exact Hs |].
    destruct (H' "0669290606" stored) as [-> _];
      [vm_compute; reflexivity | exact Hs |].
    reflexivity.
  - apply M. right. exists ("0769290606" : str).
    split; vm_compute; reflexivity.
Defined.

(** C1, as the claim states it, fails: an upload of an unreadable workbook
    on the state that holds one client ends in the failure response, and
    both the phone-keyed map and the grouping index are empty after it. *)
Lemma C1_corrupt_workbook_counterexample :
  let file := {| file_name := "clients.xlsx"; file_ext := "xlsx";
                 decoded := Undecodable "invalid start byte";
                 opened := Corrupt "File is not a zip file" |} in
  let st' := fst (upload_file "04/11/2026 10:05:00" file sample_state) in
  snd (upload_file "04/11/2026 10:05:00" file sample_state)
    = Failure 500 "Erreur lecture Excel: File is not a zip file" /\
  dict_keys (clients_database sample_state) = [("0669290606" : str)] /\
  clients_by_bank sample_state = [("30003" : str, [("0669290606" : str)])] /\
  clients_database st' = [] /\
  clients_by_bank st' = [] /\
  clients_database st' <> clients_database sample_state /\
  clients_by_bank st' <> clients_by_bank sample_state.
Proof.
  repeat split; try (vm_compute; reflexivity); vm_compute; discriminate.
Qed.

(** An unreadable [.xls] upload on the state that holds one client. *)
Lemma C1_corrupt_workbook_resets_store_witness :
  fst (upload_file "04/11/2026 10:05:00"
         {| file_name := "clients.xls"; file_ext := "xls";
            decoded := Undecodable "invalid start byte";
            opened := Corrupt "File is not a zip file" |} sample_state)
  = reset_clients sample_state.
Proof.
  destruct (C1_corrupt_workbook_resets_store "04/11/2026 10:05:00"
              "File is not a zip file"
              {| file_name := "clients.xls"; file_ext := "xls";
                 decoded := Undecodable "invalid start byte";
                 opened := Corrupt "File is not a zip file" |} sample_state)
    as (_ & H & _); [reflexivity | left; reflexivity |].
  now rewrite H.
Defined.

(** C2, as the claim states it, fails: after the ingestion of two lines
    that carry the same phone, the phone is filed twice in the grouping
    index while the store holds one record. *)
Lemma C2_duplicate_phone_counterexample :
  let st' := fst (ingest "04/11/2026 10:00:00" (FromText duplicate_lines)
                    initial_state) in
  snd (ingest "04/11/2026 10:00:00" (FromText duplicate_lines) initial_state)
    = Loaded 2 /\
  clients_by_bank st'
    = [(unknown, [("0669290606" : str); ("0669290606" : str)])] /\
  dict_keys (clients_database st') = [("0669290606" : str)] /\
  ~ NoDup (concat (dict_values (clients_by_bank st'))) /\
  list_sum (map (@length str) (dict_values (clients_by_bank st'))) = 2 /\
  dict_len (clients_database st') = 1.
Proof.
  repeat split; try (vm_compute; reflexivity).
  intros N. vm_compute in N. inversion N as [|? ? N1 _]. apply N1. now left.
Qed.

(** The ingestion of the sample line. *)
Lemma C2_index_store_consistency_witness :
  NoDup (concat (dict_values (clients_by_bank sample_state))) /\
  list_sum (map (@length str) (dict_values (clients_by_bank sample_state)))
    = dict_len (clients_database sample_state).
Proof.
  destruct (C2_index_store_consistency "04/11/2026 10:00:00"
              (FromText sample_line) initial_state sample_state 1)
    as (_ & _ & _ & _ & _ & H); [vm_compute; reflexivity|].
  apply H. vm_compute. repeat constructor. intros [].
Defined.

(** C3, as the claim states it, fails: the upload of two lines that carry
    the same phone reports 2 clients, while the store, and its statistics,
    hold one record, the one of the later line. *)
Lemma C3_duplicate_count_counterexample :
  let file := {| file_name := "clients.txt"; file_ext := "txt";
                 decoded := Text duplicate_lines;
                 opened := Corrupt "File is not a zip file" |} in
  let st' := fst (upload_file "04/11/2026 10:00:00" file initial_state) in
  snd (upload_file "04/11/2026 10:00:00" file initial_state) = Success 2 0 1 /\
  snd (load_clients_from_pipe_file "04/11/2026 10:00:00" duplicate_lines
         initial_state) = Loaded 2 /\
  dict_len (clients_database st') = 1 /\
  total_clients (upload_stats st') = 1 /\
  option_map nom (dict_get "0669290606" (clients_database st'))
    = Some ("Anne" : str).
Proof. repeat split; vm_compute; reflexivity. Qed.

(** The ingestion of two lines that carry the same phone. *)
Lemma C3_last_wins_count_witness :
  option_map nom (dict_get "0669290606"
                    (clients_database
                       (fst (ingest "04/11/2026 10:00:00"
                               (FromText duplicate_lines) initial_state))))
    = Some ("Anne" : str) /\
  dict_len (clients_database
              (fst (ingest "04/11/2026 10:00:00" (FromText duplicate_lines)
                      initial_state))) < 2.
Proof.
  destruct (C3_last_wins_count "04/11/2026 10:00:00" (FromText duplicate_lines)
              initial_state
              (fst (ingest "04/11/2026 10:00:00" (FromText duplicate_lines)
                      initial_state)) 2)
    as (G & _ & _ & _ & _ & _ & _ & L); [vm_compute; reflexivity|].
  split.
  - rewrite G. vm_compute. reflexivity.
  - apply L. intros N. vm_compute in N.
    inversion N as [|? ? N1 _]. apply N1. now left.
Defined.

(** C9, as the claim states it, fails: the store loaded from a sheet whose
    last-name cell is "De La Fontaine" and whose first-name cell is "Jean"
    is exported as the line [0669290606|De La Fontaine Jean|||| ()||], and
    the text loader reads that line back with last name "De" and first
    name "La Fontaine Jean". *)
Lemma C9_spreadsheet_names_counterexample :
  let st := fst (load_clients_from_excel "04/11/2026 10:00:00" sample_sheet
                   initial_state) in
  let st' := fst (load_clients_from_pipe_file "04/11/2026 10:05:00"
                    (generate_all_clients_file st) st) in
  generate_all_clients_file st
    = ("0669290606|De La Fontaine Jean|||| ()||" : str) /\
  option_map nom (dict_get "0669290606" (clients_database st))
    = Some ("De La Fontaine" : str) /\
  option_map prenom (dict_get "0669290606" (clients_database st))
    = Some ("Jean" : str) /\
  option_map nom (dict_get "0669290606" (clients_database st'))
    = Some ("De" : str) /\
  option_map prenom (dict_get "0669290606" (clients_database st'))
    = Some ("La Fontaine Jean" : str).
Proof. repeat split; vm_compute; reflexivity. Qed.

(** The sample line, a lookup, the export and its re-ingestion. *)
Lemma C9_text_export_round_trip_witness :
  let st := lookups [("04/11/2026 10:03:00" : str, "+33669290606" : str)]
              sample_state in
  exists c',
    dict_get "0669290606"
      (clients_database
         (fst (load_clients_from_pipe_file "04/11/2026 10:05:00"
                 (generate_all_clients_file st) st))) = Some c' /\
    nom c' = ("Islam" : str) /\ prenom c' = ("Soussi" : str) /\
    iban c' = ("FR7630003000000000000000000" : str) /\ nb_appels c' = 0.
Proof.
  intros st.
  destruct (C9_text_export_round_trip "04/11/2026 10:00:00"
              "04/11/2026 10:05:00" sample_line
              [("04/11/2026 10:03:00" : str, "+33669290606" : str)]
              initial_state) as [_ H].
  assert (exists c, dict_get "0669290606" (clients_database st) = Some c /\
                    nom c = ("Islam" : str) /\ prenom c = ("Soussi" : str) /\
                    iban c = ("FR7630003000000000000000000" : str) /\
                    nb_appels c = 1)
    as (c & G & E1 & E2 & E3 & _)
      by (eexists; repeat split; vm_compute; reflexivity).
  destruct (H "0669290606" c G) as (c' & G' & _ & N1 & N2 & N3 & _ & N4 & _).
  exists c'. split; [exact G'|].
  rewrite N1, N2, N3, N4, E1, E2, E3. repeat split.
Defined.

(** An identifier written with spaces, a hyphen and lower case; and an
    identifier that upper-casing lengthens. *)
Lemma clean_iban_idempotent_witness :
  clean_iban (clean_iban "fr76 3000-4008") = clean_iban "fr76 3000-4008" /\
  length (clean_iban "fr76 3000-4008") <= 14 /\
  clean_iban "ß" = "SS".
Proof.
  destruct (clean_iban_idempotent "fr76 3000-4008") as (H1 & _ & H3).
  split; [exact H1|]. split; [apply H3|]; vm_compute; reflexivity.
Defined.

(** An identifier written with spaces, hyphens and lower case, and its
    compact form. *)
Lemma classification_by_cleaned_form_witness :
  detect_bank IBANDetector_init "fr76 3000-4008 1234 5678 9012 345"
  = detect_bank IBANDetector_init "FR7630004008123456789012345".
Proof.
  assert (clean_iban "fr76 3000-4008 1234 5678 9012 345"
          = clean_iban "FR7630004008123456789012345") as E
      by (vm_compute; reflexivity).
  exact (proj1 (classification_by_cleaned_form IBANDetector_init _ _ E)).
Defined.

(** The prefix of a German identifier, and that of an identifier of 13
    characters with an accented letter. *)
Lemma extract_bank_code_shape_witness :
  (detect_bank IBANDetector_init "DE89 3704 0044 0532 0130 00" = NA \/
   detect_bank IBANDetector_init "DE89 3704 0044 0532 0130 00"
     = Banque_etrangere \/
   detect_bank IBANDetector_init "DE89 3704 0044 0532 0130 00"
     = IBAN_invalide) /\
  extract_bank_code "FR7630004é123" = unknown.
Proof.
  assert (extract_bank_code "DE89 3704 0044 0532 0130 00" = unknown) as E
      by (vm_compute; reflexivity).
  split.
  - exact (proj2 (proj2 (extract_bank_code_shape IBANDetector_init _)) E).
  - apply (proj1 (proj2 (extract_bank_code_shape IBANDetector_init
                           "FR7630004é123"))).
    right. vm_compute. lia.
Defined.

(** The identifier "-", which cleans to the empty string. *)
Lemma detect_row_bank_agrees_witness :
  fst (fst (detect_row_bank IBANDetector_init "-")) = "🏦 " ++ Banque_etrangere /\
  detect_bank IBANDetector_init "-" = NA.
Proof.
  assert (clean_iban "-" = []) as E by reflexivity.
  assert (("-" : str) <> []) as N by discriminate.
  exact (proj2 (proj2 (proj2 (detect_row_bank_agrees IBANDetector_init "-")))
           N E).
Defined.

(** The sample line, and a line with five delimiters. *)
Lemma parse_pipe_line_accepts_witness :
  parse_pipe_line IBANDetector_init "04/11/2026 10:00:00"
    "0669290606|Islam Soussi|01/09/1976|a@b.com|2 Avenue|Paris (75001)" = None /\
  option_map (fun r => telephone (fst r))
    (parse_pipe_line IBANDetector_init "04/11/2026 10:00:00" sample_line)
  = Some ("0669290606" : str).
Proof.
  split.
  - apply (proj1 (parse_pipe_line_accepts IBANDetector_init
                    "04/11/2026 10:00:00"
                    "0669290606|Islam Soussi|01/09/1976|a@b.com|2 Avenue|Paris (75001)")).
    right; left. vm_compute. lia.
  - destruct (parse_pipe_line IBANDetector_init "04/11/2026 10:00:00"
                sample_line) as [[c b]|] eqn:E; [|vm_compute in E; discriminate E].
    destruct (proj2 (parse_pipe_line_accepts IBANDetector_init
                       "04/11/2026 10:00:00" sample_line) c b E) as (P & _).
    assert (normalize_phone
              (part 0 (split "|" sample_line)) = Some ("0669290606" : str)) as Q
        by (vm_compute; reflexivity).
    rewrite P in Q. injection Q as Q. cbn [option_map fst]. now rewrite Q.
Defined.

(** The sample line, ingested on the empty store and on a store that
    holds a client. *)
Lemma ingest_replaces_store_witness :
  clients_database
    (fst (ingest "04/11/2026 11:00:00" (FromText duplicate_lines) initial_state))
  = clients_database
      (fst (ingest "04/11/2026 11:00:00" (FromText duplicate_lines) sample_state)).
Proof.
  apply (ingest_replaces_store "04/11/2026 11:00:00" (FromText duplicate_lines)
           initial_state sample_state).
  reflexivity.
Defined.

(** The empty text. *)
Lemma empty_batches_load_nothing_witness :
  snd (ingest "04/11/2026 11:00:00" (FromText []) sample_state) = Loaded 0.
Proof.
  apply (empty_batches_load_nothing "04/11/2026 11:00:00" (FromText [])
           sample_state).
  left. exists []. split; reflexivity.
Defined.

(** The record of the sample line after its upload. *)
Lemma reachable_store_records_witness :
  exists c,
    In ("0669290606" : str, c)
       (clients_database
          (run [ReqUpload "04/11/2026 10:00:00"
                  (received_file "clients.txt" (Text sample_line) (Corrupt ""))]
               initial_state)) /\
    bank_code c = extract_bank_code (iban c).
Proof.
  assert (exists c,
            dict_get "0669290606"
              (clients_database
                 (run [ReqUpload "04/11/2026 10:00:00"
                         (received_file "clients.txt" (Text sample_line)
                            (Corrupt ""))] initial_state)) = Some c)
    as [c G] by (eexists; vm_compute; reflexivity).
  exists c. apply dict_get_Some_In in G. split; [exact G|].
  apply (reachable_store_records _ _ _ G).
Defined.

(** The group of the sample line after its upload; and the group of a
    line whose identifier holds an accented letter at position 4: its key
    has five characters. *)
Lemma reachable_index_agrees_witness :
  dict_mem "0669290606"
    (clients_database
       (run [ReqUpload "04/11/2026 10:00:00"
               (received_file "clients.txt" (Text sample_line) (Corrupt ""))]
            initial_state)) = true /\
  clients_by_bank
    (run [ReqUpload "04/11/2026 10:00:00"
            (received_file "clients.txt"
               (Text "0669290606|Islam Soussi|||||FR76é00040000000|")
               (Corrupt ""))]
         initial_state)
  = [("É0004" : str, [("0669290606" : str)])].
Proof.
  split; [|vm_compute; reflexivity].
  destruct (proj1 (reachable_index_agrees
                     [ReqUpload "04/11/2026 10:00:00"
                        (received_file "clients.txt" (Text sample_line)
                           (Corrupt ""))]) "30003" [("0669290606" : str)])
    as (_ & _ & H); [vm_compute; left; reflexivity|].
  apply H. left. reflexivity.
Defined.

(** The phone of the sample line, after its upload. *)
Lemma search_client_found_witness :
  snd (snd (search_client "04/11/2026 10:05:00" "+33 6 69 29 06 06"
              (run [ReqUpload "04/11/2026 10:00:00"
                      (received_file "clients.txt" (Text sample_line)
                         (Corrupt ""))] initial_state))) = true.
Proof.
  apply (search_client_found
           [ReqUpload "04/11/2026 10:00:00"
              (received_file "clients.txt" (Text sample_line) (Corrupt ""))]).
  exists ("0669290606" : str). split; vm_compute; reflexivity.
Defined.

(** The international and the spaced spelling of the sample phone. *)
Lemma lookup_by_normalised_phone_witness :
  get_client_info "04/11/2026 10:05:00" "0033669290606" sample_state
  = get_client_info "04/11/2026 10:05:00" "06 69 29 06 06" sample_state.
Proof.
  destruct (lookup_by_normalised_phone "04/11/2026 10:05:00" "0033669290606"
              "06 69 29 06 06" sample_state) as [H1 H2];
    [vm_compute; reflexivity|].
  specialize (H2 ("0669290606" : str)).
  rewrite (surjective_pairing (get_client_info _ "0033669290606" _)),
    (surjective_pairing (get_client_info _ "06 69 29 06 06" _)).
  rewrite H1, H2; [reflexivity| |]; vm_compute; reflexivity.
Defined.

(** Three lookups on the state of the sample line, two of its phone. *)
Lemma lookups_count_calls_witness :
  option_map nb_appels
    (dict_get "0669290606"
       (clients_database
          (lookups [("04/11/2026 10:01:00" : str, "+33669290606" : str);
                    ("04/11/2026 10:02:00" : str, "0769290606" : str);
                    ("04/11/2026 10:03:00" : str, "06.69.29.06.06" : str)]
             sample_state)))
  = Some 2.
Proof.
  assert (exists c, dict_get "0669290606" (clients_database sample_state)
                    = Some c /\ nb_appels c = 0)
    as (c & G & Z) by (eexists; split; vm_compute; reflexivity).
  destruct (lookups_count_calls
              [("04/11/2026 10:01:00" : str, "+33669290606" : str);
               ("04/11/2026 10:02:00" : str, "0769290606" : str);
               ("04/11/2026 10:03:00" : str, "06.69.29.06.06" : str)]
              sample_state "0669290606" c G) as (c' & G' & N & _).
  rewrite G'. cbn [option_map]. rewrite N, Z. reflexivity.
Defined.

(** The bank of the sample line, after its upload. *)
Lemma generate_bank_file_succeeds_witness :
  exists records filename,
    generate_bank_file "30003"
      (run [ReqUpload "04/11/2026 10:00:00"
              (received_file "clients.txt" (Text sample_line) (Corrupt ""))]
           initial_state)
    = File (join [line_feed] (map export_line records)) filename "text/plain" /\
    length records = 1.
Proof.
  destruct (proj2 (generate_bank_file_succeeds
                     [ReqUpload "04/11/2026 10:00:00"
                        (received_file "clients.txt" (Text sample_line)
                           (Corrupt ""))] "30003")
              [("0669290606" : str)]) as (records & filename & E & _ & L);
    [vm_compute; reflexivity|].
  exists records, filename. split; [exact E|exact L].
Defined.

(** The ingestion of the sample line. *)
Lemma bank_groups_split_store_witness :
  Permutation (concat (dict_values (clients_by_bank sample_state)))
              (dict_keys (clients_database sample_state)).
Proof.
  destruct (bank_groups_split_store "04/11/2026 10:00:00"
              (FromText sample_line) initial_state sample_state 1)
    as (_ & H & _); [vm_compute; reflexivity| |exact H].
  vm_compute. repeat constructor. intros [].
Defined.

(** A PDF, uploaded on the state that holds the sample client. *)
Lemma upload_file_rejects_witness :
  fst (upload_file "04/11/2026 10:05:00"
         (received_file "clients.v2.PDF" (Text sample_line) (Corrupt ""))
         sample_state)
  = sample_state.
Proof.
  destruct (upload_file_rejects "04/11/2026 10:05:00" "clients.v2.PDF"
              (Text sample_line) (Corrupt "") sample_state) as (_ & H & _).
  cbv zeta in H.
  rewrite (H "clients.v2" "PDF"); [reflexivity|reflexivity| | | |];
    try (vm_compute; discriminate).
  intros [I|[I|[I|[]]]]; discriminate I.
Defined.

(** The header "Prénom" of a sheet, lower-cased and stripped. *)
Lemma header_key_accented_prenom_witness :
  header_key (strip (lower "Prénom")) = Some ("nom" : str).
Proof.
  apply header_key_accented_prenom; vm_compute; reflexivity.
Defined.

(** Two cells that name the phone, around one that names the e-mail. *)
Lemma detect_columns_last_wins_witness :
  dict_get "telephone"
    (detect_columns 0 [Some ("Tel fixe" : str); Some ("Phone" : str);
                       Some ("E-mail" : str)] [])
  = Some 1.
Proof.
  apply (detect_columns_last_wins [Some ("Tel fixe" : str)]
           [Some ("E-mail" : str)] "Phone" "telephone");
    [reflexivity|vm_compute; reflexivity|].
  intros h' [[= <-]|[]]. vm_compute. discriminate.
Defined.

(** A sheet whose headers name the last and the first name only. *)
Lemma excel_rows_need_phone_witness :
  snd (load_clients_from_excel "04/11/2026 10:00:00"
         (Workbook [[Some ("Nom" : str); Some ("Prenom" : str)];
                    [Some ("0669290606" : str); Some ("Jean" : str)]])
         initial_state)
  = Loaded 0.
Proof.
  apply (proj2 (excel_rows_need_phone IBANDetector_init "04/11/2026 10:00:00"
                  [Some ("Nom" : str); Some ("Prenom" : str)]
                  [[Some ("0669290606" : str); Some ("Jean" : str)]]
                  initial_state)).
  vm_compute. reflexivity.
Defined.

(** A bank of the table carried by one record of the sample state. *)
Lemma banks_count_tallies_witness :
  dict_get "🏦 Société Générale" (banks_count sample_state) = Some 1.
Proof.
  apply (proj2 (proj2 (proj2 (proj2 (proj2 (banks_count_tallies sample_state)))))).
  vm_compute. left. reflexivity.
Defined.

(** The upload of the two lines that carry one phone. *)
Lemma upload_file_answer_witness :
  dict_len
    (clients_database
       (fst (upload_file "04/11/2026 10:00:00"
               (received_file "clients.txt" (Text duplicate_lines) (Corrupt ""))
               initial_state))) <= 2.
Proof.
  destruct (upload_file_answer "04/11/2026 10:00:00"
              (received_file "clients.txt" (Text duplicate_lines) (Corrupt ""))
              initial_state
              (fst (upload_file "04/11/2026 10:00:00"
                      (received_file "clients.txt" (Text duplicate_lines)
                         (Corrupt "")) initial_state))
              2 0 1) as (_ & _ & H & _); [vm_compute; reflexivity|exact H].
Defined.
